(** * Arc Welder: segment statistics, progress and result records

    A shallow embedding of [arc_welder.h]: the segment-length histograms
    ([segment_statistic], [source_target_segment_statistics]), the progress
    snapshot ([arc_welder_progress]), the result record
    ([arc_welder_results]) and the progress callback type.

    C++ [double] values are IEEE 754 binary64 numbers, [float] literals
    (suffix [f]) are binary32 numbers widened to binary64, and [int] is a
    signed 32-bit integer whose overflow is undefined behaviour. *)

From Stdlib Require Import ZArith QArith Qabs Lia Bool.
From Stdlib Require Import Floats.SpecFloat.
From Stdlib Require Import Ascii.
From stdpp Require Import base option list strings pretty.

Local Open Scope Z_scope.

(** ** IEEE 754 numbers *)

(** [float]: binary32.  A decimal literal [d * 10^k] is rounded to the
    nearest binary32 number (ties to even), as a C++ compiler does for the
    literal [0.002f]. *)
Module Float.
Definition prec : Z := 24.
Definition emax : Z := 128.

Definition of_decimal (digits exp10 : Z) : spec_float :=
  match exp10 with
  | Zneg k =>
      match digits with
      | Z0 => S754_zero false
      | Zpos d => SFdiv prec emax (S754_finite false d 0)
                    (S754_finite false (Pos.pow 10 k) 0)
      | Zneg d => SFdiv prec emax (S754_finite true d 0)
                    (S754_finite false (Pos.pow 10 k) 0)
      end
  | _ => binary_normalize prec emax (digits * 10 ^ exp10) 0 false
  end.

(** The unit in the last place of a finite number [m * 2^e]. *)
Definition ulp (x : spec_float) : Q :=
  match x with
  | S754_finite _ _ e => (2 ^ e)%Q
  | _ => 0%Q
  end.
End Float.

(** [double]: binary64. *)
Module Double.
Definition prec : Z := 53.
Definition emax : Z := 1024.

Definition double : Type := spec_float.

(** The integer literal [0] and the literal [0.0] converted to [double]. *)
Definition zero : double := S754_zero false.

(** Implicit conversion [float -> double]; every binary32 number is a
    binary64 number, so only the representation is renormalised. *)
Definition of_float (x : spec_float) : double :=
  match x with
  | S754_finite s m e => binary_round prec emax s m e
  | _ => x
  end.

(** A [double] literal without suffix, such as [0.002]. *)
Definition of_decimal (digits exp10 : Z) : double :=
  match exp10 with
  | Zneg k =>
      match digits with
      | Z0 => S754_zero false
      | Zpos d => SFdiv prec emax (S754_finite false d 0)
                    (S754_finite false (Pos.pow 10 k) 0)
      | Zneg d => SFdiv prec emax (S754_finite true d 0)
                    (S754_finite false (Pos.pow 10 k) 0)
      end
  | _ => binary_normalize prec emax (digits * 10 ^ exp10) 0 false
  end.

Definition add (x y : double) : double := SFadd prec emax x y.
Definition leb (x y : double) : bool := SFleb x y.   (* x <= y *)
Definition ltb (x y : double) : bool := SFltb x y.   (* x <  y *)
Definition gtb (x y : double) : bool := SFltb y x.   (* x >  y *)
Definition geb (x y : double) : bool := SFleb y x.   (* x >= y *)

Definition is_nan (x : double) : bool :=
  match x with S754_nan => true | _ => false end.

Definition valid (x : double) : bool := valid_binary prec emax x.

(** The exact rational value of a finite number. *)
Definition to_Q (x : double) : option Q :=
  match x with
  | S754_zero _ => Some 0%Q
  | S754_finite s m e => Some (inject_Z (cond_Zopp s (Zpos m)) * 2 ^ e)%Q
  | _ => None
  end.
End Double.

(** [int]: signed 32-bit.  The only operation the statistics apply to an
    [int] is [++]; incrementing [INT_MAX] is undefined behaviour, which the
    embedding reports as [None]. *)
Module Int.
Definition INT_MAX : Z := 2147483647.

Definition incr (x : Z) : option Z :=
  if x <? INT_MAX then Some (x + 1) else None.
End Int.

Abbreviation double := Double.double.

(** ** Declarations that live in other headers *)

(** [utilities::get_num_digits] is declared in [utilities.h]; the
    constructor of the statistics only stores its result. *)
Class utilities := { get_num_digits : double -> Z }.

(** ** [arc_welder.h] *)

(** [#define DEFAULT_G90_G91_INFLUENCES_EXTREUDER false] *)
Definition DEFAULT_G90_G91_INFLUENCES_EXTREUDER : bool := false.

Definition segment_statistic_lengths_count : Z := 12.

(** [{ 0.002f, 0.005f, 0.01f, 0.05f, 0.1f, 0.5f, 1.0f, 5.0f, 10.0f, 20.0f,
      50.0f, 100.0f }]: each literal as (digits, decimal exponent). *)
Definition segment_statistic_literals : list (Z * Z) :=
  [ (2, -3); (5, -3); (1, -2); (5, -2); (1, -1); (5, -1);
    (10, -1); (50, -1); (100, -1); (200, -1); (500, -1); (1000, -1) ].

Definition segment_statistic_lengths : list double :=
  Eval vm_compute in
    map (fun d => Double.of_float (Float.of_decimal (fst d) (snd d)))
        segment_statistic_literals.

(** The literal [-1.0f] converted to [double]. *)
Definition minus_one : double :=
  Eval vm_compute in Double.of_float (Float.of_decimal (-10) (-1)).

Record segment_statistic := {
  min_mm : double;
  max_mm : double;
  count : Z
}.

Definition segment_statistic_new (min_length_mm max_length_mm : double)
  : segment_statistic :=
  {| count := 0; min_mm := min_length_mm; max_mm := max_length_mm |}.

(** [stat.count++] through the reference [stat]. *)
Definition count_incr (stat : segment_statistic) : option segment_statistic :=
  c ← Int.incr (count stat);
  Some {| min_mm := min_mm stat; max_mm := max_mm stat; count := c |}.

Section ArcWelder.
Context {logger : Type} `{utilities}.

Record source_target_segment_statistics := {
  source_segments : list segment_statistic;
  target_segments : list segment_statistic;
  total_length_source : double;
  total_length_target : double;
  max_width : Z;
  max_precision : Z;
  total_count_source : Z;
  total_count_target : Z;
  num_segment_tracking_lengths : Z;
  p_logger_ : option logger;
  logger_type_ : Z
}.

(** The [for] loop of the constructor, [n] iterations starting at [index].
    Reading [segment_tracking_lengths[index]] past the end of the array
    is undefined behaviour ([None]). *)
Fixpoint tracking_loop (segment_tracking_lengths : list double)
    (n index : nat) (source target : list segment_statistic)
    (current_min : double)
  : option (list segment_statistic * list segment_statistic * double) :=
  match n with
  | O => Some (source, target, current_min)
  | S n' =>
      current_max ← segment_tracking_lengths !! index;
      tracking_loop segment_tracking_lengths n' (S index)
        (source ++ [segment_statistic_new current_min current_max])
        (target ++ [segment_statistic_new current_min current_max])
        current_max
  end.

Definition source_target_segment_statistics_new
    (segment_tracking_lengths : list double) (num_lengths : Z)
    (p_logger : option logger)
  : option source_target_segment_statistics :=
  r ← tracking_loop segment_tracking_lengths (Z.to_nat num_lengths) 0
        [] [] Double.zero;
  let '(source, target, current_min) := r in
  Some {| total_length_source := Double.zero;
          total_length_target := Double.zero;
          total_count_source := 0;
          total_count_target := 0;
          max_precision := 3;
          num_segment_tracking_lengths := num_lengths;
          source_segments :=
            source ++ [segment_statistic_new current_min minus_one];
          target_segments :=
            target ++ [segment_statistic_new current_min minus_one];
          max_width := get_num_digits current_min;
          p_logger_ := p_logger;
          logger_type_ := 0 |}.

(** [stat.min_mm <= length && stat.max_mm > length] *)
Definition in_range (stat : segment_statistic) (length : double) : bool :=
  Double.leb (min_mm stat) length && Double.gtb (max_mm stat) length.

(** The [for] loop of [update] over the chosen vector, from [index] on;
    [n] bounds the iterations left, the loop test [index < size] is the
    lookup, and [break] returns. *)
Fixpoint update_loop (length : double) (n index : nat)
    (stats : list segment_statistic) : option (list segment_statistic) :=
  match n with
  | O => Some stats
  | S n' =>
      match stats !! index with
      | None => Some stats
      | Some stat =>
          if in_range stat length || (index + 1 =? List.length stats)%nat
          then stat' ← count_incr stat; Some (<[index := stat']> stats)
          else update_loop length n' (S index) stats
      end
  end.

Definition update (s : source_target_segment_statistics)
    (length : double) (is_source : bool)
  : option source_target_segment_statistics :=
  if Double.leb length Double.zero then Some s
  else if is_source then
    c ← Int.incr (total_count_source s);
    stats ← update_loop length (List.length (source_segments s)) 0
              (source_segments s);
    Some {| total_count_source := c;
            total_length_source := Double.add (total_length_source s) length;
            source_segments := stats;
            target_segments := target_segments s;
            total_length_target := total_length_target s;
            max_width := max_width s;
            max_precision := max_precision s;
            total_count_target := total_count_target s;
            num_segment_tracking_lengths := num_segment_tracking_lengths s;
            p_logger_ := p_logger_ s;
            logger_type_ := logger_type_ s |}
  else
    c ← Int.incr (total_count_target s);
    stats ← update_loop length (List.length (target_segments s)) 0
              (target_segments s);
    Some {| total_count_target := c;
            total_length_target := Double.add (total_length_target s) length;
            target_segments := stats;
            source_segments := source_segments s;
            total_length_source := total_length_source s;
            max_width := max_width s;
            max_precision := max_precision s;
            total_count_source := total_count_source s;
            num_segment_tracking_lengths := num_segment_tracking_lengths s;
            p_logger_ := p_logger_ s;
            logger_type_ := logger_type_ s |}.

(** A sequence of [update] calls, in order. *)
Fixpoint updates (s : source_target_segment_statistics)
    (calls : list (double * bool))
  : option source_target_segment_statistics :=
  match calls with
  | [] => Some s
  | (length, is_source) :: calls' =>
      s' ← update s length is_source; updates s' calls'
  end.

(** Struct to hold the progress, statistics, and return values. *)
Record arc_welder_progress := {
  percent_complete : double;
  seconds_elapsed : double;
  seconds_remaining : double;
  gcodes_processed : Z;
  lines_processed : Z;
  points_compressed : Z;
  arcs_created : Z;
  compression_ratio : double;
  compression_percent : double;
  source_file_position : Z;
  source_file_size : Z;
  target_file_size : Z;
  segment_statistics : source_target_segment_statistics
}.

Definition arc_welder_progress_new : option arc_welder_progress :=
  statistics ← source_target_segment_statistics_new
                 segment_statistic_lengths segment_statistic_lengths_count
                 None;
  Some {| segment_statistics := statistics;
          percent_complete := Double.zero;
          seconds_elapsed := Double.zero;
          seconds_remaining := Double.zero;
          gcodes_processed := 0;
          lines_processed := 0;
          points_compressed := 0;
          arcs_created := 0;
          source_file_size := 0;
          source_file_position := 0;
          target_file_size := 0;
          compression_ratio := Double.zero;
          compression_percent := Double.zero |}.

(** The progress callback type: a pointer to a function of an
    [arc_welder_progress], a [logger*] and an [int logger_type], returning
    [bool]. *)
Definition progress_callback : Type :=
  arc_welder_progress -> option logger -> Z -> bool.

Record arc_welder_results := {
  success : bool;
  cancelled : bool;
  message : string;
  progress : arc_welder_progress
}.

Definition arc_welder_results_new : option arc_welder_results :=
  p ← arc_welder_progress_new;
  Some {| progress := p;
          success := false;
          cancelled := false;
          message := EmptyString |}.

(** Modelled from the spec: the cancellation protocol of
    [arc_welder::process], whose body (arc_welder.cpp) is not among the
    sources.  Section 4.7: the pipeline invokes the progress callback with
    a snapshot; the callback returns a continue/cancel boolean; cancel
    causes the pipeline to stop, close the output, and return a result
    marked cancelled=true.  Section 7: cancellation is a non-error
    termination with success=true.  The pipeline is abstracted to the
    snapshots [due] at which a notification falls due; input and output
    errors are left out; [final] and [text] stand for the snapshot and the
    message the pipeline reports when it stops. *)
Fixpoint process_notifications (callback : progress_callback)
    (p_logger : option logger) (logger_type : Z)
    (due : list arc_welder_progress) (final : arc_welder_progress)
    (text : string) : arc_welder_results :=
  match due with
  | [] => {| success := true; cancelled := false;
             message := text; progress := final |}
  | snapshot :: due' =>
      if callback snapshot p_logger logger_type
      then process_notifications callback p_logger logger_type due' final
             text
      else {| success := true; cancelled := true;
              message := text; progress := final |}
  end.

(** *** Vocabulary of the properties *)

(** The vector and the totals [update] works on for a given [is_source]. *)
Definition segments (is_source : bool)
    (s : source_target_segment_statistics) : list segment_statistic :=
  if is_source then source_segments s else target_segments s.

Definition total_count (is_source : bool)
    (s : source_target_segment_statistics) : Z :=
  if is_source then total_count_source s else total_count_target s.

Definition total_length (is_source : bool)
    (s : source_target_segment_statistics) : double :=
  if is_source then total_length_source s else total_length_target s.

(** Sum of the counts over all buckets of a histogram. *)
Definition sum_counts (stats : list segment_statistic) : Z :=
  foldr (fun stat acc => count stat + acc) 0 stats.

Definition self_consistent (s : source_target_segment_statistics) : Prop :=
  sum_counts (source_segments s) = total_count_source s
  /\ sum_counts (target_segments s) = total_count_target s.

(** The lengths [update] lets through its guard [if (length <= 0) return],
    for one side, in call order. *)
Definition counted_lengths (is_source : bool)
    (calls : list (double * bool)) : list double :=
  map fst
    (List.filter (fun call => negb (Double.leb (fst call) Double.zero)
                              && Bool.eqb (snd call) is_source) calls).

(** The lengths greater than 0, for one side, in call order. *)
Definition positive_lengths (is_source : bool)
    (calls : list (double * bool)) : list double :=
  map fst
    (List.filter (fun call => Double.gtb (fst call) Double.zero
                              && Bool.eqb (snd call) is_source) calls).

(** The running sum [total += length], each addition rounded to nearest. *)
Definition running_sum (lengths : list double) : double :=
  fold_left Double.add lengths Double.zero.


(** The fields of a result record, and the record with given fields. *)
Definition results_fields (r : arc_welder_results)
  : bool * bool * string * arc_welder_progress :=
  (success r, cancelled r, message r, progress r).

Definition results_of_fields
    (fields : bool * bool * string * arc_welder_progress)
  : arc_welder_results :=
  let '(s, c, m, p) := fields in
  {| success := s; cancelled := c; message := m; progress := p |}.
End ArcWelder.

(** *** The run of [process] *)

Section ProcessModel.
Context {logger : Type} `{utilities}.

(** Modelled from the spec: what one run of [arc_welder::process] meets,
    in source order; the body of [process] (arc_welder.cpp) is not among
    the sources.  Section 4.6: on every motion command in the source the
    source histogram is updated with the length of the segment, on every
    emitted motion in the target the target histogram.  Section 4.7: at
    most once every notification period the progress callback is invoked
    with a snapshot; [counters] stands for every field of that snapshot
    but the statistics.  Section 7: an input or output error is fatal. *)
Inductive pipeline_event : Type :=
| segment_measured (length : double) (is_source : bool)
| notification_due (counters : @arc_welder_progress logger)
| io_failure (text : string).

(** Modelled from the spec: the progress snapshot the pipeline takes, as
    far as the statistics go; the function that takes it ([get_progress_],
    arc_welder.cpp) is not among the sources.  Section 6: the snapshot
    includes the statistics; the other fields are those of [counters]. *)
Definition snapshot (counters : @arc_welder_progress logger)
    (statistics : @source_target_segment_statistics logger)
  : @arc_welder_progress logger :=
  {| percent_complete := percent_complete counters;
     seconds_elapsed := seconds_elapsed counters;
     seconds_remaining := seconds_remaining counters;
     gcodes_processed := gcodes_processed counters;
     lines_processed := lines_processed counters;
     points_compressed := points_compressed counters;
     arcs_created := arcs_created counters;
     compression_ratio := compression_ratio counters;
     compression_percent := compression_percent counters;
     source_file_position := source_file_position counters;
     source_file_size := source_file_size counters;
     target_file_size := target_file_size counters;
     segment_statistics := statistics |}.

(** Modelled from the spec: the main loop of [arc_welder::process] as far
    as the statistics, the notifications and the result record go; the
    body of [process] is not among the sources.  Section 4.6: a measured
    segment goes to [update].  Section 4.7: the callback returns a
    continue/cancel boolean; cancel causes the pipeline to stop and return
    a result marked cancelled=true.  Section 7: cancellation is a non-error
    termination with success=true; an input or output error is returned as
    success=false with the message populated.  Section 6: the result
    record holds the final progress snapshot, including the final
    statistics.  [results] is the record under construction; [final] and
    [text] stand for the counters and the message the pipeline has when it
    stops without an error. *)
Fixpoint process_events (callback : progress_callback)
    (p_logger : option logger) (logger_type : Z)
    (events : list pipeline_event) (final : @arc_welder_progress logger)
    (text : string) (results : @arc_welder_results logger)
    (statistics : @source_target_segment_statistics logger)
  : option (@arc_welder_results logger) :=
  match events with
  | [] =>
      Some {| success := true; cancelled := cancelled results;
              message := text; progress := snapshot final statistics |}
  | segment_measured length is_source :: events' =>
      statistics' ← update statistics length is_source;
      process_events callback p_logger logger_type events' final text
        results statistics'
  | notification_due counters :: events' =>
      if callback (snapshot counters statistics) p_logger logger_type
      then process_events callback p_logger logger_type events' final text
             results statistics
      else Some {| success := true; cancelled := true;
                   message := text; progress := snapshot final statistics |}
  | io_failure error :: _ =>
      Some {| success := false; cancelled := cancelled results;
              message := error; progress := snapshot final statistics |}
  end.

(** Modelled from the spec: [arc_welder::process], whose body is not among
    the sources.  The result record comes from the constructor of
    [arc_welder_results]; section 3: the statistics are two histograms
    over [segment_statistic_lengths] and exist for the duration of one
    [process()] run. *)
Definition process (callback : progress_callback)
    (p_logger : option logger) (logger_type : Z)
    (events : list pipeline_event) (final : @arc_welder_progress logger)
    (text : string) : option (@arc_welder_results logger) :=
  results ← arc_welder_results_new;
  statistics ← source_target_segment_statistics_new
                 segment_statistic_lengths segment_statistic_lengths_count
                 p_logger;
  process_events callback p_logger logger_type events final text results
    statistics.

(** The calls of [update] a sequence of events makes. *)
Definition measured (events : list pipeline_event) : list (double * bool) :=
  flat_map (fun event =>
              match event with
              | segment_measured length is_source => [(length, is_source)]
              | _ => []
              end) events.

(** How a run over [events] that processed [done] and left [rest] ended,
    for the result record [r] and the statistics [statistics] at the
    stop. *)
Definition stopped (callback : progress_callback)
    (p_logger : option logger) (logger_type : Z) (text : string)
    (rest : list pipeline_event)
    (statistics : @source_target_segment_statistics logger)
    (r : @arc_welder_results logger) : Prop :=
  (rest = [] /\ success r = true /\ cancelled r = false /\ message r = text)
  \/ (exists counters rest',
         rest = notification_due counters :: rest'
         /\ callback (snapshot counters statistics) p_logger logger_type
            = false
         /\ success r = true /\ cancelled r = true /\ message r = text)
  \/ (exists error rest',
         rest = io_failure error :: rest'
         /\ success r = false /\ cancelled r = false /\ message r = error).

(** No event of [done] stopped the run that started at [statistics]: none
    is an error, and every notification was answered with continue. *)
Fixpoint continued (callback : progress_callback)
    (p_logger : option logger) (logger_type : Z)
    (done : list pipeline_event)
    (statistics : @source_target_segment_statistics logger) : Prop :=
  match done with
  | [] => True
  | segment_measured length is_source :: done' =>
      exists statistics',
        update statistics length is_source = Some statistics'
        /\ continued callback p_logger logger_type done' statistics'
  | notification_due counters :: done' =>
      callback (snapshot counters statistics) p_logger logger_type = true
      /\ continued callback p_logger logger_type done' statistics
  | io_failure _ :: _ => False
  end.
End ProcessModel.

(** The exact values of the twelve thresholds. *)
Definition single_precision_values : list Q :=
  [ 8589935 # 4294967296; 5368709 # 1073741824; 5368709 # 536870912;
    13421773 # 268435456; 13421773 # 134217728; 1 # 2;
    1; 5; 10; 20; 50; 100 ]%Q.

(** An implementation of the [utilities] interface, to run the model on
    concrete inputs; what it returns is only ever stored in [max_width]. *)
Definition example_utilities : utilities :=
  {| get_num_digits := fun _ => 3 |}.

(** The exact value of a decimal literal (digits, decimal exponent). *)
Definition decimal_value (literal : Z * Z) : Q :=
  (inject_Z (fst literal) * 10 ^ snd literal)%Q.

(** [x] is a finite number whose exact value is [q]. *)
Definition has_value (x : double) (q : Q) : Prop :=
  exists v : Q, Double.to_Q x = Some v /\ (v == q)%Q.

(** Thresholds in ascending order, none below [lo] and none NaN. *)
Fixpoint increasing (lo : double) (thresholds : list double) : bool :=
  match thresholds with
  | [] => true
  | t :: thresholds' => Double.leb lo t && increasing t thresholds'
  end.

(** A histogram over the given thresholds, as the constructor lays it out
    and [update] keeps it: bucket [i] starts where bucket [i - 1] ends, the
    first starts at 0, the last is closed by [-1.0f], no count is negative. *)
Definition histogram_over (thresholds : list double)
    (stats : list segment_statistic) : Prop :=
  min_mm <$> stats = Double.zero :: thresholds
  /\ max_mm <$> stats = thresholds ++ [minus_one]
  /\ (forall (i : nat) (stat : segment_statistic),
        stats !! i = Some stat -> 0 <= count stat).

(** What the constructor establishes and every [update] keeps, for a
    statistics object built over the given thresholds. *)
Definition well_formed {logger : Type} (thresholds : list double)
    (s : @source_target_segment_statistics logger) : Prop :=
  histogram_over thresholds (source_segments s)
  /\ histogram_over thresholds (target_segments s)
  /\ self_consistent s.

(** The final threshold, [100.0f]. *)
Definition final_threshold : double :=
  Eval vm_compute in Double.of_float (Float.of_decimal 1000 (-1)).

(** *** Vocabulary of the further properties *)

(** The index the loop of [update] stops at in a histogram: the first
    bucket whose range contains [length], or the last bucket when none
    does (0 for an empty vector, where the loop does not run). *)
Fixpoint pick (length : double) (stats : list segment_statistic) : nat :=
  match stats with
  | [] => O
  | stat :: rest =>
      if in_range stat length || match rest with [] => true | _ => false end
      then O
      else S (pick length rest)
  end.

(** The calls of one side that pass the guard of [update] and whose length
    picks bucket [i] of the histogram [stats]. *)
Definition calls_picking (is_source : bool) (stats : list segment_statistic)
    (i : nat) (calls : list (double * bool)) : list (double * bool) :=
  List.filter (fun call => negb (Double.leb (fst call) Double.zero)
                           && Bool.eqb (snd call) is_source
                           && (pick (fst call) stats =? i)%nat) calls.

(** One more in the count of a bucket. *)
Definition bumped (stat : segment_statistic) : segment_statistic :=
  {| min_mm := min_mm stat; max_mm := max_mm stat; count := count stat + 1 |}.

(** ** Rendering: [std::stringstream] and the [str()] functions *)

(** [std::stringstream] as the statistics use it: the characters written
    so far and the formatting state that the manipulators set.  Inserting
    a value pads it with the fill character up to the field width (never
    cutting it) and resets the width to 0; padding goes after the text for
    [std::left], between sign and digits of a number for [std::internal],
    and before the text otherwise. *)
Module Stream.
Inductive adjustfield :=
  | adjust_unset | adjust_left | adjust_right | adjust_internal.

Record stringstream := {
  content : string;
  width : Z;
  fill : Ascii.ascii;
  adjust : adjustfield;
  fixed : bool;
  precision : Z
}.

(** A default-constructed stream. *)
Definition fresh : stringstream :=
  {| content := EmptyString; width := 0; fill := " "%char;
     adjust := adjust_unset; fixed := false; precision := 6 |}.

Definition setw (n : Z) (os : stringstream) : stringstream :=
  {| content := content os; width := n; fill := fill os;
     adjust := adjust os; fixed := fixed os; precision := precision os |}.

Definition setfill (c : Ascii.ascii) (os : stringstream) : stringstream :=
  {| content := content os; width := width os; fill := c;
     adjust := adjust os; fixed := fixed os; precision := precision os |}.

Definition setadjust (a : adjustfield) (os : stringstream) : stringstream :=
  {| content := content os; width := width os; fill := fill os;
     adjust := a; fixed := fixed os; precision := precision os |}.

Definition right : stringstream -> stringstream := setadjust adjust_right.
Definition internal : stringstream -> stringstream :=
  setadjust adjust_internal.

(** [std::fixed] *)
Definition set_fixed (os : stringstream) : stringstream :=
  {| content := content os; width := width os; fill := fill os;
     adjust := adjust os; fixed := true; precision := precision os |}.

Definition setprecision (n : Z) (os : stringstream) : stringstream :=
  {| content := content os; width := width os; fill := fill os;
     adjust := adjust os; fixed := fixed os; precision := n |}.

(** [os.str(text)]: replace the characters, keep the formatting state. *)
Definition set_str (text : string) (os : stringstream) : stringstream :=
  {| content := text; width := width os; fill := fill os;
     adjust := adjust os; fixed := fixed os; precision := precision os |}.

Fixpoint fill_chars (c : Ascii.ascii) (n : nat) : string :=
  match n with
  | O => EmptyString
  | S n' => String c (fill_chars c n')
  end.

(** The fill characters a value of the given length needs. *)
Definition padding (os : stringstream) (text : string) : string :=
  fill_chars (fill os) (Z.to_nat (width os - Z.of_nat (String.length text))).

Definition write (text : string) (os : stringstream) : stringstream :=
  {| content := content os +:+ text; width := 0; fill := fill os;
     adjust := adjust os; fixed := fixed os; precision := precision os |}.

(** [os << text] for a [std::string] or a character string. *)
Definition put (text : string) (os : stringstream) : stringstream :=
  match adjust os with
  | adjust_left => write (text +:+ padding os text) os
  | _ => write (padding os text +:+ text) os
  end.

(** [os << n] for a number whose digits, sign included, are [text]. *)
Definition put_number (text : string) (os : stringstream) : stringstream :=
  match adjust os, text with
  | adjust_left, _ => write (text +:+ padding os text) os
  | adjust_internal, String "-"%char digits =>
      write (String "-"%char (padding os text +:+ digits)) os
  | adjust_internal, String "+"%char digits =>
      write (String "+"%char (padding os text +:+ digits)) os
  | _, _ => write (padding os text +:+ text) os
  end.

(** [os << n] for an [int]: decimal digits, [-] for a negative number. *)
Definition put_int (n : Z) : stringstream -> stringstream :=
  put_number (pretty n).
End Stream.

(** The digits [std::num_put] produces for a [double], given the
    [std::fixed] flag and the precision of the stream. *)
Class num_put := { format_double : bool -> Z -> double -> string }.

(** [os << x] for a [double]. *)
Definition put_double `{num_put} (x : double) (os : Stream.stringstream)
  : Stream.stringstream :=
  Stream.put_number (format_double (Stream.fixed os) (Stream.precision os) x)
    os.

(** The functions of [utilities.h] that the [str()] functions call:
    [center(text, width)], [get_percent_change_string(v1, v2, precision)],
    [get_num_digits] at an [int] argument and
    [is_equal(x, y, tolerance)]. *)
Class utilities_text := {
  center : string -> Z -> string;
  get_percent_change_string : Z -> Z -> Z -> string;
  get_num_digits_int : Z -> Z;
  is_equal : double -> double -> double -> bool
}.

(** Arithmetic on [int] other than [++]: a result outside the range of
    [int] is undefined behaviour ([None]). *)
Module IntArith.
Definition INT_MIN : Z := -2147483648.

Definition check (r : Z) : option Z :=
  if (INT_MIN <=? r) && (r <=? Int.INT_MAX) then Some r else None.

Definition add (x y : Z) : option Z := check (x + y).
Definition sub (x y : Z) : option Z := check (x - y).
End IntArith.

(** The end-of-line character. *)
Definition newline : string := String "010"%char EmptyString.

Declare Scope stream_scope.
Delimit Scope stream_scope with stream.
Notation "os << op" := (op os)
  (at level 50, left associativity, only parsing) : stream_scope.

Section Rendering.
Context {logger : Type} `{utilities_text} `{num_put}.

Implicit Types (s : @source_target_segment_statistics logger).

Local Open Scope stream_scope.

(** [source_target_segment_statistics::str()], first loop: the largest
    count of the table.  [target_segments[index]] is read at every index of
    [source_segments]; past the end of the target vector that is undefined
    behaviour ([None]). *)
Fixpoint max_count_loop s (n index : nat) (max_count : Z) : option Z :=
  match n with
  | O => Some max_count
  | S n' =>
      match source_segments s !! index with
      | None => Some max_count
      | Some source =>
          target ← target_segments s !! index;
          let source_count := count source in
          let target_count := count target in
          let max_count :=
            if max_count <? source_count then source_count else max_count in
          let max_count :=
            if max_count <? target_count then target_count else max_count in
          max_count_loop s n' (S index) max_count
      end
  end.

(** [str()], the column sizes: [mm_col_size], [count_col_size] and
    [table_width], in this order. *)
Definition str_layout s : option (Z * Z * Z) :=
  let min_column_size := 8 in
  mm_col_size ← IntArith.add (max_width s) (max_precision s);
  mm_col_size ← IntArith.add mm_col_size 2;
  let min_max_label_col_size := 4 in
  let percent_col_size := 9 in
  max_count ← max_count_loop s (length (source_segments s)) 0 0;
  let count_col_size := get_num_digits_int max_count in
  let count_col_size :=
    if count_col_size <? min_column_size then min_column_size
    else count_col_size in
  mm_col_size ←
    (if 0 <? max_precision s then Int.incr mm_col_size else Some mm_col_size);
  let mm_col_size :=
    if mm_col_size <? min_column_size then min_column_size
    else mm_col_size in
  t ← IntArith.add mm_col_size min_max_label_col_size;
  t ← IntArith.add t mm_col_size;
  t ← IntArith.add t count_col_size;
  t ← IntArith.add t count_col_size;
  table_width ← IntArith.add t percent_col_size;
  Some (mm_col_size, count_col_size, table_width).

(** [str()], the body of the second loop: one row of the table, written
    to [output_stream] with the help of [format_stream]. *)
Definition str_row s (mm_col_size count_col_size : Z) (index : nat)
    (source target : segment_statistic)
    (streams : Stream.stringstream * Stream.stringstream)
  : Stream.stringstream * Stream.stringstream :=
  let '(output_stream, format_stream) := streams in
  let min_max_label_col_size := 4 in
  let percent_col_size := 9 in
  let min_mm_ := min_mm source in
  let max_mm_ := max_mm source in
  let source_count := count source in
  let target_count := count target in
  let percent_change_string :=
    get_percent_change_string source_count target_count 1 in
  let format_stream := format_stream << Stream.set_str EmptyString in
  let format_stream :=
    format_stream << Stream.set_fixed
                  << Stream.setprecision (max_precision s)
                  << put_double min_mm_ << Stream.put "mm" in
  let min_mm_string := Stream.content format_stream in
  let format_stream := format_stream << Stream.set_str EmptyString in
  let format_stream :=
    format_stream << Stream.set_fixed
                  << Stream.setprecision (max_precision s)
                  << put_double max_mm_ << Stream.put "mm" in
  let max_mm_string := Stream.content format_stream in
  let format_stream := format_stream << Stream.set_str EmptyString in
  let format_stream :=
    format_stream << Stream.set_fixed << Stream.setprecision 0
                  << Stream.put_int source_count in
  let source_count_string := Stream.content format_stream in
  let format_stream := format_stream << Stream.set_str EmptyString in
  let format_stream :=
    format_stream << Stream.set_fixed << Stream.setprecision 0
                  << Stream.put_int target_count in
  let target_count_string := Stream.content format_stream in
  let output_stream :=
    if (index =? length (source_segments s) - 1)%nat
    then
      let output_stream :=
        output_stream << Stream.setw mm_col_size << Stream.internal
                      << Stream.put EmptyString in
      let output_stream :=
        output_stream << Stream.setw min_max_label_col_size
                      << Stream.put " >= " in
      output_stream << Stream.setw mm_col_size << Stream.internal
                    << Stream.put min_mm_string
    else
      let output_stream :=
        output_stream << Stream.setw mm_col_size << Stream.internal
                      << Stream.put min_mm_string in
      let output_stream :=
        output_stream << Stream.setw min_max_label_col_size
                      << Stream.put " to " in
      output_stream << Stream.setw mm_col_size << Stream.internal
                    << Stream.put max_mm_string in
  let output_stream :=
    output_stream << Stream.setw count_col_size
                  << Stream.put source_count_string in
  let output_stream :=
    output_stream << Stream.setw count_col_size
                  << Stream.put target_count_string in
  let output_stream :=
    output_stream << Stream.setw percent_col_size
                  << Stream.put percent_change_string in
  let output_stream := output_stream << Stream.put newline in
  (output_stream, format_stream).

(** [str()], the second loop. *)
Fixpoint str_rows s (mm_col_size count_col_size : Z) (n index : nat)
    (streams : Stream.stringstream * Stream.stringstream)
  : option (Stream.stringstream * Stream.stringstream) :=
  match n with
  | O => Some streams
  | S n' =>
      match source_segments s !! index with
      | None => Some streams
      | Some source =>
          target ← target_segments s !! index;
          str_rows s mm_col_size count_col_size n' (S index)
            (str_row s mm_col_size count_col_size index source target
               streams)
      end
  end.

(** [source_target_segment_statistics::str()] *)
Definition source_target_segment_statistics_str s : option string :=
  let output_stream := Stream.fresh in
  let format_stream := Stream.fresh in
  let min_max_label_col_size := 4 in
  let percent_col_size := 9 in
  let totals_row_label_size := 22 in
  layout ← str_layout s;
  let '(mm_col_size, count_col_size, table_width) := layout in
  let output_stream :=
    output_stream << Stream.put (center "Min" mm_col_size) in
  let output_stream :=
    output_stream << Stream.setw min_max_label_col_size
                  << Stream.put EmptyString in
  let output_stream :=
    output_stream << Stream.put (center "Max" mm_col_size) in
  let output_stream :=
    output_stream << Stream.setw count_col_size << Stream.right
                  << Stream.put "Source" in
  let output_stream :=
    output_stream << Stream.setw count_col_size << Stream.right
                  << Stream.put "Target" in
  let output_stream :=
    output_stream << Stream.setw percent_col_size << Stream.right
                  << Stream.put "Change" in
  let output_stream := output_stream << Stream.put newline in
  let output_stream :=
    output_stream << Stream.setw table_width << Stream.setfill "-"%char
                  << Stream.put EmptyString << Stream.setfill " "%char
                  << Stream.put newline in
  let output_stream :=
    output_stream << Stream.set_fixed
                  << Stream.setprecision (max_precision s) in
  streams ← str_rows s mm_col_size count_col_size
              (length (source_segments s)) 0 (output_stream, format_stream);
  let '(output_stream, format_stream) := streams in
  let output_stream :=
    output_stream << Stream.setw table_width << Stream.setfill "-"%char
                  << Stream.put EmptyString << Stream.setfill " "%char
                  << Stream.put newline in
  value_width ← IntArith.sub table_width totals_row_label_size;
  let '(output_stream, format_stream) :=
    if is_equal (total_length_source s) (total_length_target s)
         (Double.of_decimal 1 (-3))
    then
      let format_stream := format_stream << Stream.set_str EmptyString in
      let format_stream :=
        format_stream << Stream.set_fixed
                      << Stream.setprecision (max_precision s)
                      << put_double (total_length_source s)
                      << Stream.put "mm" in
      let total_distance_string := Stream.content format_stream in
      let output_stream :=
        output_stream << Stream.setw totals_row_label_size << Stream.right
                      << Stream.put "Total distance:" in
      let output_stream :=
        output_stream << Stream.setw value_width << Stream.setfill "."%char
                      << Stream.right << Stream.put total_distance_string
                      << Stream.put newline << Stream.setfill " "%char in
      (output_stream, format_stream)
    else
      let format_stream := format_stream << Stream.set_str EmptyString in
      let format_stream :=
        format_stream << Stream.set_fixed
                      << Stream.setprecision (max_precision s)
                      << put_double (total_length_source s)
                      << Stream.put "mm" in
      let total_source_distance_string := Stream.content format_stream in
      let output_stream :=
        output_stream << Stream.setw totals_row_label_size << Stream.right
                      << Stream.put "Total distance source:" in
      let output_stream :=
        output_stream << Stream.setw value_width << Stream.setfill "."%char
                      << Stream.right
                      << Stream.put total_source_distance_string
                      << Stream.put newline << Stream.setfill " "%char in
      let format_stream := format_stream << Stream.set_str EmptyString in
      let format_stream :=
        format_stream << Stream.set_fixed
                      << Stream.setprecision (max_precision s)
                      << put_double (total_length_target s)
                      << Stream.put "mm" in
      let total_target_distance_string := Stream.content format_stream in
      let output_stream :=
        output_stream << Stream.setw totals_row_label_size << Stream.right
                      << Stream.put "Total distance target:" in
      let output_stream :=
        output_stream << Stream.setw value_width << Stream.setfill "."%char
                      << Stream.right
                      << Stream.put total_target_distance_string
                      << Stream.put newline << Stream.setfill " "%char in
      (output_stream, format_stream) in
  let output_stream :=
    output_stream << Stream.setprecision 0
                  << Stream.setw totals_row_label_size << Stream.right
                  << Stream.put "Total count source:" in
  let output_stream :=
    output_stream << Stream.setw value_width << Stream.setfill "."%char
                  << Stream.right << Stream.put_int (total_count_source s)
                  << Stream.put newline << Stream.setfill " "%char in
  let output_stream :=
    output_stream << Stream.setw totals_row_label_size << Stream.right
                  << Stream.put "Total count target:" in
  let output_stream :=
    output_stream << Stream.setw value_width << Stream.setfill "."%char
                  << Stream.right << Stream.put_int (total_count_target s)
                  << Stream.put newline << Stream.setfill " "%char in
  let total_percent_change_string :=
    get_percent_change_string (total_count_source s) (total_count_target s)
      1 in
  let output_stream :=
    output_stream << Stream.setw totals_row_label_size << Stream.right
                  << Stream.put "Total percent change:" in
  let output_stream :=
    output_stream << Stream.setw value_width << Stream.setfill "."%char
                  << Stream.right << Stream.put total_percent_change_string
                  << Stream.setfill " "%char in
  let output_string := Stream.content output_stream in
  Some output_string.
End Rendering.

Section ProgressRendering.
Context {logger : Type} `{utilities_text} `{num_put}.

Local Open Scope stream_scope.

(** [arc_welder_progress::detail_str()] *)
Definition arc_welder_progress_detail_str (p : @arc_welder_progress logger)
  : option string :=
  let stream := Stream.fresh in
  text ← source_target_segment_statistics_str (segment_statistics p);
  let stream :=
    stream << Stream.put newline
           << Stream.put "Extrusion/Retraction Counts"
           << Stream.put newline << Stream.put text << Stream.put newline in
  Some (Stream.content stream).
End ProgressRendering.

(** *** Vocabulary of the properties of [str()] *)

(** A text at the right of a field: fill characters up to the width of the
    field, then the text. *)
Definition cell (width : Z) (c : Ascii.ascii) (text : string) : string :=
  Stream.fill_chars c (Z.to_nat (width - Z.of_nat (String.length text)))
  +:+ text.

(** A length as the table shows it. *)
Definition length_text `{num_put} (precision : Z) (x : double) : string :=
  format_double true precision x +:+ "mm".

(** Lines written one after the other, each followed by the end-of-line
    character. *)
Definition lines_text (lines : list string) : string :=
  foldr (fun line text => line +:+ newline +:+ text) EmptyString lines.

(** The largest count the first loop of [str()] finds, starting from
    [max_count], when both vectors hold a bucket at every index it reads. *)
Fixpoint largest_count (sources targets : list segment_statistic)
    (max_count : Z) : Z :=
  match sources, targets with
  | source :: sources', target :: targets' =>
      largest_count sources' targets'
        (Z.max (Z.max max_count (count source)) (count target))
  | _, _ => max_count
  end.

(** The arithmetic of the column sizes of [str()] alone, for a given
    largest count: what [str_layout] computes once the first loop has
    run, with no read of a vector. *)
Definition column_sizes `{utilities_text}
    (max_width max_precision max_count : Z) : option (Z * Z * Z) :=
  mm_col_size ← IntArith.add max_width max_precision;
  mm_col_size ← IntArith.add mm_col_size 2;
  let count_col_size := get_num_digits_int max_count in
  let count_col_size := if count_col_size <? 8 then 8 else count_col_size in
  mm_col_size ←
    (if 0 <? max_precision then Int.incr mm_col_size else Some mm_col_size);
  let mm_col_size := if mm_col_size <? 8 then 8 else mm_col_size in
  t ← IntArith.add mm_col_size 4;
  t ← IntArith.add t mm_col_size;
  t ← IntArith.add t count_col_size;
  t ← IntArith.add t count_col_size;
  table_width ← IntArith.add t 9;
  Some (mm_col_size, count_col_size, table_width).

Section TableVocabulary.
Context {logger : Type} `{utilities_text} `{num_put}.

Implicit Types (s : @source_target_segment_statistics logger).

(** The line of the table for the buckets at [index]. *)
Definition row_line s (mm_col_size count_col_size : Z) (index : nat)
    (source target : segment_statistic) : string :=
  (if (index =? length (source_segments s) - 1)%nat
   then cell mm_col_size " " EmptyString +:+ cell 4 " " " >= "
        +:+ cell mm_col_size " "
              (length_text (max_precision s) (min_mm source))
   else cell mm_col_size " " (length_text (max_precision s) (min_mm source))
        +:+ cell 4 " " " to "
        +:+ cell mm_col_size " "
              (length_text (max_precision s) (max_mm source)))
  +:+ cell count_col_size " " (pretty (count source))
  +:+ cell count_col_size " " (pretty (count target))
  +:+ cell 9 " "
        (get_percent_change_string (count source) (count target) 1).

(** The lines of the table for the buckets from [index] on. *)
Fixpoint row_lines s (mm_col_size count_col_size : Z) (index : nat)
    (sources targets : list segment_statistic) : list string :=
  match sources, targets with
  | source :: sources', target :: targets' =>
      row_line s mm_col_size count_col_size index source target
      :: row_lines s mm_col_size count_col_size (S index) sources' targets'
  | _, _ => []
  end.

Definition header_line (mm_col_size count_col_size : Z) : string :=
  center "Min" mm_col_size +:+ cell 4 " " EmptyString
  +:+ center "Max" mm_col_size
  +:+ cell count_col_size " " "Source"
  +:+ cell count_col_size " " "Target"
  +:+ cell 9 " " "Change".

Definition rule_line (table_width : Z) : string :=
  cell table_width "-" EmptyString.

Definition total_line (table_width : Z) (label value : string) : string :=
  cell 22 " " label +:+ cell (table_width - 22) "." value.

(** The lines that report the total distance: one when [is_equal] finds
    the two totals equal, else two. *)
Definition distance_lines s (table_width : Z) : list string :=
  if is_equal (total_length_source s) (total_length_target s)
       (Double.of_decimal 1 (-3))
  then [total_line table_width "Total distance:"
          (length_text (max_precision s) (total_length_source s))]
  else [total_line table_width "Total distance source:"
          (length_text (max_precision s) (total_length_source s));
        total_line table_width "Total distance target:"
          (length_text (max_precision s) (total_length_target s))].

(** All the lines of the table. *)
Definition table_lines s (mm_col_size count_col_size table_width : Z)
  : list string :=
  [header_line mm_col_size count_col_size; rule_line table_width]
  ++ row_lines s mm_col_size count_col_size 0 (source_segments s)
       (target_segments s)
  ++ [rule_line table_width]
  ++ distance_lines s table_width
  ++ [total_line table_width "Total count source:"
        (pretty (total_count_source s));
      total_line table_width "Total count target:"
        (pretty (total_count_target s));
      total_line table_width "Total percent change:"
        (get_percent_change_string (total_count_source s)
           (total_count_target s) 1)].

(** Every text of the table is at most as long as its column is wide, and
    [center] returns a text of the width it is given. *)
Definition cells_fit s (mm_col_size count_col_size table_width : Z) : Prop :=
  String.length (center "Min" mm_col_size) = Z.to_nat mm_col_size
  /\ String.length (center "Max" mm_col_size) = Z.to_nat mm_col_size
  /\ (forall (index : nat) (source target : segment_statistic),
        source_segments s !! index = Some source ->
        target_segments s !! index = Some target ->
        Z.of_nat (String.length
                    (length_text (max_precision s) (min_mm source)))
        <= mm_col_size
        /\ (index <> (length (source_segments s) - 1)%nat ->
            Z.of_nat (String.length
                        (length_text (max_precision s) (max_mm source)))
            <= mm_col_size)
        /\ Z.of_nat (String.length (pretty (count source))) <= count_col_size
        /\ Z.of_nat (String.length (pretty (count target))) <= count_col_size
        /\ Z.of_nat (String.length
                       (get_percent_change_string (count source)
                          (count target) 1)) <= 9)
  /\ Z.of_nat (String.length
                 (length_text (max_precision s) (total_length_source s)))
     <= table_width - 22
  /\ Z.of_nat (String.length
                 (length_text (max_precision s) (total_length_target s)))
     <= table_width - 22
  /\ Z.of_nat (String.length (pretty (total_count_source s)))
     <= table_width - 22
  /\ Z.of_nat (String.length (pretty (total_count_target s)))
     <= table_width - 22
  /\ Z.of_nat (String.length
                 (get_percent_change_string (total_count_source s)
                    (total_count_target s) 1)) <= table_width - 22.
End TableVocabulary.

(** Implementations of the two interfaces above, to run [str()] on
    concrete inputs. *)
Definition example_center (text : string) (width : Z) : string :=
  let room := Z.to_nat (width - Z.of_nat (String.length text)) in
  Stream.fill_chars " "%char (room / 2) +:+ text
  +:+ Stream.fill_chars " "%char (room - room / 2).

Definition example_utilities_text : utilities_text :=
  {| center := example_center;
     get_percent_change_string := fun v1 v2 _ =>
       if v1 =? 0 then "0.0%"
       else pretty ((v2 - v1) * 100 / v1) +:+ ".0%";
     get_num_digits_int := fun n =>
       Z.of_nat (String.length (pretty (Z.abs n)));
     is_equal := fun x y tolerance =>
       SFltb (SFabs (SFsub Double.prec Double.emax x y)) tolerance |}.

(** Digits in fixed notation, as [%.*f] prints them: a finite number is
    rounded to the nearest multiple of [10^-precision] (ties to even) and
    keeps its sign, also when it is a zero or rounds to one; a negative
    precision stands for 6. *)
Definition example_fixed_digits (precision : Z) (x : double) : string :=
  match x with
  | S754_nan => "nan"
  | S754_infinity negative => if negative then "-inf" else "inf"
  | S754_zero negative | S754_finite negative _ _ =>
      match Double.to_Q x with
      | None => "nan"
      | Some q =>
          let p := if precision <? 0 then 6 else precision in
          let scaled := (Qabs q * inject_Z (10 ^ p))%Q in
          let twice := (2 * Qnum scaled) / Zpos (Qden scaled) in
          let exact := (2 * Qnum scaled) mod Zpos (Qden scaled) =? 0 in
          let n := if Z.even twice then twice / 2
                   else if exact && Z.even (twice / 2) then twice / 2
                   else twice / 2 + 1 in
          let whole := pretty (n / 10 ^ p) in
          let fraction := pretty (n mod 10 ^ p) in
          let sign := if negative then "-" else EmptyString in
          if p =? 0 then sign +:+ whole
          else sign +:+ whole +:+ "."
               +:+ Stream.fill_chars "0"%char
                     (Z.to_nat p - String.length fraction)
               +:+ fraction
      end
  end.

(** The digits of a [double] on a stream in fixed notation, the only
    notation in which [str()] prints one. *)
Definition example_num_put : num_put :=
  {| format_double := fun _ precision x => example_fixed_digits precision x |}.

(** * Properties *)

(** ** Order of IEEE 754 numbers *)

Module DoubleFacts.
Import Double.

Ltac compare_cases :=
  repeat match goal with
    | |- context [Pos.compare_cont Eq ?a ?b] =>
        change (Pos.compare_cont Eq a b) with (Pos.compare a b);
        destruct (Pos.compare_spec a b)
    | |- context [Z.compare ?a ?b] => destruct (Z.compare_spec a b)
    | H : context [Pos.compare_cont Eq ?a ?b] |- _ =>
        change (Pos.compare_cont Eq a b) with (Pos.compare a b) in H;
        destruct (Pos.compare_spec a b)
    | H : context [Z.compare ?a ?b] |- _ => destruct (Z.compare_spec a b)
    end.

Ltac order_cases :=
  unfold gtb, geb, ltb, leb, SFltb, SFleb, SFcompare in *;
  repeat match goal with
    | x : double |- _ => destruct x as [[]|[]| |[] ? ?]
    | x : spec_float |- _ => destruct x as [[]|[]| |[] ? ?]
    end;
  simpl in *; try discriminate; try reflexivity;
  compare_cases; simpl in *; try discriminate; try reflexivity;
  try (exfalso; lia).

Lemma ltb_leb (x y : double) : ltb x y = true -> leb x y = true.
Proof. intros Hxy. order_cases. Qed.

Lemma ltb_not_leb (x y : double) : ltb x y = true -> leb y x = false.
Proof. intros Hxy. order_cases. Qed.

Lemma leb_not_ltb (x y : double) : leb x y = true -> ltb y x = false.
Proof. intros Hxy. order_cases. Qed.

Lemma ltb_not_nan_l (x y : double) : ltb x y = true -> is_nan x = false.
Proof. intros Hxy. order_cases. Qed.

Lemma ltb_not_nan_r (x y : double) : ltb x y = true -> is_nan y = false.
Proof. intros Hxy. order_cases. Qed.

Lemma leb_refl (x : double) : is_nan x = false -> leb x x = true.
Proof. intros Hx. order_cases. Qed.

Lemma leb_not_nan_r (x y : double) : leb x y = true -> is_nan y = false.
Proof. intros Hxy. order_cases. Qed.

Lemma leb_not_nan_l (x y : double) : leb x y = true -> is_nan x = false.
Proof. intros Hxy. order_cases. Qed.

(** Two numbers that are not NaN are comparable. *)
Lemma not_ltb_leb (x y : double) :
  is_nan x = false -> is_nan y = false -> ltb x y = false -> leb y x = true.
Proof. intros Hx Hy Hxy. order_cases. Qed.

Lemma ltb_leb_trans (x y z : double) :
  ltb x y = true -> leb y z = true -> ltb x z = true.
Proof. intros Hxy Hyz. order_cases. Qed.

Lemma leb_trans (x y z : double) :
  leb x y = true -> leb y z = true -> leb x z = true.
Proof. intros Hxy Hyz. order_cases. Qed.

(** Off NaN the guard of [update] is the negation of [length > 0]. *)
Lemma leb_zero_gtb (x : double) :
  is_nan x = false -> negb (leb x zero) = gtb x zero.
Proof. intros Hx. order_cases. Qed.
End DoubleFacts.

(** ** The histogram loop *)

Lemma incr_Some (x c : Z) :
  Int.incr x = Some c <-> x < Int.INT_MAX /\ c = x + 1.
Proof.
  unfold Int.incr. destruct (Z.ltb_spec x Int.INT_MAX); split.
  - intros [= <-]. lia.
  - intros [_ ->]. reflexivity.
  - discriminate.
  - lia.
Qed.

Lemma count_incr_Some (stat stat' : segment_statistic) :
  count_incr stat = Some stat' <->
  count stat < Int.INT_MAX /\
  stat' = {| min_mm := min_mm stat; max_mm := max_mm stat;
             count := count stat + 1 |}.
Proof.
  unfold count_incr. destruct (Int.incr (count stat)) as [c|] eqn:Hc; simpl.
  - apply incr_Some in Hc as [Hlt ->]. split.
    + intros [= <-]. auto.
    + intros [_ ->]. reflexivity.
  - split; [discriminate|]. intros [Hlt _].
    assert (Hsome : Int.incr (count stat) = Some (count stat + 1))
      by (apply incr_Some; auto).
    congruence.
Qed.

Section HistogramFacts.
Implicit Types (stats : list segment_statistic) (len : double).

Lemma sum_counts_insert stats (i : nat) (stat stat' : segment_statistic) :
  stats !! i = Some stat ->
  sum_counts (<[i := stat']> stats)
  = sum_counts stats - count stat + count stat'.
Proof.
  revert i. induction stats as [|a stats IH]; intros [|i] Hi;
    simpl in *; try discriminate.
  - injection Hi as ->. lia.
  - rewrite (IH i Hi). lia.
Qed.

Lemma sum_counts_bound stats (i : nat) (stat : segment_statistic) :
  (forall j st, stats !! j = Some st -> 0 <= count st) ->
  stats !! i = Some stat -> count stat <= sum_counts stats.
Proof.
  revert i. induction stats as [|a stats IH]; intros [|i] Hpos Hi;
    simpl in *; try discriminate.
  - injection Hi as ->.
    assert (0 <= sum_counts stats); [|lia].
    clear IH. induction stats as [|b stats IH]; simpl; [lia|].
    pose proof (Hpos 1%nat b eq_refl).
    assert (0 <= sum_counts stats); [|lia].
    apply IH. intros [|j] st Hj;
      [injection Hj as <-; apply (Hpos 0%nat); auto|].
    apply (Hpos (S (S j))). exact Hj.
  - pose proof (Hpos 0%nat a eq_refl).
    assert (count stat <= sum_counts stats); [|lia].
    apply (IH i); [|exact Hi]. intros j st Hj. apply (Hpos (S j)). exact Hj.
Qed.

(** What a completed run of the loop did: it stopped at the first bucket
    [i] from [index] on that contains [len] or is the last one, and added
    one to the count of that bucket only. *)
Lemma update_loop_Some len (n index : nat) stats stats' :
  update_loop len n index stats = Some stats' ->
  (index < length stats)%nat -> (length stats <= index + n)%nat ->
  exists (i : nat) (stat : segment_statistic),
    (index <= i)%nat /\ stats !! i = Some stat /\
    count stat < Int.INT_MAX /\
    stats' = <[i := {| min_mm := min_mm stat; max_mm := max_mm stat;
                       count := count stat + 1 |}]> stats /\
    (in_range stat len = true \/ (i + 1)%nat = length stats) /\
    (forall (j : nat) (stat' : segment_statistic),
        (index <= j < i)%nat -> stats !! j = Some stat' ->
        in_range stat' len = false).
Proof.
  revert index. induction n as [|n IH]; intros index Hrun Hlt Hfuel.
  - lia.
  - simpl in Hrun.
    destruct (stats !! index) as [stat|] eqn:Hstat.
    2:{ apply lookup_ge_None in Hstat. lia. }
    destruct (in_range stat len || (index + 1 =? length stats)%nat)
      eqn:Hstop.
    + destruct (count_incr stat) as [st'|] eqn:Hincr; simpl in Hrun;
        [|discriminate].
      injection Hrun as <-. apply count_incr_Some in Hincr as [Hc ->].
      exists index, stat. repeat split; auto.
      * apply orb_true_iff in Hstop as [Hin|Hlast]; [left; exact Hin|].
        right. apply Nat.eqb_eq in Hlast. exact Hlast.
      * intros j stat' Hj. lia.
    + apply orb_false_iff in Hstop as [Hin Hlast].
      apply Nat.eqb_neq in Hlast.
      destruct (IH (S index) Hrun)
        as (i & st & Hi & Hst & Hc & -> & Hwhy & Hbefore); [lia|lia|].
      exists i, st. repeat split; auto; try lia.
      intros j stat' Hj Hstat'.
      destruct (decide (j = index)) as [->|Hne].
      * rewrite Hstat in Hstat'. injection Hstat' as <-. exact Hin.
      * apply (Hbefore j); [lia|exact Hstat'].
Qed.

(** The loop completes as long as no bucket count sits at [INT_MAX]. *)
Lemma update_loop_is_Some len (n index : nat) stats :
  (forall (i : nat) (stat : segment_statistic),
      stats !! i = Some stat -> count stat < Int.INT_MAX) ->
  is_Some (update_loop len n index stats).
Proof.
  intros Hbound. revert index. induction n as [|n IH]; intros index; simpl.
  - eauto.
  - destruct (stats !! index) as [stat|] eqn:Hstat; [|eauto].
    destruct (in_range stat len || (index + 1 =? length stats)%nat);
      [|apply IH].
    destruct (count_incr stat) as [st'|] eqn:Hincr; simpl; [eauto|].
    assert (Hsome : count_incr stat = Some
              {| min_mm := min_mm stat; max_mm := max_mm stat;
                 count := count stat + 1 |}).
    { apply count_incr_Some. split; [|reflexivity].
      apply (Hbound index). exact Hstat. }
    congruence.
Qed.
End HistogramFacts.

(** ** Which bucket the loop picks when the thresholds ascend *)

Section AscendingThresholds.
Import Double DoubleFacts.

Variable thresholds : list double.
Hypothesis thresholds_increasing : increasing zero thresholds = true.

Lemma increasing_lookup (lo : double) (ts : list double) (i : nat)
    (t : double) :
  increasing lo ts = true -> ts !! i = Some t ->
  leb lo t = true /\ is_nan t = false.
Proof.
  revert lo i. induction ts as [|a ts IH]; intros lo [|i] Hinc Hi;
    simpl in *; try discriminate; apply andb_true_iff in Hinc as [Hlo Hts].
  - injection Hi as <-. split; [exact Hlo|].
    apply (leb_not_nan_r lo). exact Hlo.
  - destruct (IH a i Hts Hi) as [Hat Hnan]. split; [|exact Hnan].
    apply (leb_trans lo a t); assumption.
Qed.

Lemma increasing_monotone (lo : double) (ts : list double) (i j : nat)
    (a b : double) :
  increasing lo ts = true -> (i <= j)%nat ->
  ts !! i = Some a -> ts !! j = Some b -> leb a b = true.
Proof.
  revert lo i j. induction ts as [|c ts IH]; intros lo i j Hinc Hij Hi Hj;
    [destruct i; discriminate|].
  simpl in Hinc. apply andb_true_iff in Hinc as [Hlo Hts].
  destruct i as [|i], j as [|j]; simpl in *; try lia.
  - injection Hi as <-. injection Hj as <-.
    apply leb_refl. apply (leb_not_nan_r lo). exact Hlo.
  - injection Hi as <-.
    destruct (increasing_lookup c ts j b Hts Hj) as [Hcb _]. exact Hcb.
  - apply (IH c i j); auto. lia.
Qed.

Variable stats : list segment_statistic.
Hypothesis stats_min : min_mm <$> stats = zero :: thresholds.
Hypothesis stats_max : max_mm <$> stats = thresholds ++ [minus_one].

Variable len : double.
Hypothesis len_positive : gtb len zero = true.

Lemma stats_length : length stats = S (length thresholds).
Proof using stats_min.
  rewrite <- (length_fmap min_mm), stats_min. reflexivity.
Qed.

Lemma stats_lookup_min (i : nat) (stat : segment_statistic) :
  stats !! i = Some stat -> (zero :: thresholds) !! i = Some (min_mm stat).
Proof using stats_min.
  intros Hi. rewrite <- stats_min, list_lookup_fmap, Hi. reflexivity.
Qed.

Lemma stats_lookup_max (i : nat) (stat : segment_statistic) :
  stats !! i = Some stat ->
  (thresholds ++ [minus_one]) !! i = Some (max_mm stat).
Proof using stats_max.
  intros Hi. rewrite <- stats_max, list_lookup_fmap, Hi. reflexivity.
Qed.

(** Bucket [i], [i] below the number of thresholds, ends at threshold
    [i], where bucket [i + 1] starts. *)
Lemma stats_boundary (i : nat) (stat next : segment_statistic) :
  stats !! i = Some stat -> stats !! S i = Some next ->
  thresholds !! i = Some (max_mm stat) /\ min_mm next = max_mm stat.
Proof using stats_min stats_max.
  intros Hi Hnext.
  pose proof (stats_lookup_max i stat Hi) as Hmax.
  pose proof (stats_lookup_min (S i) next Hnext) as Hmin. simpl in Hmin.
  rewrite lookup_app_l in Hmax by (apply (lookup_lt_Some _ _ _ Hmin)).
  split; [exact Hmax|congruence].
Qed.

Lemma len_not_nan : is_nan len = false.
Proof using len_positive.
  apply (ltb_not_nan_r zero len). exact len_positive.
Qed.

(** While no bucket up to [i] contains [len], the lower bounds stay at or
    below [len]. *)
Lemma lower_bounds_below (i : nat) (stat : segment_statistic) :
  (forall (j : nat) (stat' : segment_statistic),
      (j < i)%nat -> stats !! j = Some stat' -> in_range stat' len = false) ->
  stats !! i = Some stat -> leb (min_mm stat) len = true.
Proof using thresholds_increasing stats_min stats_max len_positive.
  revert stat. induction i as [|i IH]; intros stat Hbefore Hi.
  - apply stats_lookup_min in Hi. simpl in Hi. injection Hi as <-.
    apply ltb_leb. exact len_positive.
  - destruct (stats !! i) as [prev|] eqn:Hprev.
    2:{ apply lookup_ge_None in Hprev. apply lookup_lt_Some in Hi. lia. }
    destruct (stats_boundary i prev stat Hprev Hi) as [Hth ->].
    assert (Hlo : leb (min_mm prev) len = true).
    { apply IH; [|reflexivity]. intros j st Hj. apply Hbefore. lia. }
    pose proof (Hbefore i prev (Nat.lt_succ_diag_r i) Hprev) as Hout.
    unfold in_range in Hout. rewrite Hlo in Hout. simpl in Hout.
    destruct (increasing_lookup _ _ _ _ thresholds_increasing Hth)
      as [_ Hnan].
    apply not_ltb_leb; [exact len_not_nan|exact Hnan|exact Hout].
Qed.

(** The bucket [i] at which the loop stopped. *)
Variable i : nat.
Variable stat : segment_statistic.
Hypothesis picked : stats !! i = Some stat.
Hypothesis picked_first :
  forall (j : nat) (stat' : segment_statistic),
    (j < i)%nat -> stats !! j = Some stat' -> in_range stat' len = false.
Hypothesis picked_why :
  in_range stat len = true \/ (i + 1)%nat = length stats.

Lemma last_threshold_lookup (final : double) :
  last thresholds = Some final ->
  thresholds !! pred (length thresholds) = Some final
  /\ (0 < length thresholds)%nat.
Proof.
  intros Hlast. rewrite last_lookup in Hlast. split; [exact Hlast|].
  apply lookup_lt_Some in Hlast. lia.
Qed.

Lemma picked_below_final (final : double) :
  last thresholds = Some final -> ltb len final = true ->
  in_range stat len = true.
Proof using All.
  intros Hlast Hlt. destruct picked_why as [Hin|Hend]; [exact Hin|].
  exfalso. rewrite stats_length in Hend.
  destruct (last_threshold_lookup final Hlast) as [Hfinal Hpos].
  pose proof (lower_bounds_below i stat picked_first picked) as Hlo.
  pose proof (stats_lookup_min i stat picked) as Hmin.
  replace i with (S (pred (length thresholds))) in Hmin by lia.
  simpl in Hmin. rewrite Hfinal in Hmin. injection Hmin as Hmin.
  rewrite <- Hmin in Hlo. apply ltb_not_leb in Hlt. congruence.
Qed.

Lemma picked_max_threshold :
  (i < length thresholds)%nat -> thresholds !! i = Some (max_mm stat).
Proof using stats_max picked.
  intros Hi. pose proof (stats_lookup_max i stat picked) as Hmax.
  rewrite lookup_app_l in Hmax by exact Hi. exact Hmax.
Qed.

Lemma picked_unique (k : nat) (other : segment_statistic) :
  in_range stat len = true ->
  stats !! k = Some other -> in_range other len = true -> k = i.
Proof using All.
  intros Hin Hk Hother.
  destruct (Nat.lt_trichotomy k i) as [Hlt|[Heq|Hgt]]; [|exact Heq|].
  - rewrite (picked_first k other Hlt Hk) in Hother. discriminate.
  - exfalso.
    pose proof (lookup_lt_Some _ _ _ Hk) as Hklen.
    rewrite stats_length in Hklen.
    pose proof (picked_max_threshold ltac:(lia)) as Hmax.
    pose proof (stats_lookup_min k other Hk) as Hmin.
    destruct k as [|k]; [lia|]. simpl in Hmin.
    assert (Hle : leb (max_mm stat) (min_mm other) = true).
    { apply (increasing_monotone zero thresholds i k); auto. lia. }
    unfold in_range in Hin, Hother.
    apply andb_true_iff in Hin as [_ Hin].
    apply andb_true_iff in Hother as [Hother _].
    pose proof (ltb_leb_trans len _ _ Hin Hle) as Hlt.
    apply ltb_not_leb in Hlt. congruence.
Qed.

Lemma picked_overflow (final : double) :
  last thresholds = Some final -> leb final len = true ->
  i = length thresholds.
Proof using All.
  intros Hlast Hge.
  pose proof (lookup_lt_Some _ _ _ picked) as Hilen.
  rewrite stats_length in Hilen.
  destruct (decide (i = length thresholds)) as [Heq|Hne]; [exact Heq|].
  exfalso.
  destruct picked_why as [Hin|Hend]; [|rewrite stats_length in Hend; lia].
  destruct (last_threshold_lookup final Hlast) as [Hfinal Hpos].
  pose proof (picked_max_threshold ltac:(lia)) as Hmax.
  assert (Hle : leb (max_mm stat) final = true).
  { apply (increasing_monotone zero thresholds i
             (pred (length thresholds))); auto. lia. }
  unfold in_range in Hin. apply andb_true_iff in Hin as [_ Hin].
  pose proof (ltb_leb_trans len _ _ Hin Hle) as Hlt.
  apply leb_not_ltb in Hge. congruence.
Qed.
End AscendingThresholds.

(** ** The constructor and [update] *)

Section StatisticsFacts.
Context {logger : Type} `{utilities}.

Implicit Types (s : @source_target_segment_statistics logger).
Implicit Types (stats : list segment_statistic) (len : double).

Lemma tracking_loop_Some (arr : list double) (n index : nat)
    (source target : list segment_statistic) (current_min : double) :
  (index + n <= length arr)%nat ->
  exists (added : list segment_statistic) (current_min' : double),
    tracking_loop arr n index source target current_min
    = Some (source ++ added, target ++ added, current_min')
    /\ max_mm <$> added = take n (drop index arr)
    /\ (min_mm <$> added) ++ [current_min']
       = current_min :: take n (drop index arr)
    /\ (forall (i : nat) (stat : segment_statistic),
           added !! i = Some stat -> count stat = 0).
Proof.
  revert index source target current_min.
  induction n as [|n IH]; intros index source target current_min Hlen.
  - exists [], current_min. simpl. rewrite !app_nil_r.
    repeat split; auto. intros i stat Hi. discriminate.
  - destruct (arr !! index) as [a|] eqn:Ha.
    2:{ apply lookup_ge_None in Ha. lia. }
    simpl. rewrite Ha. simpl.
    destruct (IH (S index) (source ++ [segment_statistic_new current_min a])
                (target ++ [segment_statistic_new current_min a]) a)
      as (added & cur' & Hrun & Hmax & Hmin & Hcount); [lia|].
    exists (segment_statistic_new current_min a :: added), cur'.
    rewrite Hrun, <- !app_assoc, (drop_S _ _ _ Ha), firstn_cons.
    split; [reflexivity|]. split; [|split].
    + rewrite fmap_cons, Hmax. reflexivity.
    + rewrite fmap_cons, <- app_comm_cons, Hmin. reflexivity.
    + intros [|i] stat Hi; simpl in Hi.
      * injection Hi as <-. reflexivity.
      * apply (Hcount i). exact Hi.
Qed.

Lemma new_Some (arr : list double) (num_lengths : Z)
    (p_logger : option logger) :
  (Z.to_nat num_lengths <= length arr)%nat ->
  exists s,
    source_target_segment_statistics_new arr num_lengths p_logger = Some s
    /\ histogram_over (take (Z.to_nat num_lengths) arr) (source_segments s)
    /\ target_segments s = source_segments s
    /\ sum_counts (source_segments s) = 0
    /\ (forall (i : nat) (stat : segment_statistic),
           source_segments s !! i = Some stat -> count stat = 0)
    /\ total_length_source s = Double.zero
    /\ total_length_target s = Double.zero
    /\ total_count_source s = 0 /\ total_count_target s = 0.
Proof.
  intros Hlen. unfold source_target_segment_statistics_new.
  destruct (tracking_loop_Some arr (Z.to_nat num_lengths) 0 [] []
              Double.zero Hlen)
    as (added & cur' & Hrun & Hmax & Hmin & Hcount).
  rewrite Hrun. simpl. eexists. split; [reflexivity|]. simpl.
  rewrite drop_0 in Hmax, Hmin.
  assert (Hzero : forall (i : nat) (stat : segment_statistic),
             (added ++ [segment_statistic_new cur' minus_one]) !! i
             = Some stat -> count stat = 0).
  { intros i stat Hi. apply lookup_app_Some in Hi as [Hi|[_ Hi]].
    - apply (Hcount i). exact Hi.
    - apply list_lookup_singleton_Some in Hi as [_ <-]. reflexivity. }
  repeat split; auto.
  - rewrite fmap_app. simpl. exact Hmin.
  - rewrite fmap_app, Hmax. reflexivity.
  - intros i stat Hi. rewrite (Hzero i stat Hi). lia.
  - clear -Hzero.
    induction (added ++ [segment_statistic_new cur' minus_one])
      as [|a l IH]; simpl; [reflexivity|].
    rewrite (Hzero 0%nat a eq_refl), IH; [reflexivity|].
    intros i stat Hi. apply (Hzero (S i)). exact Hi.
Qed.

(** [update] with a length the guard rejects. *)
Lemma update_rejected s len (is_source : bool) :
  Double.leb len Double.zero = true -> update s len is_source = Some s.
Proof. intros Hguard. unfold update. rewrite Hguard. reflexivity. Qed.

(** [update] with a length the guard lets through. *)
Lemma update_counted s s' len (is_source : bool) :
  Double.leb len Double.zero = false ->
  update s len is_source = Some s' ->
  update_loop len (length (segments is_source s)) 0 (segments is_source s)
  = Some (segments is_source s')
  /\ total_count is_source s < Int.INT_MAX
  /\ total_count is_source s' = total_count is_source s + 1
  /\ total_length is_source s'
     = Double.add (total_length is_source s) len
  /\ segments (negb is_source) s' = segments (negb is_source) s
  /\ total_count (negb is_source) s' = total_count (negb is_source) s
  /\ total_length (negb is_source) s' = total_length (negb is_source) s.
Proof.
  intros Hguard Hrun. unfold update in Hrun. rewrite Hguard in Hrun.
  destruct is_source; simpl in *.
  - destruct (Int.incr (total_count_source s)) as [c|] eqn:Hc;
      simpl in Hrun; [|discriminate].
    destruct (update_loop len _ 0 (source_segments s)) as [stats'|];
      simpl in Hrun; [|discriminate].
    injection Hrun as <-. simpl. apply incr_Some in Hc as [Hc ->].
    repeat split; auto.
  - destruct (Int.incr (total_count_target s)) as [c|] eqn:Hc;
      simpl in Hrun; [|discriminate].
    destruct (update_loop len _ 0 (target_segments s)) as [stats'|];
      simpl in Hrun; [|discriminate].
    injection Hrun as <-. simpl. apply incr_Some in Hc as [Hc ->].
    repeat split; auto.
Qed.

(** [update] has defined behaviour while the counters it touches are
    below [INT_MAX]. *)
Lemma update_is_Some s len (is_source : bool) :
  total_count is_source s < Int.INT_MAX ->
  (forall (i : nat) (stat : segment_statistic),
      segments is_source s !! i = Some stat -> count stat < Int.INT_MAX) ->
  is_Some (update s len is_source).
Proof.
  intros Htotal Hcounts. unfold update.
  destruct (Double.leb len Double.zero); [eauto|].
  destruct is_source; simpl in *.
  - assert (Hc : Int.incr (total_count_source s)
                 = Some (total_count_source s + 1))
      by (apply incr_Some; auto).
    rewrite Hc. simpl.
    destruct (update_loop_is_Some len (length (source_segments s)) 0
                (source_segments s) Hcounts) as [stats' ->].
    simpl. eauto.
  - assert (Hc : Int.incr (total_count_target s)
                 = Some (total_count_target s + 1))
      by (apply incr_Some; auto).
    rewrite Hc. simpl.
    destruct (update_loop_is_Some len (length (target_segments s)) 0
                (target_segments s) Hcounts) as [stats' ->].
    simpl. eauto.
Qed.

Lemma histogram_over_length (ts : list double) stats :
  histogram_over ts stats -> length stats = S (length ts).
Proof.
  intros (Hmin & _ & _). rewrite <- (length_fmap min_mm), Hmin. reflexivity.
Qed.

Lemma sum_counts_incr stats (i : nat) (stat : segment_statistic) :
  stats !! i = Some stat ->
  sum_counts (<[i := {| min_mm := min_mm stat; max_mm := max_mm stat;
                        count := count stat + 1 |}]> stats)
  = sum_counts stats + 1.
Proof.
  intros Hi. rewrite (sum_counts_insert stats i stat _ Hi). simpl. lia.
Qed.

(** One run of the loop over a non-empty histogram adds one to the sum of
    its counts. *)
Lemma update_loop_sum len stats stats' :
  stats <> [] ->
  update_loop len (length stats) 0 stats = Some stats' ->
  sum_counts stats' = sum_counts stats + 1.
Proof.
  intros Hne Hrun.
  destruct (update_loop_Some len (length stats) 0 stats stats' Hrun)
    as (i & stat & _ & Hi & _ & -> & _); [|lia|].
  - destruct stats; [congruence|simpl; lia].
  - apply sum_counts_incr. exact Hi.
Qed.

Lemma update_loop_histogram (ts : list double) len stats stats' :
  histogram_over ts stats ->
  update_loop len (length stats) 0 stats = Some stats' ->
  histogram_over ts stats'.
Proof.
  intros Hhist Hrun.
  pose proof (histogram_over_length ts stats Hhist) as Hlen.
  destruct Hhist as (Hmin & Hmax & Hpos).
  destruct (update_loop_Some len (length stats) 0 stats stats' Hrun)
    as (i & stat & _ & Hi & _ & -> & _); [lia|lia|].
  repeat split.
  - rewrite list_fmap_insert. simpl. rewrite list_insert_id; [exact Hmin|].
    rewrite list_lookup_fmap, Hi. reflexivity.
  - rewrite list_fmap_insert. simpl. rewrite list_insert_id; [exact Hmax|].
    rewrite list_lookup_fmap, Hi. reflexivity.
  - intros j st Hj. apply list_lookup_insert_Some in Hj
      as [(<- & <- & _)|(_ & Hj)].
    + simpl. pose proof (Hpos i stat Hi). lia.
    + apply (Hpos j). exact Hj.
Qed.

Lemma histogram_over_nonempty (ts : list double) stats :
  histogram_over ts stats -> stats <> [].
Proof.
  intros Hhist Hnil. apply histogram_over_length in Hhist.
  rewrite Hnil in Hhist. discriminate.
Qed.

(** A single [update] keeps [sum over buckets = total count]. *)
Lemma update_self_consistent s s' len (is_source : bool) :
  source_segments s <> [] -> target_segments s <> [] ->
  self_consistent s -> update s len is_source = Some s' ->
  self_consistent s'.
Proof.
  intros Hsrc Htgt [Hs Ht] Hrun.
  destruct (Double.leb len Double.zero) eqn:Hguard.
  - rewrite (update_rejected s len is_source Hguard) in Hrun.
    injection Hrun as <-. split; assumption.
  - destruct (update_counted s s' len is_source Hguard Hrun)
      as (Hloop & _ & Hcount & _ & Hsegs & Hother & _).
    destruct is_source; simpl in *.
    + apply update_loop_sum in Hloop; [|exact Hsrc].
      split; [lia|]. rewrite Hsegs, Hother. exact Ht.
    + apply update_loop_sum in Hloop; [|exact Htgt].
      split; [|lia]. rewrite Hsegs, Hother. exact Hs.
Qed.

Lemma update_well_formed (ts : list double) s s' len (is_source : bool) :
  well_formed ts s -> update s len is_source = Some s' ->
  well_formed ts s'.
Proof.
  intros (Hsrc & Htgt & Hcons) Hrun.
  assert (Hcons' : self_consistent s').
  { apply (update_self_consistent s s' len is_source); auto;
      eapply histogram_over_nonempty; eauto. }
  destruct (Double.leb len Double.zero) eqn:Hguard.
  - rewrite (update_rejected s len is_source Hguard) in Hrun.
    injection Hrun as <-. split; [exact Hsrc|split; [exact Htgt|exact Hcons]].
  - destruct (update_counted s s' len is_source Hguard Hrun)
      as (Hloop & _ & _ & _ & Hsegs & _).
    destruct is_source; simpl in *.
    + apply (update_loop_histogram ts) in Hloop; [|exact Hsrc].
      split; [exact Hloop|]. rewrite Hsegs. split; [exact Htgt|exact Hcons'].
    + apply (update_loop_histogram ts) in Hloop; [|exact Htgt].
      split; [rewrite Hsegs; exact Hsrc|]. split; [exact Hloop|exact Hcons'].
Qed.

Lemma updates_well_formed (ts : list double) s s'
    (calls : list (double * bool)) :
  well_formed ts s -> updates s calls = Some s' -> well_formed ts s'.
Proof.
  revert s. induction calls as [|[len is_source] calls IH]; intros s Hwf Hrun;
    simpl in Hrun.
  - injection Hrun as <-. exact Hwf.
  - destruct (update s len is_source) as [s1|] eqn:Hstep; simpl in Hrun;
      [|discriminate].
    apply (IH s1); [|exact Hrun].
    apply (update_well_formed ts s s1 len is_source); assumption.
Qed.

(** A constructor call that reads past the end of its array has no
    defined result. *)
Lemma tracking_loop_None (arr : list double) (n index : nat)
    (source target : list segment_statistic) (current_min : double) :
  (index <= length arr < index + n)%nat ->
  tracking_loop arr n index source target current_min = None.
Proof.
  revert index source target current_min.
  induction n as [|n IH]; intros index source target current_min Hlen;
    [lia|]. simpl.
  destruct (arr !! index) as [a|] eqn:Ha; simpl; [|reflexivity].
  apply IH. apply lookup_lt_Some in Ha. lia.
Qed.

Lemma new_well_formed (arr : list double) (num_lengths : Z)
    (p_logger : option logger) s :
  source_target_segment_statistics_new arr num_lengths p_logger = Some s ->
  well_formed (take (Z.to_nat num_lengths) arr) s
  /\ total_length_source s = Double.zero
  /\ total_length_target s = Double.zero
  /\ total_count_source s = 0 /\ total_count_target s = 0.
Proof.
  intros Hnew.
  destruct (Nat.le_gt_cases (Z.to_nat num_lengths) (length arr))
    as [Hlen|Hlen].
  - destruct (new_Some arr num_lengths p_logger Hlen)
      as (s1 & Hs1 & Hhist & Htgt & Hsum & _ & Hls & Hlt & Hcs & Hct).
    rewrite Hnew in Hs1. injection Hs1 as <-.
    repeat split; auto; try (rewrite Htgt; apply Hhist); try apply Hhist.
    + lia.
    + rewrite Htgt. lia.
  - unfold source_target_segment_statistics_new in Hnew.
    rewrite tracking_loop_None in Hnew by (simpl; lia). discriminate.
Qed.

(** The totals after a sequence of calls. *)
Lemma updates_totals s s' (calls : list (double * bool))
    (is_source : bool) :
  updates s calls = Some s' ->
  total_count is_source s'
  = total_count is_source s
    + Z.of_nat (length (counted_lengths is_source calls))
  /\ total_length is_source s'
     = fold_left Double.add (counted_lengths is_source calls)
         (total_length is_source s).
Proof.
  revert s. induction calls as [|[len b] calls IH]; intros s Hrun;
    simpl in Hrun.
  - injection Hrun as <-. simpl. split; [lia|reflexivity].
  - destruct (update s len b) as [s1|] eqn:Hstep; simpl in Hrun;
      [|discriminate].
    destruct (IH s1 Hrun) as [Hc Hl]. rewrite Hc, Hl.
    unfold counted_lengths. simpl.
    destruct (Double.leb len Double.zero) eqn:Hguard; simpl.
    + rewrite (update_rejected s len b Hguard) in Hstep.
      injection Hstep as <-. split; reflexivity.
    + destruct (update_counted s s1 len b Hguard Hstep)
        as (_ & _ & Hcount & Hlength & _ & Hco & Hlo).
      destruct b, is_source; simpl in *;
        rewrite ?Hcount, ?Hlength, ?Hco, ?Hlo; split;
        try reflexivity; lia.
Qed.

(** A sequence of calls has defined behaviour while the counters stay
    within [int]. *)
Lemma updates_is_Some (ts : list double) s
    (calls : list (double * bool)) :
  well_formed ts s ->
  total_count_source s + Z.of_nat (length calls) <= Int.INT_MAX ->
  total_count_target s + Z.of_nat (length calls) <= Int.INT_MAX ->
  is_Some (updates s calls).
Proof.
  revert s. induction calls as [|[len b] calls IH]; intros s Hwf Hsrc Htgt;
    simpl in *; [eauto|].
  assert (Hstep : is_Some (update s len b)).
  { destruct Hwf as ((_ & _ & Hps) & (_ & _ & Hpt) & [Hss Hst]).
    apply update_is_Some; [destruct b; simpl; lia|].
    intros i stat Hi. destruct b; simpl in *.
    - pose proof (sum_counts_bound _ i stat Hps Hi). lia.
    - pose proof (sum_counts_bound _ i stat Hpt Hi). lia. }
  destruct Hstep as [s1 Hs1]. rewrite Hs1. simpl.
  pose proof (update_well_formed ts s s1 len b Hwf Hs1) as Hwf1.
  apply IH; [exact Hwf1| |].
  - destruct (updates_totals s s1 [(len, b)] true) as [Hc _].
    { simpl. rewrite Hs1. reflexivity. }
    simpl in Hc. unfold counted_lengths in Hc. simpl in Hc.
    destruct (negb (Double.leb len Double.zero) && eqb b true);
      simpl in Hc; lia.
  - destruct (updates_totals s s1 [(len, b)] false) as [Hc _].
    { simpl. rewrite Hs1. reflexivity. }
    simpl in Hc. unfold counted_lengths in Hc. simpl in Hc.
    destruct (negb (Double.leb len Double.zero) && eqb b false);
      simpl in Hc; lia.
Qed.
End StatisticsFacts.

(** ** The statistics *)

Lemma default_thresholds_increasing :
  increasing Double.zero segment_statistic_lengths = true.
Proof. reflexivity. Qed.

Lemma default_thresholds_last :
  last segment_statistic_lengths = Some final_threshold.
Proof. reflexivity. Qed.

Section Statistics.
Context {logger : Type} `{utilities}.

Implicit Types (s : @source_target_segment_statistics logger).

Lemma well_formed_segments (ts : list double) s (is_source : bool) :
  well_formed ts s ->
  histogram_over ts (segments is_source s)
  /\ sum_counts (segments is_source s) = total_count is_source s.
Proof.
  intros (Hsrc & Htgt & Hs & Ht). destruct is_source; simpl; auto.
Qed.

(** The statistics objects of the welder: built over the fixed thresholds
    and updated any number of times. *)
Lemma default_well_formed (p_logger : option logger) s0 s
    (calls : list (double * bool)) :
  source_target_segment_statistics_new segment_statistic_lengths
    segment_statistic_lengths_count p_logger = Some s0 ->
  updates s0 calls = Some s ->
  well_formed segment_statistic_lengths s.
Proof.
  intros Hnew Hrun. apply new_well_formed in Hnew as [Hwf _].
  apply (updates_well_formed _ s0 s calls); assumption.
Qed.

(** What one counted call does to an object built over the fixed
    thresholds. *)
Lemma update_picks s (len : double) (is_source : bool) :
  well_formed segment_statistic_lengths s ->
  Double.gtb len Double.zero = true ->
  total_count is_source s < Int.INT_MAX ->
  exists s' (i : nat) (stat : segment_statistic),
    update s len is_source = Some s'
    /\ segments is_source s !! i = Some stat
    /\ segments is_source s'
       = <[i := {| min_mm := min_mm stat; max_mm := max_mm stat;
                   count := count stat + 1 |}]> (segments is_source s)
    /\ segments (negb is_source) s' = segments (negb is_source) s
    /\ (Double.ltb len final_threshold = true ->
        in_range stat len = true
        /\ forall (k : nat) (other : segment_statistic),
             segments is_source s !! k = Some other ->
             in_range other len = true -> k = i)
    /\ (Double.geb len final_threshold = true -> i = 12%nat).
Proof.
  intros Hwf Hpos Htotal.
  destruct (well_formed_segments _ s is_source Hwf) as [Hhist Hsum].
  pose proof (histogram_over_length _ _ Hhist) as Hlen.
  destruct Hhist as (Hmin & Hmax & Hcounts).
  assert (Hguard : Double.leb len Double.zero = false)
    by (apply DoubleFacts.ltb_not_leb; exact Hpos).
  destruct (update_is_Some s len is_source Htotal) as [s' Hs'].
  { intros i stat Hi.
    pose proof (sum_counts_bound _ i stat Hcounts Hi). lia. }
  destruct (update_counted s s' len is_source Hguard Hs')
    as (Hloop & _ & _ & _ & Hother & _).
  destruct (update_loop_Some len _ 0 _ _ Hloop)
    as (i & stat & _ & Hi & _ & Hins & Hwhy & Hfirst); [lia|lia|].
  assert (Hfirst' : forall (j : nat) (stat' : segment_statistic),
             (j < i)%nat -> segments is_source s !! j = Some stat' ->
             in_range stat' len = false).
  { intros j stat' Hj. apply Hfirst. lia. }
  assert (Hbelow : Double.ltb len final_threshold = true ->
                   in_range stat len = true).
  { apply (picked_below_final segment_statistic_lengths
             default_thresholds_increasing (segments is_source s)
             Hmin Hmax len Hpos i stat Hi Hfirst' Hwhy final_threshold
             default_thresholds_last). }
  exists s', i, stat.
  split; [exact Hs'|]. split; [exact Hi|]. split; [exact Hins|].
  split; [exact Hother|]. split.
  - intros Hlt. split; [exact (Hbelow Hlt)|].
    intros k other Hk Hin.
    apply (picked_unique segment_statistic_lengths
             default_thresholds_increasing (segments is_source s)
             Hmin Hmax len Hpos i stat Hi Hfirst' Hwhy k other);
      auto.
  - apply (picked_overflow segment_statistic_lengths
             default_thresholds_increasing (segments is_source s)
             Hmin Hmax len Hpos i stat Hi Hfirst' Hwhy final_threshold
             default_thresholds_last).
Qed.

(** C1. On a statistics object built over the fixed thresholds, a call of
    [update] with a length greater than 0 (and the total count of the
    chosen side below [INT_MAX], so that the increments are defined) adds
    one to the count of exactly one bucket [i] of the chosen side and
    changes no other bucket of either side.  When the length is below the
    final threshold (100 mm), bucket [i] is the only bucket whose range
    satisfies [min_mm <= length < max_mm]; when the length is at least the
    final threshold, bucket [i] is the last one, index 12. *)
Theorem update_increments_one_bucket (p_logger : option logger) s0 s
    (calls : list (double * bool)) (len : double) (is_source : bool) :
  source_target_segment_statistics_new segment_statistic_lengths
    segment_statistic_lengths_count p_logger = Some s0 ->
  updates s0 calls = Some s ->
  Double.gtb len Double.zero = true ->
  total_count is_source s < Int.INT_MAX ->
  exists s' (i : nat) (stat : segment_statistic),
    update s len is_source = Some s'
    /\ segments is_source s !! i = Some stat
    /\ segments is_source s'
       = <[i := {| min_mm := min_mm stat; max_mm := max_mm stat;
                   count := count stat + 1 |}]> (segments is_source s)
    /\ (forall j : nat, j <> i ->
           segments is_source s' !! j = segments is_source s !! j)
    /\ segments (negb is_source) s' = segments (negb is_source) s
    /\ (Double.ltb len final_threshold = true ->
        in_range stat len = true
        /\ forall (k : nat) (other : segment_statistic),
             segments is_source s !! k = Some other ->
             in_range other len = true -> k = i)
    /\ (Double.geb len final_threshold = true ->
        i = 12%nat /\ S i = length (segments is_source s)).
Proof.
  intros Hnew Hrun Hpos Htotal.
  pose proof (default_well_formed p_logger s0 s calls Hnew Hrun) as Hwf.
  destruct (update_picks s len is_source Hwf Hpos Htotal)
    as (s' & i & stat & Hs' & Hi & Hins & Hother & Hbelow & Hover).
  exists s', i, stat.
  split; [exact Hs'|]. split; [exact Hi|]. split; [exact Hins|].
  split; [|split; [exact Hother|split; [exact Hbelow|]]].
  - intros j Hj. rewrite Hins. apply list_lookup_insert_ne. auto.
  - intros Hge. split; [exact (Hover Hge)|].
    destruct (well_formed_segments _ s is_source Hwf) as [Hhist _].
    rewrite (histogram_over_length _ _ Hhist), (Hover Hge). reflexivity.
Qed.

(** C2. After any sequence of [update] calls on a freshly constructed
    statistics object the counts of the source buckets sum to
    [total_count_source] and those of the target buckets to
    [total_count_target]; a single [update] call on an object with at
    least one bucket per side keeps both equalities; and a sequence of at
    most [INT_MAX] calls never overflows a counter, so it has a result. *)
Theorem statistics_self_consistent :
  (forall (arr : list double) (num_lengths : Z) (p_logger : option logger)
          s0 s (calls : list (double * bool)),
      source_target_segment_statistics_new arr num_lengths p_logger
      = Some s0 ->
      updates s0 calls = Some s ->
      sum_counts (source_segments s) = total_count_source s
      /\ sum_counts (target_segments s) = total_count_target s)
  /\ (forall s s' (len : double) (is_source : bool),
         source_segments s <> [] -> target_segments s <> [] ->
         self_consistent s -> update s len is_source = Some s' ->
         self_consistent s')
  /\ (forall (arr : list double) (num_lengths : Z)
             (p_logger : option logger) s0 (calls : list (double * bool)),
         source_target_segment_statistics_new arr num_lengths p_logger
         = Some s0 ->
         Z.of_nat (length calls) <= Int.INT_MAX ->
         exists s, updates s0 calls = Some s).
Proof.
  split; [|split].
  - intros arr num_lengths p_logger s0 s calls Hnew Hrun.
    apply new_well_formed in Hnew as [Hwf _].
    apply (updates_well_formed _ s0 s calls) in Hwf; [|exact Hrun].
    destruct Hwf as (_ & _ & Hcons). exact Hcons.
  - intros s s' len is_source. apply update_self_consistent.
  - intros arr num_lengths p_logger s0 calls Hnew Hlen.
    apply new_well_formed in Hnew as (Hwf & _ & _ & Hcs & Hct).
    apply (updates_is_Some _ s0 calls Hwf); lia.
Qed.

Lemma counted_positive (is_source : bool) (calls : list (double * bool)) :
  (forall call : double * bool,
      In call calls -> Double.is_nan (fst call) = false) ->
  counted_lengths is_source calls = positive_lengths is_source calls.
Proof.
  intros Hnan. unfold counted_lengths, positive_lengths. f_equal.
  apply List.filter_ext_in. intros [len b] Hin. simpl.
  rewrite (DoubleFacts.leb_zero_gtb len); [reflexivity|].
  apply (Hnan (len, b)). exact Hin.
Qed.

(** C4, as the code has it.  A sequence of at most [INT_MAX] [update]
    calls on a freshly constructed statistics object has a result, and
    after any sequence that has one, [total_length_source] is the running
    double-precision sum, in call order, of the lengths passed with
    [is_source = true] for which [length <= 0] is false, and
    [total_count_source] is the number of those calls; symmetrically for
    the target side.  These lengths are the lengths greater than 0
    whenever no length passed is NaN. *)
Theorem update_totals (arr : list double) (num_lengths : Z)
    (p_logger : option logger) s0 (calls : list (double * bool)) :
  source_target_segment_statistics_new arr num_lengths p_logger = Some s0 ->
  (Z.of_nat (length calls) <= Int.INT_MAX ->
   exists s, updates s0 calls = Some s)
  /\ (forall s,
         updates s0 calls = Some s ->
         total_length_source s = running_sum (counted_lengths true calls)
         /\ total_count_source s
            = Z.of_nat (length (counted_lengths true calls))
         /\ total_length_target s = running_sum (counted_lengths false calls)
         /\ total_count_target s
            = Z.of_nat (length (counted_lengths false calls)))
  /\ ((forall call : double * bool,
          In call calls -> Double.is_nan (fst call) = false) ->
      counted_lengths true calls = positive_lengths true calls
      /\ counted_lengths false calls = positive_lengths false calls).
Proof.
  intros Hnew.
  apply new_well_formed in Hnew as (Hwf & Hls & Hlt & Hcs & Hct).
  split; [|split].
  - intros Hlen. apply (updates_is_Some _ s0 calls Hwf); lia.
  - intros s Hrun.
    destruct (updates_totals s0 s calls true Hrun) as [Hc1 Hl1].
    destruct (updates_totals s0 s calls false Hrun) as [Hc2 Hl2].
    simpl in *. unfold running_sum.
    rewrite Hl1, Hl2, Hc1, Hc2, Hls, Hlt, Hcs, Hct. auto.
  - intros Hnan. split; apply counted_positive; exact Hnan.
Qed.

(** C5. Constructing the statistics from [n] thresholds [t_0 .. t_(n-1)]
    (the array holds at least [n] numbers) yields on each side [n + 1]
    buckets: bucket 0 starts at 0, bucket [i] starts at [t_(i-1)] and,
    below [n], ends at [t_i]; the last bucket starts at [t_(n-1)] and has
    [max_mm = -1.0]; every count and every total is zero. *)
Theorem constructor_buckets (arr : list double) (num_lengths : Z)
    (p_logger : option logger) :
  (Z.to_nat num_lengths <= length arr)%nat ->
  exists s,
    source_target_segment_statistics_new arr num_lengths p_logger = Some s
    /\ length (source_segments s) = S (Z.to_nat num_lengths)
    /\ length (target_segments s) = S (Z.to_nat num_lengths)
    /\ (forall i : nat, (i <= Z.to_nat num_lengths)%nat ->
          exists stat : segment_statistic,
            source_segments s !! i = Some stat
            /\ target_segments s !! i = Some stat
            /\ count stat = 0
            /\ (i = 0%nat -> min_mm stat = Double.zero)
            /\ (forall j : nat, i = S j -> arr !! j = Some (min_mm stat))
            /\ ((i < Z.to_nat num_lengths)%nat ->
                arr !! i = Some (max_mm stat))
            /\ (i = Z.to_nat num_lengths -> max_mm stat = minus_one))
    /\ total_length_source s = Double.zero
    /\ total_length_target s = Double.zero
    /\ total_count_source s = 0 /\ total_count_target s = 0.
Proof.
  intros Hlen.
  destruct (new_Some arr num_lengths p_logger Hlen)
    as (s & Hs & Hhist & Htgt & _ & Hzero & Hls & Hlt & Hcs & Hct).
  pose proof (histogram_over_length _ _ Hhist) as Hsize.
  rewrite length_take, Nat.min_l in Hsize by exact Hlen.
  destruct Hhist as (Hmin & Hmax & _).
  exists s. rewrite Htgt. repeat split; auto.
  intros i Hi.
  destruct (lookup_lt_is_Some_2 (source_segments s) i) as [stat Hstat];
    [lia|].
  exists stat.
  assert (Hlo : (Double.zero :: take (Z.to_nat num_lengths) arr) !! i
                = Some (min_mm stat))
    by (rewrite <- Hmin, list_lookup_fmap, Hstat; reflexivity).
  assert (Hhi : (take (Z.to_nat num_lengths) arr ++ [minus_one]) !! i
                = Some (max_mm stat))
    by (rewrite <- Hmax, list_lookup_fmap, Hstat; reflexivity).
  repeat split; auto.
  - apply (Hzero i). exact Hstat.
  - intros ->. simpl in Hlo. congruence.
  - intros j ->. simpl in Hlo.
    apply lookup_take_Some in Hlo as [Hlo _]. exact Hlo.
  - intros Hlt'. rewrite lookup_app_l in Hhi
      by (rewrite length_take; lia).
    apply lookup_take_Some in Hhi as [Hhi _]. exact Hhi.
  - intros ->. rewrite lookup_app_r in Hhi
      by (rewrite length_take; lia).
    rewrite length_take, Nat.min_l, Nat.sub_diag in Hhi by exact Hlen.
    simpl in Hhi. congruence.
Qed.

(** C6. A call of [update] with a length less than or equal to 0 leaves
    the whole statistics object as it was. *)
Theorem update_nonpositive_unchanged s (len : double) (is_source : bool) :
  Double.leb len Double.zero = true -> update s len is_source = Some s.
Proof. apply update_rejected. Qed.

(** C7. A call of [update] with [is_source = true] leaves
    [total_length_target], [total_count_target] and every target bucket
    unchanged; a call with [is_source = false] leaves the source side
    unchanged. *)
Theorem update_frame s s' (len : double) :
  (update s len true = Some s' ->
   total_length_target s' = total_length_target s
   /\ total_count_target s' = total_count_target s
   /\ target_segments s' = target_segments s)
  /\ (update s len false = Some s' ->
      total_length_source s' = total_length_source s
      /\ total_count_source s' = total_count_source s
      /\ source_segments s' = source_segments s).
Proof.
  split; intros Hrun;
    (destruct (Double.leb len Double.zero) eqn:Hguard;
     [ rewrite (update_rejected s len _ Hguard) in Hrun;
       injection Hrun as <-; auto
     | destruct (update_counted s s' len _ Hguard Hrun)
         as (_ & _ & _ & _ & Hsegs & Hcount & Hlength);
       simpl in *; auto ]).
Qed.
End Statistics.

(** ** The thresholds *)

(** C3, as the code has it.  The twelve thresholds are the single-precision
    literals [0.002f .. 100.0f] widened to [double]: binary32 numbers, each
    within half a unit in the last place, and within a relative error of
    2^-24, of 0.002, 0.005, 0.01, 0.05, 0.1, 0.5, 1, 5, 10, 20, 50 and 100;
    the last seven equal their decimals, the first five do not.  The
    constructed source and target bucket boundaries are these numbers, and
    a segment of at least the final threshold, exactly 100, is counted in
    the additional last bucket, which starts there. *)
Theorem thresholds_single_precision {logger : Type} `{utilities}
    (p_logger : option logger) :
  segment_statistic_lengths
  = map (fun literal =>
           Double.of_float (Float.of_decimal (fst literal) (snd literal)))
      segment_statistic_literals
  /\ Forall (fun literal =>
               valid_binary Float.prec Float.emax
                 (Float.of_decimal (fst literal) (snd literal)) = true)
       segment_statistic_literals
  /\ Forall (fun t => Double.valid t = true) segment_statistic_lengths
  /\ Forall2 has_value segment_statistic_lengths single_precision_values
  /\ Forall2 (fun v literal =>
               (Qabs (v - decimal_value literal)
                <= Float.ulp (Float.of_decimal (fst literal) (snd literal))
                   * (1 # 2))%Q)
       single_precision_values segment_statistic_literals
  /\ Forall2 (fun v literal =>
               (Qabs (v - decimal_value literal)
                <= decimal_value literal * (1 # 16777216))%Q)
       single_precision_values segment_statistic_literals
  /\ Forall2 (fun v literal => ~ (v == decimal_value literal)%Q)
       (take 5 single_precision_values) (take 5 segment_statistic_literals)
  /\ Forall2 (fun v literal => (v == decimal_value literal)%Q)
       (drop 5 single_precision_values) (drop 5 segment_statistic_literals)
  /\ last segment_statistic_lengths = Some final_threshold
  /\ has_value final_threshold 100
  /\ exists s0 : @source_target_segment_statistics logger,
       source_target_segment_statistics_new segment_statistic_lengths
         segment_statistic_lengths_count p_logger = Some s0
       /\ min_mm <$> source_segments s0
          = Double.zero :: segment_statistic_lengths
       /\ max_mm <$> source_segments s0
          = segment_statistic_lengths ++ [minus_one]
       /\ target_segments s0 = source_segments s0
       /\ forall (calls : list (double * bool))
                 (s : source_target_segment_statistics) (len : double)
                 (is_source : bool),
            updates s0 calls = Some s ->
            total_count is_source s < Int.INT_MAX ->
            Double.geb len final_threshold = true ->
            exists s' (stat : segment_statistic),
              update s len is_source = Some s'
              /\ segments is_source s !! 12%nat = Some stat
              /\ min_mm stat = final_threshold
              /\ segments is_source s'
                 = <[12%nat := {| min_mm := min_mm stat;
                                  max_mm := max_mm stat;
                                  count := count stat + 1 |}]>
                     (segments is_source s).
Proof.
  split; [reflexivity|].
  split; [|split; [|split; [|split; [|split; [|split; [|split]]]]]].
  - repeat constructor.
  - repeat constructor.
  - repeat constructor;
      (eexists; split; [reflexivity|vm_compute; reflexivity]).
  - repeat constructor; (apply Qle_bool_iff; vm_compute; reflexivity).
  - repeat constructor; (apply Qle_bool_iff; vm_compute; reflexivity).
  - repeat constructor; (apply Qeq_bool_neq; vm_compute; reflexivity).
  - repeat constructor; (vm_compute; reflexivity).
  - split; [reflexivity|]. split.
    + eexists. split; [reflexivity|vm_compute; reflexivity].
    + destruct (new_Some segment_statistic_lengths
                  segment_statistic_lengths_count p_logger)
        as (s0 & Hs0 & (Hmin & Hmax & _) & Htgt & _).
      { vm_compute. lia. }
      exists s0. repeat (split; [assumption|]).
      intros calls s len is_source Hrun Htotal Hge.
      pose proof (default_well_formed p_logger s0 s calls Hs0 Hrun) as Hwf.
      assert (Hpos : Double.gtb len Double.zero = true).
      { apply (DoubleFacts.ltb_leb_trans Double.zero final_threshold len);
          [reflexivity|exact Hge]. }
      destruct (update_picks s len is_source Hwf Hpos Htotal)
        as (s' & i & stat & Hs' & Hi & Hins & _ & _ & Hover).
      rewrite (Hover Hge) in Hi, Hins.
      exists s', stat. repeat (split; [assumption|]).
      split; [|exact Hins].
      destruct (well_formed_segments _ s is_source Hwf)
        as [(Hmins & _ & _) _].
      assert (Hlook : (min_mm <$> segments is_source s) !! 12%nat
                      = Some (min_mm stat))
        by (rewrite list_lookup_fmap, Hi; reflexivity).
      rewrite Hmins in Hlook. injection Hlook as <-. reflexivity.
Qed.

(** ** Progress, results and the callback *)

Section Progress.
Context {logger : Type} `{utilities}.

(** C9. The snapshot handed to the progress callback has a field for the
    percent complete, the elapsed and the remaining seconds, the gcodes
    and lines processed, the points compressed, the arcs created, the
    source and target file sizes, and the compression ratio and percent;
    a freshly constructed snapshot has all of them equal to zero. *)
Theorem fresh_progress_zero :
  exists p : @arc_welder_progress logger,
    arc_welder_progress_new = Some p
    /\ percent_complete p = Double.zero
    /\ seconds_elapsed p = Double.zero
    /\ seconds_remaining p = Double.zero
    /\ gcodes_processed p = 0
    /\ lines_processed p = 0
    /\ points_compressed p = 0
    /\ arcs_created p = 0
    /\ source_file_size p = 0
    /\ target_file_size p = 0
    /\ compression_ratio p = Double.zero
    /\ compression_percent p = Double.zero.
Proof.
  unfold arc_welder_progress_new.
  destruct (new_Some (logger := logger) segment_statistic_lengths
              segment_statistic_lengths_count None) as (s0 & -> & _).
  { vm_compute. lia. }
  simpl. eexists. split; [reflexivity|]. simpl. repeat split.
Qed.

(** A freshly constructed result record: no success, no cancellation,
    an empty message, a fresh snapshot. *)
Lemma fresh_results :
  exists (r : @arc_welder_results logger) (p : arc_welder_progress),
    arc_welder_results_new = Some r
    /\ arc_welder_progress_new = Some p
    /\ results_fields r = (false, false, EmptyString, p).
Proof.
  unfold arc_welder_results_new.
  destruct arc_welder_progress_new as [p|] eqn:Hp.
  - simpl. eexists. exists p. repeat split.
  - unfold arc_welder_progress_new in Hp.
    destruct (new_Some (logger := logger) segment_statistic_lengths
                segment_statistic_lengths_count None) as (s0 & Hs0 & _).
    { vm_compute. lia. }
    rewrite Hs0 in Hp. discriminate.
Qed.

(** C10. The progress callback takes a progress snapshot (together with
    the logger and the logger type of the welder) and returns one boolean.
    In the processing loop of the specification, [true] lets the pipeline
    go on to the next notification and, after the last one, to a result
    that is not cancelled; the first [false] stops it: the result is marked
    cancelled and the snapshots that were still due are never looked at. *)
Theorem progress_callback_continue_or_cancel
    (callback : @progress_callback logger) (p_logger : option logger)
    (logger_type : Z) (due : list arc_welder_progress)
    (final : arc_welder_progress) (text : string) :
  (Forall (fun p => callback p p_logger logger_type = true) due ->
   cancelled (process_notifications callback p_logger logger_type due final
                text) = false)
  /\ (forall (before after : list arc_welder_progress)
             (snapshot : arc_welder_progress),
         due = before ++ snapshot :: after ->
         Forall (fun p => callback p p_logger logger_type = true) before ->
         callback snapshot p_logger logger_type = false ->
         cancelled (process_notifications callback p_logger logger_type due
                      final text) = true
         /\ success (process_notifications callback p_logger logger_type due
                       final text) = true
         /\ process_notifications callback p_logger logger_type due final
              text
            = process_notifications callback p_logger logger_type
                (before ++ [snapshot]) final text).
Proof.
  split.
  - induction 1 as [|p due Hp _ IH]; simpl; [reflexivity|].
    rewrite Hp. exact IH.
  - intros before after snapshot -> Hbefore Hstop.
    induction Hbefore as [|p before Hp _ IH]; simpl.
    + rewrite Hstop. auto.
    + rewrite Hp. exact IH.
Qed.
End Progress.

Section ProcessFacts.
Context {logger : Type} `{utilities}.

Implicit Types (callback : @progress_callback logger).
Implicit Types (p_logger : option logger) (logger_type : Z) (text : string).
Implicit Types (events done rest : list (@pipeline_event logger)).
Implicit Types (final : @arc_welder_progress logger).
Implicit Types (results r : @arc_welder_results logger).
Implicit Types (statistics : @source_target_segment_statistics logger).

(** A run that has a result processed a first part of its events, which
    did not stop it, and ended at what follows. *)
Lemma process_events_stop callback p_logger logger_type events final text
    results statistics r :
  cancelled results = false ->
  process_events callback p_logger logger_type events final text results
    statistics = Some r ->
  exists done rest statistics',
    events = done ++ rest
    /\ updates statistics (measured done) = Some statistics'
    /\ continued callback p_logger logger_type done statistics
    /\ progress r = snapshot final statistics'
    /\ stopped callback p_logger logger_type text rest statistics' r.
Proof.
  intros Hfresh. revert statistics.
  induction events as [|event events IH]; intros statistics Hrun.
  - injection Hrun as <-. exists [], [], statistics.
    repeat split. left. cbn. auto.
  - destruct event as [length is_source|counters|error]; cbn in Hrun.
    + destruct (update statistics length is_source) as [statistics1|]
        eqn:Hstep; [|discriminate].
      cbn in Hrun.
      destruct (IH statistics1 Hrun)
        as (done & rest & statistics' & -> & Hdone & Hcont & Hp & Hstop).
      exists (segment_measured length is_source :: done), rest, statistics'.
      split; [reflexivity|]. split.
      { cbn. rewrite Hstep. exact Hdone. }
      split; [|auto]. cbn. eauto.
    + destruct (callback (snapshot counters statistics) p_logger logger_type)
        eqn:Hanswer.
      * destruct (IH statistics Hrun)
          as (done & rest & statistics' & -> & Hdone & Hcont & Hp & Hstop).
        exists (notification_due counters :: done), rest, statistics'.
        split; [reflexivity|]. split; [exact Hdone|].
        split; [|auto]. cbn. auto.
      * injection Hrun as <-.
        exists [], (notification_due counters :: events), statistics.
        repeat split. right. left. exists counters, events. cbn. auto.
    + injection Hrun as <-.
      exists [], (io_failure error :: events), statistics.
      repeat split. right. right. exists error, events. cbn. auto.
Qed.

(** A run has a result when the calls of [update] it may make have one. *)
Lemma process_events_is_Some callback p_logger logger_type events final text
    results statistics :
  is_Some (updates statistics (measured events)) ->
  is_Some (process_events callback p_logger logger_type events final text
             results statistics).
Proof.
  revert statistics.
  induction events as [|event events IH]; intros statistics Hrun;
    [cbn; eauto|].
  destruct event as [length is_source|counters|error]; cbn in *.
  - destruct (update statistics length is_source) as [statistics1|];
      cbn in *; [apply IH; exact Hrun|destruct Hrun; discriminate].
  - destruct (callback _ _ _); [apply IH; exact Hrun|eauto].
  - eauto.
Qed.

(** The two models of the notifications agree: a run that meets only
    notifications ends as [process_notifications] says. *)
Lemma process_events_notifications callback p_logger logger_type
    (due : list (@arc_welder_progress logger)) final text results
    statistics :
  cancelled results = false ->
  process_events callback p_logger logger_type (notification_due <$> due)
    final text results statistics
  = Some (process_notifications callback p_logger logger_type
            ((fun counters => snapshot counters statistics) <$> due)
            (snapshot final statistics) text).
Proof.
  intros Hfresh. induction due as [|counters due IH]; cbn.
  - rewrite Hfresh. reflexivity.
  - destruct (callback _ _ _); [exact IH|reflexivity].
Qed.

(** C8. The value [process()] returns is an [arc_welder_results]: the
    record and the tuple of [success], [cancelled], [message] and
    [progress] determine one another.  A run that makes at most [INT_MAX]
    calls of [update] has a result.  The snapshot [progress] of the result
    is the final one: its statistics are those of a statistics object
    constructed over the thresholds of the program and updated with every
    segment measured before the run stopped, and with no other; the run
    stopped at the end of the events (success, not cancelled), at the
    first notification the callback answered with cancel (success,
    cancelled) or at the first input or output error (no success, the
    message of the error). *)
Theorem process_result_record callback p_logger logger_type events final
    text :
  (Z.of_nat (length (measured events)) <= Int.INT_MAX ->
   is_Some (process callback p_logger logger_type events final text))
  /\ forall r,
       process callback p_logger logger_type events final text = Some r ->
       results_of_fields (results_fields r) = r
       /\ (forall fields : bool * bool * string * @arc_welder_progress logger,
              results_fields (results_of_fields fields) = fields)
       /\ exists (s0 : @source_target_segment_statistics logger) done rest
                 statistics,
            source_target_segment_statistics_new segment_statistic_lengths
              segment_statistic_lengths_count p_logger = Some s0
            /\ events = done ++ rest
            /\ continued callback p_logger logger_type done s0
            /\ updates s0 (measured done) = Some statistics
            /\ progress r = snapshot final statistics
            /\ segment_statistics (progress r) = statistics
            /\ stopped callback p_logger logger_type text rest statistics r.
Proof.
  destruct (@fresh_results logger _)
    as (results & p0 & Hresults & _ & Hfields).
  assert (Hfresh : cancelled results = false).
  { unfold results_fields in Hfields. congruence. }
  split.
  - intros Hbound. unfold process. rewrite Hresults. cbn [mbind option_bind].
    destruct (source_target_segment_statistics_new segment_statistic_lengths
                segment_statistic_lengths_count p_logger) as [s0|] eqn:Hs0.
    2: { destruct (new_Some segment_statistic_lengths
                     segment_statistic_lengths_count p_logger)
           as (s & Hs & _); [vm_compute; lia|congruence]. }
    cbn [mbind option_bind]. apply process_events_is_Some.
    destruct (new_well_formed _ _ _ s0 Hs0) as (Hwf & _ & _ & Hcs & Hct).
    apply (updates_is_Some _ s0 _ Hwf); lia.
  - intros r Hrun. split; [destruct r; reflexivity|].
    split; [intros [[[s c] m] p]; reflexivity|].
    unfold process in Hrun. rewrite Hresults in Hrun.
    cbn [mbind option_bind] in Hrun.
    destruct (source_target_segment_statistics_new segment_statistic_lengths
                segment_statistic_lengths_count p_logger) as [s0|] eqn:Hs0;
      [|discriminate].
    cbn [mbind option_bind] in Hrun.
    destruct (process_events_stop _ _ _ _ _ _ _ _ _ Hfresh Hrun)
      as (done & rest & statistics & Hsplit & Hdone & Hcont & Hp & Hstop).
    exists s0, done, rest, statistics.
    repeat (split; [assumption || reflexivity|]).
    split; [rewrite Hp; reflexivity|exact Hstop].
Qed.
End ProcessFacts.

(** ** The theorems at concrete inputs *)

(** C1 at a fresh statistics object updated with a source segment of
    0.003 mm, then with one of 1.5 mm. *)
Lemma update_increments_one_bucket_witness :
  exists s0 s : @source_target_segment_statistics unit,
    @source_target_segment_statistics_new unit example_utilities
      segment_statistic_lengths segment_statistic_lengths_count None
    = Some s0
    /\ updates s0 [(Double.of_decimal 3 (-3), true)] = Some s
    /\ Double.gtb (Double.of_decimal 15 (-1)) Double.zero = true
    /\ total_count true s < Int.INT_MAX
    /\ exists s' (i : nat) (stat : segment_statistic),
         update s (Double.of_decimal 15 (-1)) true = Some s'
         /\ segments true s !! i = Some stat
         /\ segments true s'
            = <[i := {| min_mm := min_mm stat; max_mm := max_mm stat;
                        count := count stat + 1 |}]> (segments true s)
         /\ (forall j : nat, j <> i ->
                segments true s' !! j = segments true s !! j)
         /\ segments (negb true) s' = segments (negb true) s
         /\ (Double.ltb (Double.of_decimal 15 (-1)) final_threshold = true ->
             in_range stat (Double.of_decimal 15 (-1)) = true
             /\ forall (k : nat) (other : segment_statistic),
                  segments true s !! k = Some other ->
                  in_range other (Double.of_decimal 15 (-1)) = true -> k = i)
         /\ (Double.geb (Double.of_decimal 15 (-1)) final_threshold = true ->
             i = 12%nat /\ S i = length (segments true s)).
Proof.
  eexists. eexists.
  split; [vm_compute; reflexivity|].
  split; [vm_compute; reflexivity|].
  split; [vm_compute; reflexivity|].
  split; [vm_compute; reflexivity|].
  eapply (@update_increments_one_bucket unit example_utilities None)
    with (calls := [(Double.of_decimal 3 (-3), true)]).
  - vm_compute. reflexivity.
  - vm_compute. reflexivity.
  - vm_compute. reflexivity.
  - vm_compute. reflexivity.
Defined.


(** C2 at a fresh statistics object after a source segment of 0.003 mm, a
    target segment of 250 mm and a rejected length of 0, then updated with a
    target segment of 1.5 mm. *)
Lemma statistics_self_consistent_witness :
  exists s0 s s' : @source_target_segment_statistics unit,
    @source_target_segment_statistics_new unit example_utilities
      segment_statistic_lengths segment_statistic_lengths_count None
    = Some s0
    /\ updates s0 [(Double.of_decimal 3 (-3), true);
                   (Double.of_decimal 250 0, false);
                   (Double.zero, true)] = Some s
    /\ sum_counts (source_segments s) = total_count_source s
    /\ sum_counts (target_segments s) = total_count_target s
    /\ source_segments s <> [] /\ target_segments s <> []
    /\ update s (Double.of_decimal 15 (-1)) false = Some s'
    /\ self_consistent s'
    /\ Z.of_nat (length [(Double.of_decimal 3 (-3), true);
                         (Double.of_decimal 250 0, false);
                         (Double.zero, true)]) <= Int.INT_MAX
    /\ exists s2, updates s0 [(Double.of_decimal 3 (-3), true);
                              (Double.of_decimal 250 0, false);
                              (Double.zero, true)] = Some s2.
Proof.
  destruct (@statistics_self_consistent unit example_utilities)
    as (Hruns & Hstep & Hdefined).
  eexists. eexists. eexists.
  split; [vm_compute; reflexivity|].
  split; [vm_compute; reflexivity|].
  match goal with
  | |- sum_counts (source_segments ?s) = _ /\ _ =>
      assert (Hs : sum_counts (source_segments s) = total_count_source s
                   /\ sum_counts (target_segments s) = total_count_target s)
  end.
  { eapply (Hruns segment_statistic_lengths segment_statistic_lengths_count
              None) with (calls := [(Double.of_decimal 3 (-3), true);
                                    (Double.of_decimal 250 0, false);
                                    (Double.zero, true)]).
    - vm_compute. reflexivity.
    - vm_compute. reflexivity. }
  split; [apply Hs|]. split; [apply Hs|].
  split; [discriminate|]. split; [discriminate|].
  split; [vm_compute; reflexivity|].
  split.
  - eapply Hstep with (len := Double.of_decimal 15 (-1)) (is_source := false);
      [| |exact Hs|vm_compute; reflexivity]; discriminate.
  - split; [vm_compute; discriminate|].
    eapply (Hdefined segment_statistic_lengths segment_statistic_lengths_count
              None).
    + vm_compute. reflexivity.
    + vm_compute. discriminate.
Defined.

(** C3 fails as stated: the first threshold, [0.002f], is neither exactly
    2/1000 nor the double nearest to 0.002. *)
Lemma thresholds_not_exact_decimals :
  ~ Forall2 (fun t literal => has_value t (decimal_value literal))
      segment_statistic_lengths segment_statistic_literals
  /\ segment_statistic_lengths !! 0%nat <> Some (Double.of_decimal 2 (-3)).
Proof.
  split.
  - intros Hall. inversion Hall as [|t literal ts literals Hfirst _]; subst.
    destruct Hfirst as (v & Hv & Heq). injection Hv as <-.
    revert Heq. apply Qeq_bool_neq. vm_compute. reflexivity.
  - vm_compute. discriminate.
Qed.

(** C3 (as the code has it) at a target segment of 250 mm, counted by a
    fresh statistics object in the bucket that starts at 100. *)
Lemma thresholds_single_precision_witness :
  exists s0 s' : @source_target_segment_statistics unit,
    @source_target_segment_statistics_new unit example_utilities
      segment_statistic_lengths segment_statistic_lengths_count None
    = Some s0
    /\ updates s0 [] = Some s0
    /\ total_count false s0 < Int.INT_MAX
    /\ Double.geb (Double.of_decimal 250 0) final_threshold = true
    /\ update s0 (Double.of_decimal 250 0) false = Some s'
    /\ count <$> target_segments s' = [0; 0; 0; 0; 0; 0; 0; 0; 0; 0; 0; 0; 1].
Proof.
  destruct (@thresholds_single_precision unit example_utilities None)
    as (_ & _ & _ & _ & _ & _ & _ & _ & _ & _
        & s0 & Hs0 & _ & _ & _ & Hover).
  assert (Hfresh : Some s0 = @source_target_segment_statistics_new unit
                     example_utilities segment_statistic_lengths
                     segment_statistic_lengths_count None)
    by (symmetry; exact Hs0).
  vm_compute in Hfresh. injection Hfresh as ->.
  match type of Hover with
  | forall calls s len b, updates ?fresh calls = Some s -> _ =>
      destruct (Hover [] fresh (Double.of_decimal 250 0) false eq_refl)
        as (s' & stat & Hs' & _);
      [vm_compute; reflexivity|vm_compute; reflexivity|];
      exists fresh, s'
  end.
  split; [vm_compute; reflexivity|].
  split; [reflexivity|].
  split; [vm_compute; reflexivity|].
  split; [vm_compute; reflexivity|].
  split; [exact Hs'|].
  vm_compute in Hs'. injection Hs' as <-. reflexivity.
Defined.

(** C4 (as the code has it) at a fresh statistics object after source
    segments of 0.003 mm and 1.5 mm, a target segment of 250 mm, and a
    rejected length of -1. *)
Lemma update_totals_witness :
  exists s0 s : @source_target_segment_statistics unit,
    let calls := [(Double.of_decimal 3 (-3), true);
                  (Double.of_decimal 250 0, false);
                  (Double.of_decimal (-1) 0, true);
                  (Double.of_decimal 15 (-1), true)] in
    @source_target_segment_statistics_new unit example_utilities
      segment_statistic_lengths segment_statistic_lengths_count None
    = Some s0
    /\ updates s0 calls = Some s
    /\ (forall call : double * bool,
           In call calls -> Double.is_nan (fst call) = false)
    /\ total_length_source s = running_sum (positive_lengths true calls)
    /\ total_count_source s = 2
    /\ total_length_target s = running_sum (positive_lengths false calls)
    /\ total_count_target s = 1.
Proof.
  eexists. eexists. intros calls.
  split; [vm_compute; reflexivity|].
  split; [vm_compute; reflexivity|].
  assert (Hnan : forall call : double * bool,
             In call calls -> Double.is_nan (fst call) = false).
  { intros call [<-|[<-|[<-|[<-|[]]]]]; reflexivity. }
  split; [exact Hnan|].
  edestruct (@update_totals unit example_utilities segment_statistic_lengths
               segment_statistic_lengths_count None)
    with (calls := calls) as (_ & Htotals & Hpos).
  { vm_compute. reflexivity. }
  edestruct Htotals as (Hls & Hcs & Hlt & Hct).
  { vm_compute. reflexivity. }
  destruct (Hpos Hnan) as [Hps Hpt].
  rewrite <- Hps, <- Hpt. repeat split; assumption.
Defined.

(** C4 fails as stated: a NaN length is not greater than 0, yet [update]
    counts it and adds it to the total length. *)
Lemma nan_length_is_counted :
  ~ (forall (calls : list (double * bool))
            (s0 s : @source_target_segment_statistics unit),
        @source_target_segment_statistics_new unit example_utilities
          segment_statistic_lengths segment_statistic_lengths_count None
        = Some s0 ->
        updates s0 calls = Some s ->
        total_length_source s = running_sum (positive_lengths true calls)
        /\ total_count_source s
           = Z.of_nat (length (positive_lengths true calls))).
Proof.
  intros Hclaim.
  edestruct (Hclaim [(S754_nan, true)]) as [_ Hcount].
  { vm_compute. reflexivity. }
  { vm_compute. reflexivity. }
  vm_compute in Hcount. discriminate.
Qed.

(** C5 at the twelve fixed thresholds. *)
Lemma constructor_buckets_witness :
  (Z.to_nat segment_statistic_lengths_count
   <= length segment_statistic_lengths)%nat
  /\ exists s : @source_target_segment_statistics unit,
       @source_target_segment_statistics_new unit example_utilities
         segment_statistic_lengths segment_statistic_lengths_count None
       = Some s
       /\ length (source_segments s) = 13%nat
       /\ length (target_segments s) = 13%nat
       /\ total_count_source s = 0 /\ total_count_target s = 0.
Proof.
  assert (Hlen : (Z.to_nat segment_statistic_lengths_count
                  <= length segment_statistic_lengths)%nat)
    by (vm_compute; lia).
  split; [exact Hlen|].
  destruct (@constructor_buckets unit example_utilities
              segment_statistic_lengths segment_statistic_lengths_count
              None Hlen)
    as (s & Hs & Hsrc & Htgt & _ & _ & _ & Hcs & Hct).
  exists s. repeat split; assumption.
Defined.

(** C6 at a fresh statistics object and the lengths -1 and -0.0. *)
Lemma update_nonpositive_unchanged_witness :
  exists s0 : @source_target_segment_statistics unit,
    @source_target_segment_statistics_new unit example_utilities
      segment_statistic_lengths segment_statistic_lengths_count None
    = Some s0
    /\ Double.leb (Double.of_decimal (-1) 0) Double.zero = true
    /\ update s0 (Double.of_decimal (-1) 0) true = Some s0
    /\ Double.leb (S754_zero true) Double.zero = true
    /\ update s0 (S754_zero true) false = Some s0.
Proof.
  eexists. split; [vm_compute; reflexivity|].
  split; [reflexivity|].
  split; [apply update_nonpositive_unchanged; reflexivity|].
  split; [reflexivity|].
  apply update_nonpositive_unchanged. reflexivity.
Defined.

(** C7 at a fresh statistics object and a segment of 1.5 mm on either
    side. *)
Lemma update_frame_witness :
  exists s0 s1 s2 : @source_target_segment_statistics unit,
    @source_target_segment_statistics_new unit example_utilities
      segment_statistic_lengths segment_statistic_lengths_count None
    = Some s0
    /\ update s0 (Double.of_decimal 15 (-1)) true = Some s1
    /\ update s0 (Double.of_decimal 15 (-1)) false = Some s2
    /\ (total_length_target s1 = total_length_target s0
        /\ total_count_target s1 = total_count_target s0
        /\ target_segments s1 = target_segments s0)
    /\ (total_length_source s2 = total_length_source s0
        /\ total_count_source s2 = total_count_source s0
        /\ source_segments s2 = source_segments s0).
Proof.
  eexists. eexists. eexists.
  split; [vm_compute; reflexivity|].
  split; [vm_compute; reflexivity|].
  split; [vm_compute; reflexivity|].
  split.
  - eapply (update_frame _ _ (Double.of_decimal 15 (-1))).
    vm_compute. reflexivity.
  - eapply (update_frame _ _ (Double.of_decimal 15 (-1))).
    vm_compute. reflexivity.
Defined.

(** C10 at a callback that cancels once 1000 lines have been processed. *)
Lemma progress_callback_continue_or_cancel_witness :
  exists p0 : @arc_welder_progress unit,
    let at_line (n : Z) : @arc_welder_progress unit :=
      {| percent_complete := percent_complete p0;
         seconds_elapsed := seconds_elapsed p0;
         seconds_remaining := seconds_remaining p0;
         gcodes_processed := gcodes_processed p0;
         lines_processed := n;
         points_compressed := points_compressed p0;
         arcs_created := arcs_created p0;
         compression_ratio := compression_ratio p0;
         compression_percent := compression_percent p0;
         source_file_position := source_file_position p0;
         source_file_size := source_file_size p0;
         target_file_size := target_file_size p0;
         segment_statistics := segment_statistics p0 |} in
    let callback : @progress_callback unit :=
      fun p _ _ => lines_processed p <? 1000 in
    @arc_welder_progress_new unit example_utilities = Some p0
    /\ Forall (fun p => callback p None 0 = true) [at_line 250; at_line 500]
    /\ cancelled (process_notifications callback None 0
                    [at_line 250; at_line 500] (at_line 600) EmptyString)
       = false
    /\ callback (at_line 1000) None 0 = false
    /\ cancelled (process_notifications callback None 0
                    ([at_line 250; at_line 500]
                     ++ at_line 1000 :: [at_line 1500])
                    (at_line 1000) EmptyString)
       = true.
Proof.
  eexists. intros at_line callback.
  split; [vm_compute; reflexivity|].
  assert (Hbefore : Forall (fun p => callback p None 0 = true)
                      [at_line 250; at_line 500])
    by (repeat constructor).
  split; [exact Hbefore|].
  split.
  - apply (progress_callback_continue_or_cancel callback None 0
             [at_line 250; at_line 500] (at_line 600) EmptyString).
    exact Hbefore.
  - split; [reflexivity|].
    destruct (progress_callback_continue_or_cancel callback None 0
                ([at_line 250; at_line 500] ++ at_line 1000 :: [at_line 1500])
                (at_line 1000) EmptyString) as [_ Hcancel].
    destruct (Hcancel [at_line 250; at_line 500] [at_line 1500]
                (at_line 1000) eq_refl Hbefore eq_refl) as [Hcancelled _].
    exact Hcancelled.
Defined.

(** C8 at a run of three measured segments and two notifications, with a
    callback that cancels as soon as the snapshot shows a target segment:
    the run stops at the second notification, and the final statistics
    count the two segments measured before it. *)
Lemma process_result_record_witness :
  exists (p0 : @arc_welder_progress unit) (r : @arc_welder_results unit),
    @arc_welder_progress_new unit example_utilities = Some p0
    /\ Z.of_nat
         (length
            (measured
               [segment_measured (Double.of_decimal 15 (-1)) true;
                notification_due p0;
                segment_measured (Double.of_decimal 250 0) false;
                notification_due p0;
                segment_measured (Double.of_decimal 3 (-1)) true]))
       <= Int.INT_MAX
    /\ @process unit example_utilities
         (fun p _ _ => total_count_target (segment_statistics p) =? 0) None 0
         [segment_measured (Double.of_decimal 15 (-1)) true;
          notification_due p0;
          segment_measured (Double.of_decimal 250 0) false;
          notification_due p0;
          segment_measured (Double.of_decimal 3 (-1)) true]
         p0 "Cancelled." = Some r
    /\ is_Some
         (@process unit example_utilities
            (fun p _ _ => total_count_target (segment_statistics p) =? 0)
            None 0
            [segment_measured (Double.of_decimal 15 (-1)) true;
             notification_due p0;
             segment_measured (Double.of_decimal 250 0) false;
             notification_due p0;
             segment_measured (Double.of_decimal 3 (-1)) true]
            p0 "Cancelled.")
    /\ results_fields r = (true, true, "Cancelled.", progress r)
    /\ total_count_source (segment_statistics (progress r)) = 1
    /\ total_count_target (segment_statistics (progress r)) = 1
    /\ results_of_fields (results_fields r) = r
    /\ exists (s0 : @source_target_segment_statistics unit)
              (done rest : list (@pipeline_event unit))
              (statistics : @source_target_segment_statistics unit),
         @source_target_segment_statistics_new unit example_utilities
           segment_statistic_lengths segment_statistic_lengths_count None
         = Some s0
         /\ [segment_measured (Double.of_decimal 15 (-1)) true;
             notification_due p0;
             segment_measured (Double.of_decimal 250 0) false;
             notification_due p0;
             segment_measured (Double.of_decimal 3 (-1)) true]
            = done ++ rest
         /\ continued
              (fun p _ _ => total_count_target (segment_statistics p) =? 0)
              None 0 done s0
         /\ updates s0 (measured done) = Some statistics
         /\ progress r = snapshot p0 statistics
         /\ segment_statistics (progress r) = statistics
         /\ stopped
              (fun p _ _ => total_count_target (segment_statistics p) =? 0)
              None 0 "Cancelled." rest statistics r.
Proof.
  eexists. eexists.
  split; [vm_compute; reflexivity|].
  split; [vm_compute; discriminate|].
  match goal with
  | |- process ?callback ?p_logger ?logger_type ?events ?final ?text = _
       /\ _ =>
      destruct (@process_result_record unit example_utilities callback
                  p_logger logger_type events final text)
        as [Hdefined Hresult]
  end.
  split; [vm_compute; reflexivity|].
  split; [apply Hdefined; vm_compute; discriminate|].
  split; [vm_compute; reflexivity|].
  split; [vm_compute; reflexivity|].
  split; [vm_compute; reflexivity|].
  match type of Hresult with
  | forall r, _ = Some r -> _ =>
      edestruct Hresult as (Hrecord & _ & Hfinal);
        [vm_compute; reflexivity|]
  end.
  split; [exact Hrecord|exact Hfinal].
Defined.

(** * Further properties of the statistics *)

(** ** [update] on any statistics object *)

Section UpdateAnyObject.
Context {logger : Type}.

Implicit Types (s : @source_target_segment_statistics logger).
Implicit Types (stats : list segment_statistic) (len : double).

(** The loop never touches the bounds of a bucket nor the number of
    buckets. *)
Lemma update_loop_bounds len (n index : nat) stats stats' :
  update_loop len n index stats = Some stats' ->
  min_mm <$> stats' = min_mm <$> stats
  /\ max_mm <$> stats' = max_mm <$> stats
  /\ length stats' = length stats.
Proof.
  revert index. induction n as [|n IH]; intros index Hrun; simpl in Hrun.
  - injection Hrun as <-. auto.
  - destruct (stats !! index) as [stat|] eqn:Hstat;
      [|injection Hrun as <-; auto].
    destruct (in_range stat len || (index + 1 =? length stats)%nat);
      [|exact (IH _ Hrun)].
    destruct (count_incr stat) as [stat'|] eqn:Hincr; simpl in Hrun;
      [|discriminate].
    injection Hrun as <-. apply count_incr_Some in Hincr as [_ ->].
    rewrite !list_fmap_insert, length_insert. simpl.
    rewrite !list_insert_id; auto; rewrite list_lookup_fmap, Hstat;
      reflexivity.
Qed.

(** The index of [pick] is the one the first-match description fixes. *)
Lemma pick_unique len stats (i : nat) (stat : segment_statistic) :
  stats !! i = Some stat ->
  (in_range stat len = true \/ S i = length stats) ->
  (forall (j : nat) (stat' : segment_statistic),
      (j < i)%nat -> stats !! j = Some stat' -> in_range stat' len = false) ->
  pick len stats = i.
Proof.
  revert i. induction stats as [|a stats IH]; intros i Hi Hwhy Hbefore;
    [discriminate|].
  destruct i as [|i]; simpl in *.
  - injection Hi as ->.
    destruct Hwhy as [->|Hlast]; [reflexivity|].
    destruct stats; [|discriminate]. rewrite orb_true_r. reflexivity.
  - rewrite (Hbefore 0%nat a (Nat.lt_0_succ i) eq_refl). simpl.
    destruct stats as [|b stats]; [discriminate|].
    f_equal. apply IH; auto.
    + destruct Hwhy as [Hin|Hlast]; [left; exact Hin|right; lia].
    + intros j stat' Hj Hstat'. apply (Hbefore (S j)); [lia|exact Hstat'].
Qed.

Lemma pick_lt len stats : stats <> [] -> (pick len stats < length stats)%nat.
Proof.
  induction stats as [|a stats IH]; intros Hne; [congruence|]. simpl.
  destruct (in_range a len || match stats with [] => true | _ => false end)
    eqn:Hstop; [lia|].
  apply orb_false_iff in Hstop as [_ Hrest].
  destruct stats as [|b stats]; [discriminate|].
  apply -> Nat.succ_lt_mono. apply IH. discriminate.
Qed.

(** [pick] looks at the bounds of the buckets only. *)
Lemma pick_bounds len stats stats' :
  min_mm <$> stats' = min_mm <$> stats ->
  max_mm <$> stats' = max_mm <$> stats ->
  pick len stats' = pick len stats.
Proof.
  revert stats'.
  induction stats as [|a stats IH]; intros [|a' stats'] Hmin Hmax;
    try discriminate; [reflexivity|].
  rewrite !fmap_cons in Hmin, Hmax.
  injection Hmin as Ha Hmin. injection Hmax as Ha' Hmax. simpl.
  unfold in_range. rewrite Ha, Ha'.
  rewrite (IH stats' Hmin Hmax).
  assert (Hnil : match stats' with [] => true | _ => false end
                 = match stats with [] => true | _ => false end).
  { destruct stats, stats'; try discriminate; reflexivity. }
  rewrite Hnil. reflexivity.
Qed.

(** The loop adds one to the bucket [pick] names, and to no other. *)
Lemma update_loop_pick len stats stats' :
  stats <> [] ->
  update_loop len (length stats) 0 stats = Some stats' ->
  exists stat : segment_statistic,
    stats !! pick len stats = Some stat
    /\ count stat < Int.INT_MAX
    /\ stats' = <[pick len stats := bumped stat]> stats.
Proof.
  intros Hne Hrun.
  destruct (update_loop_Some len (length stats) 0 stats stats' Hrun)
    as (i & stat & _ & Hi & Hc & -> & Hwhy & Hbefore); [|lia|].
  - destruct stats; [congruence|simpl; lia].
  - assert (Hpick : pick len stats = i).
    { apply (pick_unique len stats i stat Hi).
      - destruct Hwhy as [Hin|Hlast]; [left; exact Hin|right; lia].
      - intros j stat' Hj. apply Hbefore. lia. }
    rewrite Hpick. exists stat. auto.
Qed.

(** What [pick] names: a bucket that contains the length or is the last
    one, with no bucket before it containing the length. *)
Lemma pick_first len stats :
  stats <> [] ->
  exists stat : segment_statistic,
    stats !! pick len stats = Some stat
    /\ (in_range stat len = true \/ S (pick len stats) = length stats)
    /\ forall (j : nat) (stat' : segment_statistic),
         (j < pick len stats)%nat -> stats !! j = Some stat' ->
         in_range stat' len = false.
Proof.
  induction stats as [|a stats IH]; intros Hne; [congruence|]. simpl.
  destruct (in_range a len) eqn:Hin; simpl.
  - exists a. split; [reflexivity|]. split; [left; exact Hin|].
    intros j stat' Hj. lia.
  - destruct stats as [|b stats].
    + exists a. split; [reflexivity|]. split; [right; reflexivity|].
      intros j stat' Hj. lia.
    + destruct IH as (stat & Hstat & Hwhy & Hbefore); [discriminate|].
      exists stat. split; [exact Hstat|]. split.
      * destruct Hwhy as [Hw|Hw]; [left; exact Hw|right; simpl in *; lia].
      * intros [|j] stat' Hj Hstat'.
        -- injection Hstat' as <-. exact Hin.
        -- apply (Hbefore j); [lia|exact Hstat'].
Qed.

(** The loop as one step: add one to the bucket [pick] names. *)
Lemma update_loop_from len (n index : nat) stats :
  (index < length stats)%nat -> (length stats <= index + n)%nat ->
  update_loop len n index stats
  = (stat ← stats !! (index + pick len (drop index stats))%nat;
     stat' ← count_incr stat;
     Some (<[(index + pick len (drop index stats))%nat := stat']> stats)).
Proof.
  revert index. induction n as [|n IH]; intros index Hlt Hfuel; [lia|].
  destruct (stats !! index) as [stat|] eqn:Hstat.
  2:{ apply lookup_ge_None in Hstat. lia. }
  simpl. rewrite Hstat, (drop_S _ _ _ Hstat). simpl.
  assert (Hlast : (index + 1 =? length stats)%nat
                  = match drop (S index) stats with
                    | [] => true
                    | _ => false
                    end).
  { destruct (drop (S index) stats) as [|b rest] eqn:Hdrop.
    - apply drop_nil_inv in Hdrop. apply Nat.eqb_eq. lia.
    - apply Nat.eqb_neq. intros Heq.
      rewrite drop_ge in Hdrop by lia. discriminate. }
  rewrite <- Hlast.
  destruct (in_range stat len || (index + 1 =? length stats)%nat) eqn:Hstop.
  - rewrite Nat.add_0_r, Hstat. reflexivity.
  - apply orb_false_iff in Hstop as [_ Hne]. apply Nat.eqb_neq in Hne.
    rewrite IH by lia. rewrite Nat.add_succ_r. reflexivity.
Qed.

Lemma update_loop_step len stats :
  stats <> [] ->
  update_loop len (length stats) 0 stats
  = (stat ← stats !! pick len stats;
     stat' ← count_incr stat;
     Some (<[pick len stats := stat']> stats)).
Proof.
  intros Hne. rewrite update_loop_from; [reflexivity| |lia].
  destruct stats; [congruence|simpl; lia].
Qed.

(** What a call of [update] that passes the guard does, on any object. *)
Lemma update_picked s len (is_source : bool) :
  segments is_source s <> [] ->
  Double.leb len Double.zero = false ->
  exists stat : segment_statistic,
    segments is_source s !! pick len (segments is_source s) = Some stat
    /\ (in_range stat len = true
        \/ S (pick len (segments is_source s))
           = length (segments is_source s))
    /\ (forall (j : nat) (stat' : segment_statistic),
           (j < pick len (segments is_source s))%nat ->
           segments is_source s !! j = Some stat' ->
           in_range stat' len = false)
    /\ (is_Some (update s len is_source) <->
        total_count is_source s < Int.INT_MAX /\ count stat < Int.INT_MAX)
    /\ forall s',
         update s len is_source = Some s' ->
         segments is_source s'
         = <[pick len (segments is_source s) := bumped stat]>
             (segments is_source s)
         /\ total_count is_source s' = total_count is_source s + 1
         /\ total_length is_source s'
            = Double.add (total_length is_source s) len.
Proof.
  intros Hne Hguard.
  destruct (pick_first len (segments is_source s) Hne)
    as (stat & Hstat & Hwhy & Hbefore).
  exists stat. split; [exact Hstat|]. split; [exact Hwhy|].
  split; [exact Hbefore|]. split.
  - split.
    + intros [s' Hs'].
      destruct (update_counted s s' len is_source Hguard Hs')
        as (Hloop & Htotal & _).
      split; [exact Htotal|].
      destruct (update_loop_pick len _ _ Hne Hloop)
        as (stat1 & Hstat1 & Hc & _).
      rewrite Hstat in Hstat1. injection Hstat1 as <-. exact Hc.
    + intros [Htotal Hc]. unfold update. rewrite Hguard.
      assert (Hincr : Int.incr (total_count is_source s)
                      = Some (total_count is_source s + 1))
        by (apply incr_Some; auto).
      assert (Hloop : is_Some (update_loop len
                                 (length (segments is_source s)) 0
                                 (segments is_source s))).
      { rewrite (update_loop_step len _ Hne), Hstat. simpl.
        assert (Hb : count_incr stat = Some (bumped stat))
          by (apply count_incr_Some; auto).
        rewrite Hb. simpl. eauto. }
      destruct Hloop as [stats' Hloop].
      destruct is_source; simpl in *; rewrite Hincr; simpl;
        rewrite Hloop; simpl; eauto.
  - intros s' Hs'.
    destruct (update_counted s s' len is_source Hguard Hs')
      as (Hloop & _ & Hcount & Hlength & _).
    destruct (update_loop_pick len _ _ Hne Hloop)
      as (stat1 & Hstat1 & _ & Hins).
    rewrite Hstat in Hstat1. injection Hstat1 as <-. auto.
Qed.

(** X1. On any statistics object with at least one bucket on the chosen
    side, a call of [update] that passes the guard is defined exactly when
    the total count of that side and the count of the bucket [pick] names
    are below [INT_MAX]; it then adds one to that bucket, which is the first
    bucket whose range contains the length, or the last bucket when none
    does, adds one to the total count and adds the length to the total
    length of that side, and leaves every other bucket as it was. *)
Theorem update_first_match s len (is_source : bool) :
  segments is_source s <> [] ->
  Double.leb len Double.zero = false ->
  exists stat : segment_statistic,
    segments is_source s !! pick len (segments is_source s) = Some stat
    /\ (in_range stat len = true
        \/ S (pick len (segments is_source s))
           = length (segments is_source s))
    /\ (forall (j : nat) (stat' : segment_statistic),
           (j < pick len (segments is_source s))%nat ->
           segments is_source s !! j = Some stat' ->
           in_range stat' len = false)
    /\ (is_Some (update s len is_source) <->
        total_count is_source s < Int.INT_MAX /\ count stat < Int.INT_MAX)
    /\ forall s',
         update s len is_source = Some s' ->
         segments is_source s'
         = <[pick len (segments is_source s) := bumped stat]>
             (segments is_source s)
         /\ total_count is_source s' = total_count is_source s + 1
         /\ total_length is_source s'
            = Double.add (total_length is_source s) len.
Proof. exact (update_picked s len is_source). Qed.

(** What a single call leaves alone, whatever it does. *)
Lemma update_layout s s' len (is_source : bool) :
  update s len is_source = Some s' ->
  min_mm <$> source_segments s' = min_mm <$> source_segments s
  /\ max_mm <$> source_segments s' = max_mm <$> source_segments s
  /\ min_mm <$> target_segments s' = min_mm <$> target_segments s
  /\ max_mm <$> target_segments s' = max_mm <$> target_segments s
  /\ max_width s' = max_width s
  /\ max_precision s' = max_precision s
  /\ num_segment_tracking_lengths s' = num_segment_tracking_lengths s
  /\ p_logger_ s' = p_logger_ s
  /\ logger_type_ s' = logger_type_ s.
Proof.
  unfold update. destruct (Double.leb len Double.zero).
  { intros [= <-]. repeat split. }
  destruct is_source.
  - destruct (Int.incr (total_count_source s)) as [c|]; simpl;
      [|discriminate].
    destruct (update_loop len _ 0 (source_segments s)) as [stats'|] eqn:Hloop;
      simpl; [|discriminate].
    intros [= <-]. simpl.
    destruct (update_loop_bounds len _ 0 _ _ Hloop) as (Hmin & Hmax & _).
    repeat split; assumption.
  - destruct (Int.incr (total_count_target s)) as [c|]; simpl;
      [|discriminate].
    destruct (update_loop len _ 0 (target_segments s)) as [stats'|] eqn:Hloop;
      simpl; [|discriminate].
    intros [= <-]. simpl.
    destruct (update_loop_bounds len _ 0 _ _ Hloop) as (Hmin & Hmax & _).
    repeat split; assumption.
Qed.

(** What a run of calls leaves alone. *)
Lemma updates_layout s s' (calls : list (double * bool)) :
  updates s calls = Some s' ->
  min_mm <$> source_segments s' = min_mm <$> source_segments s
  /\ max_mm <$> source_segments s' = max_mm <$> source_segments s
  /\ min_mm <$> target_segments s' = min_mm <$> target_segments s
  /\ max_mm <$> target_segments s' = max_mm <$> target_segments s
  /\ length (source_segments s') = length (source_segments s)
  /\ length (target_segments s') = length (target_segments s)
  /\ max_width s' = max_width s
  /\ max_precision s' = max_precision s
  /\ num_segment_tracking_lengths s' = num_segment_tracking_lengths s
  /\ p_logger_ s' = p_logger_ s
  /\ logger_type_ s' = logger_type_ s.
Proof.
  revert s. induction calls as [|[len b] calls IH]; intros s Hrun;
    simpl in Hrun.
  - injection Hrun as <-. repeat split.
  - destruct (update s len b) as [s1|] eqn:Hstep; simpl in Hrun;
      [|discriminate].
    destruct (update_layout s s1 len b Hstep)
      as (H1 & H2 & H3 & H4 & H5 & H6 & H7 & H8 & H9).
    destruct (IH s1 Hrun)
      as (I1 & I2 & I3 & I4 & I5 & I6 & I7 & I8 & I9 & I10 & I11).
    assert (Hls : length (source_segments s1) = length (source_segments s))
      by (rewrite <- (length_fmap min_mm), H1, length_fmap; reflexivity).
    assert (Hlt : length (target_segments s1) = length (target_segments s))
      by (rewrite <- (length_fmap min_mm), H3, length_fmap; reflexivity).
    repeat split; congruence.
Qed.

(** X2. No sequence of [update] calls, on any statistics object, changes
    the bounds of a bucket, the number of buckets of either side, or any of
    [max_width], [max_precision], [num_segment_tracking_lengths] and the
    logger fields: [update] only ever writes counts and totals. *)
Theorem updates_keep_layout s s' (calls : list (double * bool)) :
  updates s calls = Some s' ->
  min_mm <$> source_segments s' = min_mm <$> source_segments s
  /\ max_mm <$> source_segments s' = max_mm <$> source_segments s
  /\ min_mm <$> target_segments s' = min_mm <$> target_segments s
  /\ max_mm <$> target_segments s' = max_mm <$> target_segments s
  /\ length (source_segments s') = length (source_segments s)
  /\ length (target_segments s') = length (target_segments s)
  /\ max_width s' = max_width s
  /\ max_precision s' = max_precision s
  /\ num_segment_tracking_lengths s' = num_segment_tracking_lengths s
  /\ p_logger_ s' = p_logger_ s
  /\ logger_type_ s' = logger_type_ s.
Proof. exact (updates_layout s s' calls). Qed.
End UpdateAnyObject.

(** ** Runs of [update] *)

Section Runs.
Context {logger : Type}.

Implicit Types (s : @source_target_segment_statistics logger).
Implicit Types (stats : list segment_statistic) (len : double).

Lemma calls_picking_bounds (is_source : bool) stats stats' (i : nat)
    (calls : list (double * bool)) :
  min_mm <$> stats' = min_mm <$> stats ->
  max_mm <$> stats' = max_mm <$> stats ->
  calls_picking is_source stats' i calls
  = calls_picking is_source stats i calls.
Proof.
  intros Hmin Hmax. unfold calls_picking. apply List.filter_ext.
  intros [len b]. simpl. rewrite (pick_bounds len stats stats' Hmin Hmax).
  reflexivity.
Qed.

(** One call and one bucket. *)
Lemma update_bucket s s' len (b is_source : bool) (i : nat)
    (stat : segment_statistic) :
  segments is_source s <> [] ->
  update s len b = Some s' ->
  segments is_source s !! i = Some stat ->
  exists stat' : segment_statistic,
    segments is_source s' !! i = Some stat'
    /\ min_mm stat' = min_mm stat /\ max_mm stat' = max_mm stat
    /\ count stat' = count stat
         + Z.of_nat (length (calls_picking is_source (segments is_source s) i
                               [(len, b)])).
Proof.
  intros Hne Hstep Hi. unfold calls_picking. simpl.
  destruct (Double.leb len Double.zero) eqn:Hguard; simpl.
  { rewrite (update_rejected s len b Hguard) in Hstep. injection Hstep as <-.
    exists stat. repeat split; auto. lia. }
  destruct (update_counted s s' len b Hguard Hstep)
    as (Hloop & _ & _ & _ & Hother & _).
  destruct (Bool.eqb b is_source) eqn:Hside; simpl.
  - apply Bool.eqb_prop in Hside. subst b.
    destruct (update_loop_pick len _ _ Hne Hloop) as (picked & Hp & _ & Hins).
    rewrite Hins.
    destruct (Nat.eqb_spec (pick len (segments is_source s)) i) as [Heq|Hneq].
    + subst i. rewrite Hi in Hp. injection Hp as <-.
      exists (bumped stat). rewrite list_lookup_insert_eq
        by (apply (lookup_lt_Some _ _ _ Hi)).
      simpl. repeat split; auto.
    + exists stat. rewrite list_lookup_insert_ne by exact Hneq.
      repeat split; auto. simpl. lia.
  - assert (Hneg : negb b = is_source)
      by (destruct b, is_source; simpl in *; congruence).
    rewrite Hneg in Hother. rewrite Hother.
    exists stat. repeat split; auto. lia.
Qed.

Lemma calls_picking_cons (is_source : bool) stats (i : nat)
    (call : double * bool) (calls : list (double * bool)) :
  length (calls_picking is_source stats i (call :: calls))
  = (length (calls_picking is_source stats i [call])
     + length (calls_picking is_source stats i calls))%nat.
Proof.
  unfold calls_picking. simpl.
  destruct (negb (Double.leb call.1 Double.zero) && eqb call.2 is_source
            && (pick call.1 stats =? i)%nat); reflexivity.
Qed.

(** The count of a bucket after a run of calls. *)
Lemma updates_bucket_count s s' (calls : list (double * bool))
    (is_source : bool) (i : nat) (stat : segment_statistic) :
  source_segments s <> [] -> target_segments s <> [] ->
  updates s calls = Some s' ->
  segments is_source s !! i = Some stat ->
  exists stat' : segment_statistic,
    segments is_source s' !! i = Some stat'
    /\ min_mm stat' = min_mm stat /\ max_mm stat' = max_mm stat
    /\ count stat' = count stat
         + Z.of_nat (length (calls_picking is_source (segments is_source s) i
                               calls)).
Proof.
  revert s stat. induction calls as [|[len b] calls IH];
    intros s stat Hsrc Htgt Hrun Hi; simpl in Hrun.
  - injection Hrun as <-. exists stat. simpl. repeat split; auto. lia.
  - destruct (update s len b) as [s1|] eqn:Hstep; simpl in Hrun;
      [|discriminate].
    assert (Hne : segments is_source s <> [])
      by (destruct is_source; assumption).
    destruct (update_bucket s s1 len b is_source i stat Hne Hstep Hi)
      as (stat1 & Hi1 & Hmin1 & Hmax1 & Hc1).
    destruct (update_layout s s1 len b Hstep)
      as (H1 & H2 & H3 & H4 & _).
    assert (Hsrc1 : source_segments s1 <> []).
    { intros Hnil. rewrite Hnil in H1. destruct (source_segments s);
        [congruence|discriminate]. }
    assert (Htgt1 : target_segments s1 <> []).
    { intros Hnil. rewrite Hnil in H3. destruct (target_segments s);
        [congruence|discriminate]. }
    destruct (IH s1 stat1 Hsrc1 Htgt1 Hrun Hi1)
      as (stat' & Hi' & Hmin' & Hmax' & Hc').
    exists stat'. split; [exact Hi'|]. split; [congruence|].
    split; [congruence|].
    rewrite Hc', Hc1, (calls_picking_cons is_source _ i (len, b) calls).
    rewrite (calls_picking_bounds is_source (segments is_source s)
               (segments is_source s1) i calls);
      [lia| |]; destruct is_source; assumption.
Qed.

(** X3. After any sequence of [update] calls on a statistics object with at
    least one bucket per side, every bucket keeps its bounds and its count
    has grown by the number of calls of its side that passed the guard and
    whose length [pick] sends to it (the first bucket containing the
    length, else the last): the histogram counts each such call once, in
    the bucket the bounds determine, whatever came before. *)
Theorem updates_bucket_counts s s' (calls : list (double * bool))
    (is_source : bool) (i : nat) (stat : segment_statistic) :
  source_segments s <> [] -> target_segments s <> [] ->
  updates s calls = Some s' ->
  segments is_source s !! i = Some stat ->
  exists stat' : segment_statistic,
    segments is_source s' !! i = Some stat'
    /\ min_mm stat' = min_mm stat /\ max_mm stat' = max_mm stat
    /\ count stat' = count stat
         + Z.of_nat (length (calls_picking is_source (segments is_source s) i
                               calls)).
Proof. exact (updates_bucket_count s s' calls is_source i stat). Qed.

(** The total count of a side never exceeds [INT_MAX]. *)
Lemma updates_total_bounded s s' (calls : list (double * bool))
    (is_source : bool) :
  total_count is_source s <= Int.INT_MAX ->
  updates s calls = Some s' ->
  total_count is_source s' <= Int.INT_MAX.
Proof.
  revert s. induction calls as [|[len b] calls IH]; intros s Hle Hrun;
    simpl in Hrun.
  - injection Hrun as <-. exact Hle.
  - destruct (update s len b) as [s1|] eqn:Hstep; simpl in Hrun;
      [|discriminate].
    apply (IH s1); [|exact Hrun].
    destruct (Double.leb len Double.zero) eqn:Hguard.
    + rewrite (update_rejected s len b Hguard) in Hstep.
      injection Hstep as <-. exact Hle.
    + destruct (update_counted s s1 len b Hguard Hstep)
        as (_ & Hlt & Hcount & _ & _ & Hother & _).
      destruct b, is_source; simpl in *; lia.
Qed.

(** A run on a well-formed object is defined as long as neither total
    count is pushed past [INT_MAX]. *)
Lemma updates_is_Some_counted (ts : list double) s
    (calls : list (double * bool)) :
  well_formed ts s ->
  total_count_source s + Z.of_nat (length (counted_lengths true calls))
  <= Int.INT_MAX ->
  total_count_target s + Z.of_nat (length (counted_lengths false calls))
  <= Int.INT_MAX ->
  is_Some (updates s calls).
Proof.
  revert s. induction calls as [|[len b] calls IH]; intros s Hwf Hsrc Htgt;
    simpl in *; [eauto|].
  unfold counted_lengths in Hsrc, Htgt. simpl in Hsrc, Htgt.
  destruct (Double.leb len Double.zero) eqn:Hguard; simpl in Hsrc, Htgt.
  - rewrite (update_rejected s len b Hguard). simpl.
    apply IH; assumption.
  - assert (Hstep : is_Some (update s len b)).
    { destruct Hwf as ((_ & _ & Hps) & (_ & _ & Hpt) & [Hss Hst]).
      apply update_is_Some.
      - destruct b; simpl in *; lia.
      - intros i stat Hi. destruct b; simpl in *.
        + pose proof (sum_counts_bound _ i stat Hps Hi). lia.
        + pose proof (sum_counts_bound _ i stat Hpt Hi). lia. }
    destruct Hstep as [s1 Hs1]. rewrite Hs1. simpl.
    pose proof (update_well_formed ts s s1 len b Hwf Hs1) as Hwf1.
    destruct (update_counted s s1 len b Hguard Hs1)
      as (_ & _ & Hcount & _ & _ & Hother & _).
    apply IH; [exact Hwf1| |]; unfold counted_lengths;
      destruct b; simpl in *; lia.
Qed.
End Runs.

(** ** Constructed objects *)

Lemma filter_length_Permutation {A : Type} (f : A -> bool) (l l' : list A) :
  Permutation l l' -> length (List.filter f l) = length (List.filter f l').
Proof.
  induction 1 as [|x l l' _ IH|x y l|l l' l'' _ IH1 _ IH2]; simpl.
  - reflexivity.
  - destruct (f x); simpl; congruence.
  - destruct (f x), (f y); reflexivity.
  - congruence.
Qed.

Lemma segment_statistic_eq (a b : segment_statistic) :
  min_mm a = min_mm b -> max_mm a = max_mm b -> count a = count b -> a = b.
Proof. destruct a, b. simpl. intros -> -> ->. reflexivity. Qed.

(** A NaN length lies in no range, so it picks the last bucket. *)
Lemma pick_nan (stats : list segment_statistic) :
  pick S754_nan stats = pred (length stats).
Proof.
  induction stats as [|a stats IH]; [reflexivity|]. simpl.
  assert (Hout : in_range a S754_nan = false).
  { unfold in_range, Double.leb, SFleb, SFcompare.
    destruct (min_mm a); reflexivity. }
  rewrite Hout. simpl. destruct stats as [|b stats]; [reflexivity|].
  rewrite IH. reflexivity.
Qed.

Lemma add_nan_l (x : double) : Double.add S754_nan x = S754_nan.
Proof. reflexivity. Qed.

Lemma add_nan_r (x : double) : Double.add x S754_nan = S754_nan.
Proof. destruct x; reflexivity. Qed.

Section ConstructedObjects.
Context {logger : Type} `{utilities}.

Implicit Types (s : @source_target_segment_statistics logger).

(** X4. The bucket counts and the total counts do not depend on the order
    of the calls: if a sequence of [update] calls on a freshly constructed
    statistics object has a result, every reordering of it has one too,
    with the same buckets and the same total counts on both sides.  (The
    total lengths are rounded sums and may differ.) *)
Theorem updates_order_irrelevant (arr : list double) (num_lengths : Z)
    (p_logger : option logger) s0 s (calls calls' : list (double * bool)) :
  source_target_segment_statistics_new arr num_lengths p_logger = Some s0 ->
  updates s0 calls = Some s ->
  Permutation calls calls' ->
  exists s',
    updates s0 calls' = Some s'
    /\ source_segments s' = source_segments s
    /\ target_segments s' = target_segments s
    /\ total_count_source s' = total_count_source s
    /\ total_count_target s' = total_count_target s.
Proof.
  intros Hnew Hrun Hperm.
  destruct (new_well_formed arr num_lengths p_logger s0 Hnew)
    as (Hwf & _ & _ & Hcs & Hct).
  destruct (updates_totals s0 s calls true Hrun) as [Hs1 _].
  destruct (updates_totals s0 s calls false Hrun) as [Hs2 _].
  pose proof (updates_total_bounded s0 s calls true) as Hb1.
  pose proof (updates_total_bounded s0 s calls false) as Hb2.
  simpl in *. rewrite Hcs in Hb1, Hs1. rewrite Hct in Hb2, Hs2.
  specialize (Hb1 ltac:(unfold Int.INT_MAX; lia) Hrun).
  specialize (Hb2 ltac:(unfold Int.INT_MAX; lia) Hrun).
  assert (Hlen : forall b : bool,
             length (counted_lengths b calls')
             = length (counted_lengths b calls)).
  { intros b. unfold counted_lengths. rewrite !length_map.
    symmetry. apply filter_length_Permutation. exact Hperm. }
  destruct (updates_is_Some_counted _ s0 calls' Hwf) as [s' Hrun'].
  { rewrite Hcs, (Hlen true). lia. }
  { rewrite Hct, (Hlen false). lia. }
  destruct (updates_totals s0 s' calls' true Hrun') as [Hs1' _].
  destruct (updates_totals s0 s' calls' false Hrun') as [Hs2' _].
  simpl in *.
  rewrite Hcs, (Hlen true) in Hs1'. rewrite Hct, (Hlen false) in Hs2'.
  destruct Hwf as (Hsrc & Htgt & _).
  pose proof (histogram_over_nonempty _ _ Hsrc) as Hnes.
  pose proof (histogram_over_nonempty _ _ Htgt) as Hnet.
  assert (Hsegs : forall b : bool, segments b s' = segments b s).
  { intros b. apply list_eq. intros i.
    destruct (segments b s0 !! i) as [stat0|] eqn:Hi0.
    - destruct (updates_bucket_count s0 s calls b i stat0 Hnes Hnet Hrun Hi0)
        as (stat & Hi & Hmin & Hmax & Hc).
      destruct (updates_bucket_count s0 s' calls' b i stat0 Hnes Hnet Hrun' Hi0)
        as (stat' & Hi' & Hmin' & Hmax' & Hc').
      rewrite Hi, Hi'. f_equal. apply segment_statistic_eq; try congruence.
      rewrite Hc, Hc'. unfold calls_picking.
      rewrite (filter_length_Permutation _ calls calls' Hperm). reflexivity.
    - apply lookup_ge_None in Hi0.
      destruct (updates_layout s0 s calls Hrun)
        as (_ & _ & _ & _ & Hl1 & Hl2 & _).
      destruct (updates_layout s0 s' calls' Hrun')
        as (_ & _ & _ & _ & Hl1' & Hl2' & _).
      rewrite (lookup_ge_None_2 (segments b s') i)
        by (destruct b; simpl in *; lia).
      rewrite (lookup_ge_None_2 (segments b s) i)
        by (destruct b; simpl in *; lia).
      reflexivity. }
  exists s'. split; [exact Hrun'|].
  split; [exact (Hsegs true)|]. split; [exact (Hsegs false)|].
  split; congruence.
Qed.

(** X5. A NaN length passes the guard ([NaN <= 0] is false): on an object
    with at least one bucket on the chosen side, [update] counts it in the
    last bucket and the total length of that side becomes NaN; and once a
    total length is NaN, it is NaN after every later sequence of calls. *)
Theorem nan_poisons_total_length s (is_source : bool) :
  (forall s',
      segments is_source s <> [] ->
      update s S754_nan is_source = Some s' ->
      total_length is_source s' = S754_nan
      /\ exists stat : segment_statistic,
           last (segments is_source s) = Some stat
           /\ segments is_source s'
              = <[pred (length (segments is_source s)) := bumped stat]>
                  (segments is_source s))
  /\ (forall (calls : list (double * bool)) s',
         total_length is_source s = S754_nan ->
         updates s calls = Some s' ->
         total_length is_source s' = S754_nan).
Proof.
  split.
  - intros s' Hne Hstep.
    destruct (update_picked s S754_nan is_source Hne eq_refl)
      as (stat & Hstat & _ & _ & _ & Hres).
    destruct (Hres s' Hstep) as (Hsegs & _ & Hlen).
    rewrite pick_nan in Hstat, Hsegs.
    split; [rewrite Hlen; apply add_nan_r|].
    exists stat. split; [|exact Hsegs].
    rewrite last_lookup. exact Hstat.
  - intros calls. revert s.
    induction calls as [|[len b] calls IH]; intros s s' Hnan Hrun;
      simpl in Hrun.
    + injection Hrun as <-. exact Hnan.
    + destruct (update s len b) as [s1|] eqn:Hstep; simpl in Hrun;
        [|discriminate].
      apply (IH s1); [|exact Hrun].
      destruct (Double.leb len Double.zero) eqn:Hguard.
      * rewrite (update_rejected s len b Hguard) in Hstep.
        injection Hstep as <-. exact Hnan.
      * destruct (update_counted s s1 len b Hguard Hstep)
          as (_ & _ & _ & Hlen & _ & _ & Hother).
        destruct b, is_source; simpl in *;
          rewrite ?Hlen, ?Hother, ?Hnan; reflexivity.
Qed.
End ConstructedObjects.

(** ** Objects constructed over other thresholds *)

Section AnyThresholds.
Context {logger : Type} `{utilities}.

Implicit Types (s : @source_target_segment_statistics logger).

(** [update_picks] for any ascending thresholds. *)
Lemma update_picks_over (ts : list double) s (len final : double)
    (is_source : bool) :
  well_formed ts s ->
  increasing Double.zero ts = true ->
  last ts = Some final ->
  Double.gtb len Double.zero = true ->
  total_count is_source s < Int.INT_MAX ->
  exists s' (i : nat) (stat : segment_statistic),
    update s len is_source = Some s'
    /\ segments is_source s !! i = Some stat
    /\ segments is_source s' = <[i := bumped stat]> (segments is_source s)
    /\ (Double.ltb len final = true ->
        in_range stat len = true
        /\ forall (k : nat) (other : segment_statistic),
             segments is_source s !! k = Some other ->
             in_range other len = true -> k = i)
    /\ (Double.geb len final = true -> i = length ts).
Proof.
  intros Hwf Hinc Hlast Hpos Htotal.
  destruct (well_formed_segments _ s is_source Hwf) as [Hhist Hsum].
  pose proof (histogram_over_length _ _ Hhist) as Hlen.
  destruct Hhist as (Hmin & Hmax & Hcounts).
  assert (Hguard : Double.leb len Double.zero = false)
    by (apply DoubleFacts.ltb_not_leb; exact Hpos).
  destruct (update_is_Some s len is_source Htotal) as [s' Hs'].
  { intros i stat Hi.
    pose proof (sum_counts_bound _ i stat Hcounts Hi). lia. }
  destruct (update_counted s s' len is_source Hguard Hs')
    as (Hloop & _).
  destruct (update_loop_Some len _ 0 _ _ Hloop)
    as (i & stat & _ & Hi & _ & Hins & Hwhy & Hfirst); [lia|lia|].
  assert (Hfirst' : forall (j : nat) (stat' : segment_statistic),
             (j < i)%nat -> segments is_source s !! j = Some stat' ->
             in_range stat' len = false).
  { intros j stat' Hj. apply Hfirst. lia. }
  assert (Hbelow : Double.ltb len final = true -> in_range stat len = true).
  { apply (picked_below_final ts Hinc (segments is_source s) Hmin Hmax len
             Hpos i stat Hi Hfirst' Hwhy final Hlast). }
  exists s', i, stat.
  split; [exact Hs'|]. split; [exact Hi|]. split; [exact Hins|]. split.
  - intros Hlt. split; [exact (Hbelow Hlt)|].
    intros k other Hk Hin.
    apply (picked_unique ts Hinc (segments is_source s) Hmin Hmax len Hpos
             i stat Hi Hfirst' Hwhy k other); auto.
  - apply (picked_overflow ts Hinc (segments is_source s) Hmin Hmax len Hpos
             i stat Hi Hfirst' Hwhy final Hlast).
Qed.

(** X6. For a statistics object constructed over any thresholds in
    ascending order (none NaN, none below 0) and updated any number of
    times, a call of [update] with a length greater than 0 (total count of
    the side below [INT_MAX]) adds one to exactly one bucket: below the
    last threshold, the only bucket whose range contains the length; from
    the last threshold on, the additional bucket after the last
    threshold. *)
Theorem ascending_thresholds_bucket (arr : list double) (num_lengths : Z)
    (p_logger : option logger) s0 s (calls : list (double * bool))
    (len final : double) (is_source : bool) :
  source_target_segment_statistics_new arr num_lengths p_logger = Some s0 ->
  increasing Double.zero (take (Z.to_nat num_lengths) arr) = true ->
  last (take (Z.to_nat num_lengths) arr) = Some final ->
  updates s0 calls = Some s ->
  Double.gtb len Double.zero = true ->
  total_count is_source s < Int.INT_MAX ->
  exists s' (i : nat) (stat : segment_statistic),
    update s len is_source = Some s'
    /\ segments is_source s !! i = Some stat
    /\ segments is_source s' = <[i := bumped stat]> (segments is_source s)
    /\ (Double.ltb len final = true ->
        in_range stat len = true
        /\ forall (k : nat) (other : segment_statistic),
             segments is_source s !! k = Some other ->
             in_range other len = true -> k = i)
    /\ (Double.geb len final = true -> i = Z.to_nat num_lengths).
Proof.
  intros Hnew Hinc Hlast Hrun Hpos Htotal.
  pose proof (new_well_formed arr num_lengths p_logger s0 Hnew) as [Hwf _].
  apply (updates_well_formed _ s0 s calls) in Hwf; [|exact Hrun].
  destruct (update_picks_over _ s len final is_source Hwf Hinc Hlast Hpos
              Htotal)
    as (s' & i & stat & Hs' & Hi & Hins & Hbelow & Hover).
  exists s', i, stat. repeat (split; [assumption|]).
  intros Hge. rewrite (Hover Hge), length_take.
  apply Nat.min_l.
  destruct (Nat.le_gt_cases (Z.to_nat num_lengths) (length arr))
    as [Hle|Hgt]; [exact Hle|].
  unfold source_target_segment_statistics_new in Hnew.
  rewrite tracking_loop_None in Hnew by (simpl; lia). discriminate.
Qed.

(** X7. The ranges are closed below and open above: for thresholds in
    ascending order, a length exactly equal to a threshold [t_i] greater
    than 0, with the next threshold (if any) strictly greater, is counted
    in bucket [i + 1], the bucket that starts at [t_i], never in bucket
    [i], which ends there. *)
Theorem threshold_length_counted_above (arr : list double) (num_lengths : Z)
    (p_logger : option logger) s0 s (calls : list (double * bool))
    (i : nat) (t : double) (is_source : bool) :
  source_target_segment_statistics_new arr num_lengths p_logger = Some s0 ->
  increasing Double.zero (take (Z.to_nat num_lengths) arr) = true ->
  take (Z.to_nat num_lengths) arr !! i = Some t ->
  (forall next : double,
      take (Z.to_nat num_lengths) arr !! S i = Some next ->
      Double.ltb t next = true) ->
  updates s0 calls = Some s ->
  Double.gtb t Double.zero = true ->
  total_count is_source s < Int.INT_MAX ->
  exists s' (stat : segment_statistic),
    update s t is_source = Some s'
    /\ segments is_source s !! S i = Some stat
    /\ min_mm stat = t
    /\ segments is_source s' = <[S i := bumped stat]> (segments is_source s).
Proof.
  intros Hnew Hinc Ht Hnext Hrun Hpos Htotal.
  pose proof (new_well_formed arr num_lengths p_logger s0 Hnew) as [Hwf _].
  apply (updates_well_formed _ s0 s calls) in Hwf; [|exact Hrun].
  set (ts := take (Z.to_nat num_lengths) arr) in *.
  destruct (well_formed_segments _ s is_source Hwf) as [Hhist _].
  pose proof (histogram_over_length _ _ Hhist) as Hlen.
  destruct Hhist as (Hmin & Hmax & _).
  pose proof (lookup_lt_Some _ _ _ Ht) as Hi.
  destruct (last ts) as [final|] eqn:Hlast.
  2:{ apply last_None in Hlast. rewrite Hlast in Ht. discriminate. }
  destruct (lookup_lt_is_Some_2 (segments is_source s) (S i)) as [above Habove];
    [lia|].
  assert (Hlo : min_mm above = t).
  { assert (Hl : (min_mm <$> segments is_source s) !! S i
                 = Some (min_mm above))
      by (rewrite list_lookup_fmap, Habove; reflexivity).
    rewrite Hmin in Hl. simpl in Hl. congruence. }
  assert (Hhi : (ts ++ [minus_one]) !! S i = Some (max_mm above)).
  { rewrite <- Hmax, list_lookup_fmap, Habove. reflexivity. }
  destruct (increasing_lookup _ _ _ _ Hinc Ht) as [_ Hnan].
  destruct (update_picks_over ts s t final is_source Hwf Hinc Hlast Hpos
              Htotal)
    as (s' & k & stat & Hs' & Hk & Hins & Hbelow & Hover).
  assert (Hkeq : k = S i).
  { destruct (ts !! S i) as [next|] eqn:Hn.
    - (* a threshold follows: bucket i + 1 contains t, below the last *)
      rewrite lookup_app_l in Hhi by (apply (lookup_lt_Some _ _ _ Hn)).
      assert (Hnext' : Double.ltb t next = true) by (apply Hnext; reflexivity).
      assert (Hin : in_range above t = true).
      { unfold in_range. rewrite Hlo.
        rewrite (DoubleFacts.leb_refl t Hnan). simpl.
        rewrite Hn in Hhi. injection Hhi as <-. exact Hnext'. }
      assert (Hlt : Double.ltb t final = true).
      { rewrite last_lookup in Hlast.
        apply (DoubleFacts.ltb_leb_trans t next final Hnext').
        apply (increasing_monotone Double.zero ts (S i) (pred (length ts)));
          auto.
        apply lookup_lt_Some in Hn. lia. }
      destruct (Hbelow Hlt) as [_ Huniq].
      symmetry. apply (Huniq (S i) above Habove Hin).
    - (* t is the last threshold *)
      apply lookup_ge_None in Hn.
      assert (Hfinal : final = t).
      { rewrite last_lookup in Hlast.
        replace (pred (length ts)) with i in Hlast by lia. congruence. }
      rewrite Hover; [lia|].
      subst final. unfold Double.geb. apply DoubleFacts.leb_refl. exact Hnan. }
  subst k. rewrite Habove in Hk. injection Hk as <-.
  exists s', above. auto.
Qed.

(** X8. With no thresholds ([num_lengths <= 0], whatever the array), the
    constructor makes one bucket per side, from 0 with [max_mm = -1.0f],
    and after any sequence of calls that bucket holds the whole count of
    its side. *)
Theorem no_thresholds_single_bucket (arr : list double) (num_lengths : Z)
    (p_logger : option logger) :
  num_lengths <= 0 ->
  exists s0,
    source_target_segment_statistics_new arr num_lengths p_logger = Some s0
    /\ forall (calls : list (double * bool)) s,
         updates s0 calls = Some s ->
         source_segments s
         = [{| min_mm := Double.zero; max_mm := minus_one;
               count := total_count_source s |}]
         /\ target_segments s
            = [{| min_mm := Double.zero; max_mm := minus_one;
                  count := total_count_target s |}].
Proof.
  intros Hle.
  assert (Hn : Z.to_nat num_lengths = 0%nat) by lia.
  destruct (new_Some arr num_lengths p_logger) as (s0 & Hs0 & _);
    [rewrite Hn; lia|].
  exists s0. split; [exact Hs0|]. intros calls s Hrun.
  pose proof (new_well_formed arr num_lengths p_logger s0 Hs0) as [Hwf _].
  apply (updates_well_formed _ s0 s calls) in Hwf; [|exact Hrun].
  rewrite Hn in Hwf. simpl in Hwf.
  destruct Hwf as ((Hmin1 & Hmax1 & _) & (Hmin2 & Hmax2 & _) & [Hs Ht]).
  split.
  - destruct (source_segments s) as [|a [|b l]]; try discriminate.
    simpl in *. injection Hmin1 as Hmin1. injection Hmax1 as Hmax1.
    f_equal. apply segment_statistic_eq; simpl; auto. lia.
  - destruct (target_segments s) as [|a [|b l]]; try discriminate.
    simpl in *. injection Hmin2 as Hmin2. injection Hmax2 as Hmax2.
    f_equal. apply segment_statistic_eq; simpl; auto. lia.
Qed.
End AnyThresholds.

(** ** The table of [str()] *)

(** *** Strings and streams *)

Lemma string_app_nil_l (a : string) : EmptyString +:+ a = a.
Proof. reflexivity. Qed.

Lemma string_app_nil_r (a : string) : a +:+ EmptyString = a.
Proof.
  induction a as [|c a IH]; [reflexivity|].
  unfold String.app in *. simpl. rewrite IH. reflexivity.
Qed.

Lemma string_app_assoc (a b c : string) : (a +:+ b) +:+ c = a +:+ (b +:+ c).
Proof.
  induction a as [|x a IH]; [reflexivity|].
  unfold String.app in *. simpl. rewrite IH. reflexivity.
Qed.

Lemma string_length_app (a b : string) :
  String.length (a +:+ b) = (String.length a + String.length b)%nat.
Proof.
  induction a as [|x a IH]; [reflexivity|].
  unfold String.app in *. simpl. rewrite IH. reflexivity.
Qed.

Lemma length_fill_chars (c : ascii) (n : nat) :
  String.length (Stream.fill_chars c n) = n.
Proof. induction n as [|n IH]; simpl; congruence. Qed.

Lemma length_cell (w : Z) (c : ascii) (text : string) :
  Z.of_nat (String.length text) <= w ->
  String.length (cell w c text) = Z.to_nat w.
Proof.
  intros Hfit. unfold cell. rewrite string_length_app, length_fill_chars. lia.
Qed.

Lemma cell_zero (c : ascii) (text : string) : cell 0 c text = text.
Proof.
  unfold cell.
  replace (Z.to_nat (0 - Z.of_nat (String.length text))) with 0%nat by lia.
  reflexivity.
Qed.

(** The operations on a stream given by its six fields. *)
Module StreamFacts.
Import Stream.

Lemma setw_mk n c w fl a fx pr :
  setw n (Build_stringstream c w fl a fx pr)
  = Build_stringstream c n fl a fx pr.
Proof. reflexivity. Qed.
Lemma setfill_mk x c w fl a fx pr :
  setfill x (Build_stringstream c w fl a fx pr)
  = Build_stringstream c w x a fx pr.
Proof. reflexivity. Qed.
Lemma right_mk c w fl a fx pr :
  right (Build_stringstream c w fl a fx pr)
  = Build_stringstream c w fl adjust_right fx pr.
Proof. reflexivity. Qed.
Lemma internal_mk c w fl a fx pr :
  internal (Build_stringstream c w fl a fx pr)
  = Build_stringstream c w fl adjust_internal fx pr.
Proof. reflexivity. Qed.
Lemma set_fixed_mk c w fl a fx pr :
  set_fixed (Build_stringstream c w fl a fx pr)
  = Build_stringstream c w fl a true pr.
Proof. reflexivity. Qed.
Lemma setprecision_mk n c w fl a fx pr :
  setprecision n (Build_stringstream c w fl a fx pr)
  = Build_stringstream c w fl a fx n.
Proof. reflexivity. Qed.
Lemma set_str_mk text c w fl a fx pr :
  set_str text (Build_stringstream c w fl a fx pr)
  = Build_stringstream text w fl a fx pr.
Proof. reflexivity. Qed.

Lemma put_mk_right text c w fl fx pr :
  put text (Build_stringstream c w fl adjust_right fx pr)
  = Build_stringstream (c +:+ cell w fl text) 0 fl adjust_right fx pr.
Proof. reflexivity. Qed.
Lemma put_mk_unset text c w fl fx pr :
  put text (Build_stringstream c w fl adjust_unset fx pr)
  = Build_stringstream (c +:+ cell w fl text) 0 fl adjust_unset fx pr.
Proof. reflexivity. Qed.
Lemma put_mk_internal text c w fl fx pr :
  put text (Build_stringstream c w fl adjust_internal fx pr)
  = Build_stringstream (c +:+ cell w fl text) 0 fl adjust_internal fx pr.
Proof. reflexivity. Qed.
Lemma put_mk_zero text c fl a fx pr :
  put text (Build_stringstream c 0 fl a fx pr)
  = Build_stringstream (c +:+ text) 0 fl a fx pr.
Proof.
  unfold put, write, padding. cbn [adjust width fill content fixed precision].
  replace (Z.to_nat (0 - Z.of_nat (String.length text))) with 0%nat by lia.
  cbn [fill_chars]. rewrite string_app_nil_r.
  destruct a; reflexivity.
Qed.
Lemma put_number_mk_zero text c fl a fx pr :
  put_number text (Build_stringstream c 0 fl a fx pr)
  = Build_stringstream (c +:+ text) 0 fl a fx pr.
Proof.
  unfold put_number, write, padding.
  cbn [adjust width fill content fixed precision].
  replace (Z.to_nat (0 - Z.of_nat (String.length text))) with 0%nat by lia.
  cbn [fill_chars]. rewrite string_app_nil_r.
  destruct a; try reflexivity.
  destruct text as [|ch rest]; [reflexivity|].
  destruct ch as [[] [] [] [] [] [] [] []]; reflexivity.
Qed.
Lemma put_number_mk_right text c w fl fx pr :
  put_number text (Build_stringstream c w fl adjust_right fx pr)
  = Build_stringstream (c +:+ cell w fl text) 0 fl adjust_right fx pr.
Proof. reflexivity. Qed.
End StreamFacts.

Lemma put_double_mk_zero `{num_put} x c fl a fx pr :
  put_double x (Stream.Build_stringstream c 0 fl a fx pr)
  = Stream.Build_stringstream (c +:+ format_double fx pr x) 0 fl a fx pr.
Proof.
  unfold put_double. cbn [Stream.fixed Stream.precision].
  apply StreamFacts.put_number_mk_zero.
Qed.

(** Rewriting with [stream] runs a sequence of stream operations that
    starts at a stream given by its fields. *)
Create Rewrite HintDb stream.
#[local] Hint Rewrite
  StreamFacts.setw_mk StreamFacts.setfill_mk StreamFacts.right_mk
  StreamFacts.internal_mk StreamFacts.set_fixed_mk StreamFacts.setprecision_mk
  StreamFacts.set_str_mk StreamFacts.put_mk_right StreamFacts.put_mk_internal
  StreamFacts.put_mk_unset
  StreamFacts.put_mk_zero StreamFacts.put_number_mk_zero
  StreamFacts.put_number_mk_right @put_double_mk_zero
  cell_zero string_app_nil_l : stream.

Ltac stream_steps :=
  cbv beta iota zeta;
  repeat (progress (autorewrite with stream; cbn [Stream.content])).

(** [String.concat] and [lines_text] *)
Lemma concat_cons (sep line : string) (lines : list string) :
  lines <> [] ->
  String.concat sep (line :: lines) = line +:+ sep +:+ String.concat sep lines.
Proof. destruct lines; [congruence|reflexivity]. Qed.

Lemma lines_text_concat (lines rest : list string) :
  rest <> [] ->
  String.concat newline (lines ++ rest)
  = lines_text lines +:+ String.concat newline rest.
Proof.
  intros Hrest. induction lines as [|line lines IH]; [reflexivity|].
  cbn [app lines_text foldr]. rewrite concat_cons.
  - rewrite IH, !string_app_assoc. reflexivity.
  - destruct lines, rest; cbn; congruence.
Qed.

Section RenderingFacts.
Context {logger : Type} `{utilities_text} `{num_put}.

Implicit Types (s : @source_target_segment_statistics logger).

(** One iteration of the second loop appends one line to the output
    stream and leaves the width and the fill character as they were. *)
Lemma str_row_content s mm cc index source target
    oc oa ofx opr fc ffl fa ffx fpr :
  exists fc' fpr',
    str_row s mm cc index source target
      (Stream.Build_stringstream oc 0 " " oa ofx opr,
       Stream.Build_stringstream fc 0 ffl fa ffx fpr)
    = (Stream.Build_stringstream
         (oc +:+ row_line s mm cc index source target +:+ newline)
         0 " " Stream.adjust_internal ofx opr,
       Stream.Build_stringstream fc' 0 ffl fa true fpr').
Proof.
  unfold str_row, row_line, Stream.put_int, length_text.
  destruct (index =? length (source_segments s) - 1)%nat;
    stream_steps; rewrite ?string_app_assoc; eauto.
Qed.

Lemma max_count_loop_short s (n index : nat) (max_count : Z) :
  (length (target_segments s) < length (source_segments s))%nat ->
  (index <= length (target_segments s))%nat ->
  (length (source_segments s) <= index + n)%nat ->
  max_count_loop s n index max_count = None.
Proof.
  revert index max_count.
  induction n as [|n IH]; intros index max_count Hshort Hindex Hn; [lia|].
  cbn [max_count_loop].
  destruct (source_segments s !! index) as [source|] eqn:Hsource.
  2: { apply lookup_ge_None in Hsource. lia. }
  destruct (target_segments s !! index) as [target|] eqn:Htarget.
  - apply lookup_lt_Some in Htarget. cbn. apply IH; lia.
  - reflexivity.
Qed.

Lemma str_rows_content s mm cc (n index : nat) sources targets
    oc oa ofx opr fc ffl fa ffx fpr :
  drop index (source_segments s) = sources ->
  drop index (target_segments s) = targets ->
  (length sources <= n)%nat ->
  (length sources <= length targets)%nat ->
  exists oa' fc' ffx' fpr',
    (oa' = oa \/ oa' = Stream.adjust_internal)
    /\ str_rows s mm cc n index
      (Stream.Build_stringstream oc 0 " " oa ofx opr,
       Stream.Build_stringstream fc 0 ffl fa ffx fpr)
    = Some (Stream.Build_stringstream
              (oc +:+ lines_text (row_lines s mm cc index sources targets))
              0 " " oa' ofx opr,
            Stream.Build_stringstream fc' 0 ffl fa ffx' fpr').
Proof.
  revert index sources targets oc oa fc ffx fpr.
  induction n as [|n IH];
    intros index sources targets oc oa fc ffx fpr Hs Ht Hn Hlen.
  - destruct sources; [|cbn in Hn; lia].
    cbn. rewrite string_app_nil_r. eauto 10.
  - cbn [str_rows].
    destruct sources as [|source sources].
    + assert (source_segments s !! index = None) as ->.
      { apply lookup_ge_None. apply (f_equal length) in Hs.
        rewrite length_drop in Hs. cbn in Hs. lia. }
      cbn. rewrite string_app_nil_r. eauto 10.
    + destruct targets as [|target targets]; [cbn in Hlen; lia|].
      assert (source_segments s !! index = Some source) as Hsource.
      { rewrite <- (Nat.add_0_r index), <- lookup_drop, Hs. reflexivity. }
      assert (target_segments s !! index = Some target) as Htarget.
      { rewrite <- (Nat.add_0_r index), <- lookup_drop, Ht. reflexivity. }
      rewrite Hsource, Htarget. cbn [mbind option_bind].
      destruct (str_row_content s mm cc index source target
                  oc oa ofx opr fc ffl fa ffx fpr) as (fc' & fpr' & ->).
      destruct (IH (S index) sources targets
                  (oc +:+ row_line s mm cc index source target +:+ newline)
                  Stream.adjust_internal fc' true fpr')
        as (oa' & fc'' & ffx' & fpr'' & Hoa & ->).
      * rewrite (drop_S _ _ _ Hsource) in Hs. congruence.
      * rewrite (drop_S _ _ _ Htarget) in Ht. congruence.
      * cbn in Hn. lia.
      * cbn in Hlen. lia.
      * cbn [row_lines lines_text foldr]. rewrite !string_app_assoc.
        exists oa', fc'', ffx', fpr''. split; [|reflexivity].
        destruct Hoa as [->| ->]; auto.
Qed.

Lemma str_rows_short s mm cc (n index : nat) streams :
  (length (target_segments s) < length (source_segments s))%nat ->
  (index <= length (target_segments s))%nat ->
  (length (source_segments s) <= index + n)%nat ->
  str_rows s mm cc n index streams = None.
Proof.
  revert index streams.
  induction n as [|n IH]; intros index streams Hshort Hindex Hn; [lia|].
  cbn [str_rows].
  destruct (source_segments s !! index) as [source|] eqn:Hsource.
  2: { apply lookup_ge_None in Hsource. lia. }
  destruct (target_segments s !! index) as [target|] eqn:Htarget.
  - apply lookup_lt_Some in Htarget. cbn. apply IH; lia.
  - reflexivity.
Qed.

Lemma check_Some (r v : Z) :
  IntArith.check r = Some v ->
  v = r /\ IntArith.INT_MIN <= r <= Int.INT_MAX.
Proof.
  unfold IntArith.check.
  destruct (IntArith.INT_MIN <=? r) eqn:Hlo; [|discriminate].
  destruct (r <=? Int.INT_MAX) eqn:Hhi; [|discriminate].
  cbn. intros [= <-]. lia.
Qed.

Lemma str_layout_Some s mm cc tw :
  str_layout s = Some (mm, cc, tw) ->
  8 <= mm /\ 8 <= cc /\ tw = mm + 4 + mm + cc + cc + 9 /\ tw <= Int.INT_MAX.
Proof.
  unfold str_layout, IntArith.add. cbv zeta. intros Hlayout.
  repeat match type of Hlayout with
         | (_ ≫= _) = Some _ =>
             apply bind_Some in Hlayout; destruct Hlayout as (? & ? & Hlayout)
         end.
  injection Hlayout as <- <- <-.
  repeat match goal with
         | Hc : IntArith.check _ = Some _ |- _ =>
             apply check_Some in Hc; destruct Hc as [-> ?]
         end.
  repeat match goal with
         | |- context [if ?b then _ else _] => destruct b eqn:?
         end; lia.
Qed.

(** The text of the table, line by line. *)
Lemma str_table s mm cc tw :
  str_layout s = Some (mm, cc, tw) ->
  (length (source_segments s) <= length (target_segments s))%nat ->
  source_target_segment_statistics_str s
  = Some (String.concat newline (table_lines s mm cc tw)).
Proof.
  intros Hlayout Hlen.
  destruct (str_layout_Some s mm cc tw Hlayout) as (Hmm & Hcc & Htw & Hmax).
  unfold source_target_segment_statistics_str, Stream.fresh.
  rewrite Hlayout. cbn [mbind option_bind]. stream_steps.
  match goal with
  | |- context [str_rows s mm cc ?n 0
                  (Stream.Build_stringstream ?oc 0 " " ?oa ?ofx ?opr,
                   Stream.Build_stringstream ?fc 0 ?ffl ?fa ?ffx ?fpr)] =>
      destruct (str_rows_content s mm cc n 0 (source_segments s)
                  (target_segments s) oc oa ofx opr fc ffl fa ffx fpr)
        as (oa' & fc' & ffx' & fpr' & Hoa & ->);
        [reflexivity|reflexivity|lia|lia|]
  end.
  cbn [mbind option_bind].
  assert (IntArith.sub tw 22 = Some (tw - 22)) as ->.
  { unfold IntArith.sub, IntArith.check.
    replace (IntArith.INT_MIN <=? tw - 22) with true
      by (symmetry; apply Z.leb_le; unfold IntArith.INT_MIN; lia).
    replace (tw - 22 <=? Int.INT_MAX) with true
      by (symmetry; apply Z.leb_le; lia).
    reflexivity. }
  cbn [mbind option_bind].
  unfold table_lines, distance_lines, Stream.put_int. cbn [app].
  rewrite concat_cons by congruence.
  rewrite concat_cons
    by (intros Hnil; symmetry in Hnil; exact (app_cons_not_nil _ _ _ Hnil)).
  rewrite lines_text_concat by congruence.
  destruct Hoa as [->| ->];
    destruct (is_equal (total_length_source s) (total_length_target s)
                (Double.of_decimal 1 (-3)));
    stream_steps; cbn [app];
    rewrite !concat_cons by congruence; cbn [String.concat];
    unfold header_line, rule_line, total_line, length_text;
    rewrite !string_app_assoc; reflexivity.
Qed.

(** A target vector shorter than the source vector. *)
Lemma str_short s :
  (length (target_segments s) < length (source_segments s))%nat ->
  source_target_segment_statistics_str s = None.
Proof.
  intros Hshort. unfold source_target_segment_statistics_str.
  destruct (str_layout s) as [[[mm cc] tw]|] eqn:Hlayout; [|reflexivity].
  exfalso. revert Hlayout. unfold str_layout. cbv zeta.
  destruct (IntArith.add (max_width s) (max_precision s)) as [m|];
    [|discriminate].
  cbn [mbind option_bind].
  destruct (IntArith.add m 2) as [m'|]; [|discriminate].
  cbn [mbind option_bind].
  rewrite max_count_loop_short by lia. discriminate.
Qed.

Lemma length_row_lines s mm cc (index : nat) sources targets :
  (length sources <= length targets)%nat ->
  length (row_lines s mm cc index sources targets) = length sources.
Proof.
  revert index targets.
  induction sources as [|source sources IH]; intros index targets Hlen;
    [reflexivity|].
  destruct targets as [|target targets]; [cbn in Hlen; lia|].
  cbn [row_lines length]. rewrite IH; [reflexivity|cbn in Hlen; lia].
Qed.

Lemma length_row_line s mm cc (index : nat) source target :
  0 <= mm -> 0 <= cc ->
  Z.of_nat (String.length (length_text (max_precision s) (min_mm source)))
  <= mm ->
  (index <> (length (source_segments s) - 1)%nat ->
   Z.of_nat (String.length (length_text (max_precision s) (max_mm source)))
   <= mm) ->
  Z.of_nat (String.length (pretty (count source))) <= cc ->
  Z.of_nat (String.length (pretty (count target))) <= cc ->
  Z.of_nat (String.length
              (get_percent_change_string (count source) (count target) 1))
  <= 9 ->
  String.length (row_line s mm cc index source target)
  = Z.to_nat (mm + 4 + mm + cc + cc + 9).
Proof.
  intros Hmm Hcc Hmin Hmax Hsource Htarget Hpercent. unfold row_line.
  destruct (index =? length (source_segments s) - 1)%nat eqn:Hlast.
  - rewrite !string_length_app, !length_cell by (cbn; lia). lia.
  - apply Nat.eqb_neq in Hlast. specialize (Hmax Hlast).
    rewrite !string_length_app, !length_cell by (cbn; lia). lia.
Qed.

Lemma row_lines_aligned s mm cc tw (index : nat) sources targets :
  0 <= mm -> 0 <= cc -> tw = mm + 4 + mm + cc + cc + 9 ->
  cells_fit s mm cc tw ->
  drop index (source_segments s) = sources ->
  drop index (target_segments s) = targets ->
  Forall (fun line => String.length line = Z.to_nat tw)
    (row_lines s mm cc index sources targets).
Proof.
  intros Hmm Hcc -> (_ & _ & Hfit & _).
  revert index targets.
  induction sources as [|source sources IH]; intros index targets Hs Ht;
    [constructor|].
  destruct targets as [|target targets]; [constructor|].
  assert (source_segments s !! index = Some source) as Hsource.
  { rewrite <- (Nat.add_0_r index), <- lookup_drop, Hs. reflexivity. }
  assert (target_segments s !! index = Some target) as Htarget.
  { rewrite <- (Nat.add_0_r index), <- lookup_drop, Ht. reflexivity. }
  cbn [row_lines]. constructor.
  - destruct (Hfit index source target Hsource Htarget)
      as (Hmin & Hmax & Hcs & Hct & Hpercent).
    apply length_row_line; assumption.
  - apply IH.
    + rewrite (drop_S _ _ _ Hsource) in Hs. congruence.
    + rewrite (drop_S _ _ _ Htarget) in Ht. congruence.
Qed.

Lemma length_total_line (tw : Z) (label value : string) :
  22 <= tw ->
  Z.of_nat (String.length label) <= 22 ->
  Z.of_nat (String.length value) <= tw - 22 ->
  String.length (total_line tw label value) = Z.to_nat tw.
Proof.
  intros Htw Hlabel Hvalue. unfold total_line.
  rewrite string_length_app, !length_cell by assumption. lia.
Qed.

Lemma table_lines_aligned s mm cc tw :
  8 <= mm -> 8 <= cc -> tw = mm + 4 + mm + cc + cc + 9 ->
  cells_fit s mm cc tw ->
  Forall (fun line => String.length line = Z.to_nat tw)
    (table_lines s mm cc tw).
Proof.
  intros Hmm Hcc Htw Hfit.
  pose proof Hfit as (Hmin & Hmax & _ & Hls & Hlt & Hcs & Hct & Hpercent).
  unfold table_lines. repeat apply Forall_app_2.
  - repeat constructor.
    + unfold header_line.
      rewrite !string_length_app, Hmin, Hmax, !length_cell by (cbn; lia). lia.
    + unfold rule_line. apply length_cell. cbn. lia.
  - apply row_lines_aligned with (tw := tw); try assumption; try lia;
      reflexivity.
  - repeat constructor. unfold rule_line. apply length_cell. cbn. lia.
  - unfold distance_lines.
    destruct (is_equal _ _ _); repeat constructor;
      apply length_total_line; try assumption; cbn; lia.
  - repeat constructor; apply length_total_line; try assumption; cbn; lia.
Qed.

Lemma length_table_lines s mm cc tw :
  (length (source_segments s) <= length (target_segments s))%nat ->
  length (table_lines s mm cc tw)
  = (length (source_segments s)
     + (if is_equal (total_length_source s) (total_length_target s)
             (Double.of_decimal 1 (-3))
        then 7 else 8))%nat.
Proof.
  intros Hlen. unfold table_lines, distance_lines.
  rewrite !length_app, length_row_lines by assumption.
  destruct (is_equal _ _ _); cbn [length]; lia.
Qed.
End RenderingFacts.

Lemma fmap_lookup_eq {A B : Type} (f : A -> B) (l l' : list A) (i : nat) :
  f <$> l = f <$> l' -> f <$> (l !! i) = f <$> (l' !! i).
Proof. intros Heq. rewrite <- !list_lookup_fmap, Heq. reflexivity. Qed.

Lemma fmap_length_eq {A B : Type} (f : A -> B) (l l' : list A) :
  f <$> l = f <$> l' -> length l = length l'.
Proof.
  intros Heq. apply (f_equal length) in Heq.
  rewrite !length_fmap in Heq. exact Heq.
Qed.

(** *** What the table depends on *)

Section RenderingReads.
Context {logger : Type} `{utilities_text} `{num_put}.
Variables s s' : @source_target_segment_statistics logger.
Hypothesis Hmin :
  min_mm <$> source_segments s = min_mm <$> source_segments s'.
Hypothesis Hmax :
  max_mm <$> take (length (source_segments s) - 1) (source_segments s)
  = max_mm <$> take (length (source_segments s') - 1) (source_segments s').
Hypothesis Hsource :
  count <$> source_segments s = count <$> source_segments s'.
Hypothesis Htarget :
  count <$> target_segments s = count <$> target_segments s'.
Hypothesis Hprecision : max_precision s = max_precision s'.

Lemma max_count_loop_reads (n index : nat) (max_count : Z) :
  max_count_loop s n index max_count = max_count_loop s' n index max_count.
Proof.
  revert index max_count. induction n as [|n IH]; intros index max_count;
    [reflexivity|].
  cbn [max_count_loop].
  pose proof (fmap_lookup_eq count _ _ index Hsource) as Hs.
  pose proof (fmap_lookup_eq count _ _ index Htarget) as Ht.
  destruct (source_segments s !! index) as [source|],
    (source_segments s' !! index) as [source'|]; try discriminate;
    [|reflexivity].
  destruct (target_segments s !! index) as [target|],
    (target_segments s' !! index) as [target'|]; try discriminate;
    [|reflexivity].
  cbn in Hs, Ht. injection Hs as Hs. injection Ht as Ht.
  cbn [mbind option_bind]. cbv zeta. rewrite Hs, Ht. apply IH.
Qed.

Lemma row_line_reads mm cc (index : nat) source source' target target' :
  source_segments s !! index = Some source ->
  source_segments s' !! index = Some source' ->
  target_segments s !! index = Some target ->
  target_segments s' !! index = Some target' ->
  row_line s mm cc index source target
  = row_line s' mm cc index source' target'.
Proof.
  intros Hs Hs' Ht Ht'.
  pose proof (fmap_length_eq _ _ _ Hmin) as Hlen.
  pose proof (fmap_lookup_eq min_mm _ _ index Hmin) as Hm.
  pose proof (fmap_lookup_eq count _ _ index Hsource) as Hcs.
  pose proof (fmap_lookup_eq count _ _ index Htarget) as Hct.
  rewrite Hs, Hs' in Hm, Hcs. rewrite Ht, Ht' in Hct.
  cbn in Hm, Hcs, Hct.
  injection Hm as Hm. injection Hcs as Hcs. injection Hct as Hct.
  unfold row_line. rewrite <- Hlen, <- Hprecision, Hm, Hcs, Hct.
  destruct (index =? length (source_segments s) - 1)%nat eqn:Hlast;
    [reflexivity|].
  apply Nat.eqb_neq in Hlast. apply lookup_lt_Some in Hs as Hlt.
  pose proof (fmap_lookup_eq max_mm _ _ index Hmax) as Hx.
  rewrite !lookup_take_lt, Hs, Hs' in Hx by lia.
  cbn in Hx. injection Hx as Hx. rewrite Hx. reflexivity.
Qed.

Lemma row_lines_reads mm cc (index : nat) sources sources' targets targets' :
  drop index (source_segments s) = sources ->
  drop index (source_segments s') = sources' ->
  drop index (target_segments s) = targets ->
  drop index (target_segments s') = targets' ->
  row_lines s mm cc index sources targets
  = row_lines s' mm cc index sources' targets'.
Proof.
  pose proof (fmap_length_eq _ _ _ Hmin) as Hlen.
  pose proof (fmap_length_eq _ _ _ Htarget) as Hlen'.
  revert index sources' targets targets'.
  induction sources as [|source sources IH];
    intros index sources' targets targets' Hs Hs' Ht Ht'.
  - destruct sources' as [|source' sources']; [reflexivity|].
    apply (f_equal length) in Hs, Hs'. rewrite length_drop in Hs, Hs'.
    cbn in Hs, Hs'. lia.
  - destruct sources' as [|source' sources'].
    { apply (f_equal length) in Hs, Hs'. rewrite length_drop in Hs, Hs'.
      cbn in Hs, Hs'. lia. }
    destruct targets as [|target targets], targets' as [|target' targets'];
      try reflexivity;
      try (apply (f_equal length) in Ht, Ht'; rewrite length_drop in Ht, Ht';
           cbn in Ht, Ht'; lia).
    assert (source_segments s !! index = Some source) as Hl.
    { rewrite <- (Nat.add_0_r index), <- lookup_drop, Hs. reflexivity. }
    assert (source_segments s' !! index = Some source') as Hl'.
    { rewrite <- (Nat.add_0_r index), <- lookup_drop, Hs'. reflexivity. }
    assert (target_segments s !! index = Some target) as Hk.
    { rewrite <- (Nat.add_0_r index), <- lookup_drop, Ht. reflexivity. }
    assert (target_segments s' !! index = Some target') as Hk'.
    { rewrite <- (Nat.add_0_r index), <- lookup_drop, Ht'. reflexivity. }
    cbn [row_lines]. f_equal.
    + apply row_line_reads; assumption.
    + apply IH.
      * rewrite (drop_S _ _ _ Hl) in Hs. congruence.
      * rewrite (drop_S _ _ _ Hl') in Hs'. congruence.
      * rewrite (drop_S _ _ _ Hk) in Ht. congruence.
      * rewrite (drop_S _ _ _ Hk') in Ht'. congruence.
Qed.

Hypothesis Hwidth : max_width s = max_width s'.
Hypothesis Hls : total_length_source s = total_length_source s'.
Hypothesis Hlt : total_length_target s = total_length_target s'.
Hypothesis Hcs : total_count_source s = total_count_source s'.
Hypothesis Hct : total_count_target s = total_count_target s'.

Lemma str_layout_reads : str_layout s = str_layout s'.
Proof.
  unfold str_layout.
  rewrite <- Hwidth, <- Hprecision, <- (fmap_length_eq _ _ _ Hmin).
  cbv zeta.
  destruct (IntArith.add (max_width s) (max_precision s)) as [m|];
    [|reflexivity].
  cbn [mbind option_bind].
  destruct (IntArith.add m 2) as [m'|]; [|reflexivity].
  cbn [mbind option_bind].
  rewrite max_count_loop_reads. reflexivity.
Qed.

Lemma str_reads :
  source_target_segment_statistics_str s
  = source_target_segment_statistics_str s'.
Proof.
  pose proof (fmap_length_eq _ _ _ Hmin) as Hlen.
  pose proof (fmap_length_eq _ _ _ Htarget) as Hlen'.
  pose proof str_layout_reads as Hlayout.
  destruct (str_layout s) as [[[mm cc] tw]|] eqn:Hl.
  - destruct (le_lt_dec (length (source_segments s))
                (length (target_segments s))) as [Hle|Hshort].
    + rewrite (str_table s mm cc tw), (str_table s' mm cc tw);
        try assumption; try lia; [|congruence].
      f_equal. f_equal. unfold table_lines, distance_lines.
      rewrite (row_lines_reads mm cc 0 _ (source_segments s') _
                 (target_segments s')) by reflexivity.
      rewrite Hprecision, Hls, Hlt, Hcs, Hct. reflexivity.
    + rewrite !str_short by lia. reflexivity.
  - unfold source_target_segment_statistics_str.
    rewrite <- Hlayout, Hl. reflexivity.
Qed.
End RenderingReads.

(** *** The table *)

Section Table.
Context {logger : Type} `{utilities_text} `{num_put}.

Implicit Types (s : @source_target_segment_statistics logger).

(** X9. When the column arithmetic stays in the range of [int] and the
    target vector is at least as long as the source vector, [str()] returns
    these lines, separated by the end-of-line character and with none after
    the last: the header, a rule of [-], one line per source bucket (the
    last one showing [>=] and the lower bound only), a rule, one line for
    the total distance when [is_equal] finds the two totals equal and two
    lines otherwise, and the lines of the two total counts and of the
    percent change.  Every value stands at the right of its column, after
    the fill characters; nothing is cut to the width of a column. *)
Theorem str_is_table s (mm_col_size count_col_size table_width : Z) :
  str_layout s = Some (mm_col_size, count_col_size, table_width) ->
  (length (source_segments s) <= length (target_segments s))%nat ->
  source_target_segment_statistics_str s
  = Some (String.concat newline
            (table_lines s mm_col_size count_col_size table_width)).
Proof. exact (str_table s mm_col_size count_col_size table_width). Qed.

(** X10. When moreover every text fits its column and [center] returns a
    text of the width it is given, the table of [str()] is a rectangle:
    the number of source buckets plus 7 lines (plus 8 when the two total
    distances differ), each of exactly [table_width] characters. *)
Theorem str_lines_aligned s (mm_col_size count_col_size table_width : Z) :
  str_layout s = Some (mm_col_size, count_col_size, table_width) ->
  (length (source_segments s) <= length (target_segments s))%nat ->
  cells_fit s mm_col_size count_col_size table_width ->
  exists lines : list string,
    source_target_segment_statistics_str s
    = Some (String.concat newline lines)
    /\ length lines
       = (length (source_segments s)
          + (if is_equal (total_length_source s) (total_length_target s)
                  (Double.of_decimal 1 (-3))
             then 7 else 8))%nat
    /\ Forall (fun line => String.length line = Z.to_nat table_width) lines.
Proof.
  intros Hlayout Hlen Hfit.
  destruct (str_layout_Some s _ _ _ Hlayout) as (Hmm & Hcc & Htw & _).
  exists (table_lines s mm_col_size count_col_size table_width).
  split; [apply str_table; assumption|].
  split; [apply length_table_lines; assumption|].
  apply table_lines_aligned; assumption.
Qed.

(** X11. [str()] reads [target_segments] at every index of
    [source_segments]: on an object whose target vector is the shorter one,
    it reads past the end of the vector and has no defined result. *)
Theorem str_short_target_undefined s :
  (length (target_segments s) < length (source_segments s))%nat ->
  source_target_segment_statistics_str s = None.
Proof. exact (str_short s). Qed.

(** X12. What [str()] reads: the lower bounds and the counts of the source
    buckets, the upper bounds of all source buckets but the last, the
    counts of the target buckets, [max_width], [max_precision] and the four
    totals.  Two objects that agree on these have the same table, or both
    have none: the bounds of the target buckets, the upper bound of the
    last source bucket, [num_segment_tracking_lengths] and the logger
    fields are never read. *)
Theorem str_reads_only s s' :
  min_mm <$> source_segments s = min_mm <$> source_segments s' ->
  max_mm <$> take (length (source_segments s) - 1) (source_segments s)
  = max_mm <$> take (length (source_segments s') - 1) (source_segments s') ->
  count <$> source_segments s = count <$> source_segments s' ->
  count <$> target_segments s = count <$> target_segments s' ->
  max_precision s = max_precision s' ->
  max_width s = max_width s' ->
  total_length_source s = total_length_source s' ->
  total_length_target s = total_length_target s' ->
  total_count_source s = total_count_source s' ->
  total_count_target s = total_count_target s' ->
  source_target_segment_statistics_str s
  = source_target_segment_statistics_str s'.
Proof. exact (str_reads s s'). Qed.

(** X13. Whatever [get_num_digits] returns, the length columns and the
    count columns of [str()] are at least 8 characters wide, and the table
    is as wide as its six columns together: two length columns, the label
    of 4 between them, two count columns and the change column of 9.  The
    value of a totals line, [table_width - 22] wide, is therefore at least
    23 characters wide. *)
Theorem str_column_sizes s (mm_col_size count_col_size table_width : Z) :
  str_layout s = Some (mm_col_size, count_col_size, table_width) ->
  8 <= mm_col_size /\ 8 <= count_col_size
  /\ table_width
     = mm_col_size + 4 + mm_col_size + count_col_size + count_col_size + 9
  /\ 23 <= table_width - 22 <= Int.INT_MAX
  /\ IntArith.sub table_width 22 = Some (table_width - 22).
Proof.
  intros Hlayout.
  destruct (str_layout_Some s _ _ _ Hlayout) as (Hmm & Hcc & Htw & Hmax).
  repeat split; try lia.
  unfold IntArith.sub, IntArith.check, IntArith.INT_MIN in *.
  replace (-2147483648 <=? table_width - 22) with true
    by (symmetry; apply Z.leb_le; lia).
  replace (table_width - 22 <=? Int.INT_MAX) with true
    by (symmetry; apply Z.leb_le; lia).
  reflexivity.
Qed.
End Table.

Section FirstLoop.
Context {logger : Type} `{utilities_text} `{num_put}.

Implicit Types (s : @source_target_segment_statistics logger).

(** The first loop on vectors it can read to the end. *)
Lemma max_count_loop_defined s (n index : nat) sources targets
    (max_count : Z) :
  drop index (source_segments s) = sources ->
  drop index (target_segments s) = targets ->
  (length sources <= n)%nat ->
  (length sources <= length targets)%nat ->
  max_count_loop s n index max_count
  = Some (largest_count sources targets max_count).
Proof.
  revert index sources targets max_count.
  induction n as [|n IH];
    intros index sources targets max_count Hs Ht Hn Hlen.
  - destruct sources; [reflexivity|cbn in Hn; lia].
  - cbn [max_count_loop].
    destruct sources as [|source sources].
    + assert (source_segments s !! index = None) as ->; [|reflexivity].
      apply lookup_ge_None. apply (f_equal length) in Hs.
      rewrite length_drop in Hs. cbn in Hs. lia.
    + destruct targets as [|target targets]; [cbn in Hlen; lia|].
      assert (source_segments s !! index = Some source) as Hsource.
      { rewrite <- (Nat.add_0_r index), <- lookup_drop, Hs. reflexivity. }
      assert (target_segments s !! index = Some target) as Htarget.
      { rewrite <- (Nat.add_0_r index), <- lookup_drop, Ht. reflexivity. }
      rewrite Hsource, Htarget. cbn [mbind option_bind]. cbv zeta.
      rewrite (IH (S index) sources targets).
      * cbn [largest_count]. do 2 f_equal.
        destruct (Z.ltb_spec max_count (count source));
          [rewrite (Z.max_r max_count) by lia
          |rewrite (Z.max_l max_count) by lia];
          match goal with
          | |- (if ?a <? ?b then _ else _) = _ =>
              destruct (Z.ltb_spec a b); lia
          end.
      * rewrite (drop_S _ _ _ Hsource) in Hs. congruence.
      * rewrite (drop_S _ _ _ Htarget) in Ht. congruence.
      * cbn in Hn. lia.
      * cbn in Hlen. lia.
Qed.

Lemma str_layout_column_sizes s :
  (length (source_segments s) <= length (target_segments s))%nat ->
  str_layout s
  = column_sizes (max_width s) (max_precision s)
      (largest_count (source_segments s) (target_segments s) 0).
Proof.
  intros Hlen. unfold str_layout, column_sizes. cbv zeta.
  destruct (IntArith.add (max_width s) (max_precision s)) as [m|];
    [|reflexivity].
  cbn [mbind option_bind].
  destruct (IntArith.add m 2) as [m'|]; [|reflexivity].
  cbn [mbind option_bind].
  rewrite (max_count_loop_defined s _ 0 (source_segments s)
             (target_segments s)) by (reflexivity || lia).
  reflexivity.
Qed.

Lemma str_layout_None s :
  str_layout s = None -> source_target_segment_statistics_str s = None.
Proof.
  intros Hlayout. unfold source_target_segment_statistics_str.
  rewrite Hlayout. reflexivity.
Qed.
End FirstLoop.

Section TableOfConstructed.
Context {logger : Type} `{utilities} `{utilities_text} `{num_put}.

Implicit Types (s : @source_target_segment_statistics logger).

(** X14. On an object made by the constructor and updated any number of
    times, [str()] never reads past the end of a vector: its first loop
    has a result, the largest count of the two vectors, so that the column
    sizes are the result of the [int] arithmetic alone, and [str()] has a
    result exactly when that arithmetic stays in the range of [int].  The
    result is then the table, which has one line per threshold and one for
    the lengths above the last threshold, between the 2 lines of the
    header and the 5 or 6 lines of the totals. *)
Theorem str_of_constructed (arr : list double) (num_lengths : Z)
    (p_logger : option logger) s0 s (calls : list (double * bool)) :
  source_target_segment_statistics_new arr num_lengths p_logger = Some s0 ->
  updates s0 calls = Some s ->
  let max_count :=
    largest_count (source_segments s) (target_segments s) 0 in
  let sizes := column_sizes (max_width s) (max_precision s) max_count in
  max_count_loop s (length (source_segments s)) 0 0 = Some max_count
  /\ str_layout s = sizes
  /\ (is_Some (source_target_segment_statistics_str s) <-> is_Some sizes)
  /\ forall mm_col_size count_col_size table_width : Z,
       sizes = Some (mm_col_size, count_col_size, table_width) ->
       source_target_segment_statistics_str s
       = Some (String.concat newline
                 (table_lines s mm_col_size count_col_size table_width))
       /\ length (table_lines s mm_col_size count_col_size table_width)
          = (2 + (Z.to_nat num_lengths + 1)
             + (if is_equal (total_length_source s) (total_length_target s)
                     (Double.of_decimal 1 (-3))
                then 5 else 6))%nat.
Proof.
  intros Hnew Hrun max_count sizes.
  destruct (new_well_formed arr num_lengths p_logger s0 Hnew) as (Hwf & _).
  pose proof (updates_well_formed _ s0 s calls Hwf Hrun)
    as (Hsource & Htarget & _).
  apply histogram_over_length in Hsource, Htarget.
  assert (Htake : length (take (Z.to_nat num_lengths) arr)
                  = Z.to_nat num_lengths).
  { rewrite length_take. apply Nat.min_l.
    destruct (Nat.le_gt_cases (Z.to_nat num_lengths) (length arr))
      as [Hle|Hgt]; [exact Hle|].
    unfold source_target_segment_statistics_new in Hnew.
    rewrite tracking_loop_None in Hnew by (simpl; lia). discriminate. }
  assert (Hlen : (length (source_segments s)
                  <= length (target_segments s))%nat) by lia.
  pose proof (str_layout_column_sizes s Hlen) as Hlayout.
  fold max_count in Hlayout. fold sizes in Hlayout.
  assert (Htable :
            forall mm cc tw : Z,
              sizes = Some (mm, cc, tw) ->
              source_target_segment_statistics_str s
              = Some (String.concat newline (table_lines s mm cc tw))).
  { intros mm cc tw Hsizes. apply str_table; [congruence|exact Hlen]. }
  split.
  { apply max_count_loop_defined; (reflexivity || lia). }
  split; [exact Hlayout|]. split.
  - split.
    + intros [text Htext].
      destruct sizes as [[[mm cc] tw]|] eqn:Hsizes; [eauto|].
      rewrite (str_layout_None s Hlayout) in Htext. discriminate.
    + intros [[[mm cc] tw] Hsizes]. rewrite (Htable mm cc tw Hsizes). eauto.
  - intros mm cc tw Hsizes. split; [exact (Htable mm cc tw Hsizes)|].
    rewrite length_table_lines by exact Hlen.
    rewrite Hsource, Htake. destruct (is_equal _ _ _); lia.
Qed.
End TableOfConstructed.

(** *** The detail text of a progress snapshot *)

Lemma concat_snoc_empty (sep : string) (lines : list string) :
  lines <> [] ->
  String.concat sep (lines ++ [EmptyString]) = String.concat sep lines +:+ sep.
Proof.
  induction lines as [|line lines IH]; [congruence|]. intros _.
  destruct lines as [|line' lines].
  - cbn [app]. rewrite concat_cons by congruence. cbn [String.concat].
    rewrite string_app_nil_r. reflexivity.
  - rewrite (concat_cons sep line (line' :: lines)) by congruence.
    change ((line :: line' :: lines) ++ [EmptyString])
      with (line :: (line' :: lines) ++ [EmptyString]).
    rewrite concat_cons by (cbn [app]; congruence).
    rewrite IH by congruence. rewrite !string_app_assoc. reflexivity.
Qed.

Section DetailOfFresh.
Context {logger : Type} `{utilities} `{utilities_text} `{num_put}.

Lemma detail_str_table (p : @arc_welder_progress logger) (mm cc tw : Z) :
  str_layout (segment_statistics p) = Some (mm, cc, tw) ->
  (length (source_segments (segment_statistics p))
   <= length (target_segments (segment_statistics p)))%nat ->
  arc_welder_progress_detail_str p
  = Some (String.concat newline
            ([EmptyString; "Extrusion/Retraction Counts"]
             ++ table_lines (segment_statistics p) mm cc tw
             ++ [EmptyString])).
Proof.
  intros Hlayout Hlen. unfold arc_welder_progress_detail_str, Stream.fresh.
  rewrite (str_table _ mm cc tw Hlayout Hlen). cbn [mbind option_bind].
  stream_steps. cbn [app].
  rewrite concat_cons by congruence.
  rewrite concat_cons by (unfold table_lines; cbn [app]; congruence).
  rewrite concat_snoc_empty by (unfold table_lines; cbn [app]; congruence).
  rewrite ?string_app_assoc. reflexivity.
Qed.

(** X15. [detail_str()] of a freshly constructed progress snapshot: when
    the column arithmetic stays in the range of [int], it is an empty
    line, the title line, the table of the statistics, whose every line
    ends with an end-of-line character, the last one included; the table
    has the 13 bucket lines of the 12 thresholds of the program between
    its 2 header lines and its 5 or 6 lines of totals. *)
Theorem detail_str_of_fresh_progress (p : @arc_welder_progress logger)
    (mm_col_size count_col_size table_width : Z) :
  arc_welder_progress_new = Some p ->
  str_layout (segment_statistics p)
  = Some (mm_col_size, count_col_size, table_width) ->
  arc_welder_progress_detail_str p
  = Some (String.concat newline
            ([EmptyString; "Extrusion/Retraction Counts"]
             ++ table_lines (segment_statistics p) mm_col_size
                  count_col_size table_width
             ++ [EmptyString]))
  /\ length (table_lines (segment_statistics p) mm_col_size count_col_size
               table_width)
     = (2 + 13
        + (if is_equal Double.zero Double.zero (Double.of_decimal 1 (-3))
           then 5 else 6))%nat.
Proof.
  intros Hnew Hlayout. unfold arc_welder_progress_new in Hnew.
  destruct (source_target_segment_statistics_new segment_statistic_lengths
              segment_statistic_lengths_count None) as [s0|] eqn:Hs0;
    [|discriminate].
  cbn in Hnew. injection Hnew as <-. cbn [segment_statistics] in *.
  destruct (new_well_formed _ _ _ s0 Hs0)
    as ((Hsource & Htarget & _) & Hls & Hlt & _).
  apply histogram_over_length in Hsource, Htarget.
  split.
  - apply detail_str_table; [exact Hlayout|cbn [segment_statistics]; lia].
  - rewrite length_table_lines by lia.
    rewrite Hsource, Hls, Hlt. cbn [length take].
    destruct (is_equal _ _ _); reflexivity.
Qed.
End DetailOfFresh.

(** ** The constructor *)

Section Constructor.
Context {logger : Type} `{utilities}.

(** X16. The constructor reads the first [num_lengths] numbers of the
    array: it has a defined result exactly when the array holds that many
    (always, for [num_lengths <= 0]).  It then sets [max_precision] to 3,
    [num_segment_tracking_lengths] to [num_lengths] as given, the logger
    to the one given and the logger type to 0, and [max_width] to
    [get_num_digits] of the last threshold read, or of 0 when none is. *)
Theorem constructor_defined_settings (arr : list double) (num_lengths : Z)
    (p_logger : option logger) :
  (is_Some (source_target_segment_statistics_new arr num_lengths p_logger)
   <-> (Z.to_nat num_lengths <= length arr)%nat)
  /\ forall s,
       source_target_segment_statistics_new arr num_lengths p_logger = Some s ->
       max_precision s = 3
       /\ num_segment_tracking_lengths s = num_lengths
       /\ p_logger_ s = p_logger
       /\ logger_type_ s = 0
       /\ exists widest : double,
            last (Double.zero :: take (Z.to_nat num_lengths) arr)
            = Some widest
            /\ max_width s = get_num_digits widest.
Proof.
  assert (Hdefined :
            forall s,
              source_target_segment_statistics_new arr num_lengths p_logger
              = Some s ->
              (Z.to_nat num_lengths <= length arr)%nat).
  { intros s Hs.
    destruct (Nat.le_gt_cases (Z.to_nat num_lengths) (length arr))
      as [Hle|Hgt]; [exact Hle|].
    unfold source_target_segment_statistics_new in Hs.
    rewrite tracking_loop_None in Hs by (simpl; lia). discriminate. }
  split.
  - split.
    + intros [s Hs]. exact (Hdefined s Hs).
    + intros Hle. destruct (new_Some arr num_lengths p_logger Hle)
        as (s & Hs & _).
      exists s. exact Hs.
  - intros s Hs. pose proof (Hdefined s Hs) as Hle.
    unfold source_target_segment_statistics_new in Hs.
    destruct (tracking_loop_Some arr (Z.to_nat num_lengths) 0 [] []
                Double.zero) as (added & widest & Hrun & _ & Hmin & _);
      [simpl; lia|].
    rewrite Hrun in Hs. cbn in Hs. injection Hs as <-. cbn.
    repeat split. exists widest. split; [|reflexivity].
    rewrite drop_0 in Hmin. rewrite <- Hmin. apply last_snoc.
Qed.
End Constructor.

(** ** The further properties at concrete inputs *)

(** X1 at a fresh statistics object and a source segment of 1.5 mm. *)
Lemma update_first_match_witness :
  exists s0 : @source_target_segment_statistics unit,
    @source_target_segment_statistics_new unit example_utilities
      segment_statistic_lengths segment_statistic_lengths_count None
    = Some s0
    /\ segments true s0 <> []
    /\ Double.leb (Double.of_decimal 15 (-1)) Double.zero = false
    /\ exists stat : segment_statistic,
         segments true s0
           !! pick (Double.of_decimal 15 (-1)) (segments true s0)
         = Some stat
         /\ (in_range stat (Double.of_decimal 15 (-1)) = true
             \/ S (pick (Double.of_decimal 15 (-1)) (segments true s0))
                = length (segments true s0))
         /\ (forall (j : nat) (stat' : segment_statistic),
                (j < pick (Double.of_decimal 15 (-1)) (segments true s0))%nat ->
                segments true s0 !! j = Some stat' ->
                in_range stat' (Double.of_decimal 15 (-1)) = false)
         /\ (is_Some (update s0 (Double.of_decimal 15 (-1)) true) <->
             total_count true s0 < Int.INT_MAX /\ count stat < Int.INT_MAX)
         /\ forall s',
              update s0 (Double.of_decimal 15 (-1)) true = Some s' ->
              segments true s'
              = <[pick (Double.of_decimal 15 (-1)) (segments true s0)
                  := bumped stat]> (segments true s0)
              /\ total_count true s' = total_count true s0 + 1
              /\ total_length true s'
                 = Double.add (total_length true s0)
                     (Double.of_decimal 15 (-1)).
Proof.
  eexists.
  split; [vm_compute; reflexivity|].
  split; [vm_compute; discriminate|].
  split; [vm_compute; reflexivity|].
  apply (@update_first_match unit).
  - vm_compute. discriminate.
  - vm_compute. reflexivity.
Defined.

(** X2 at a fresh statistics object after a source segment of 1.5 mm and a
    target segment of 250 mm. *)
Lemma updates_keep_layout_witness :
  exists s0 s' : @source_target_segment_statistics unit,
    @source_target_segment_statistics_new unit example_utilities
      segment_statistic_lengths segment_statistic_lengths_count None
    = Some s0
    /\ updates s0 [(Double.of_decimal 15 (-1), true);
                   (Double.of_decimal 250 0, false)] = Some s'
    /\ min_mm <$> source_segments s' = min_mm <$> source_segments s0
    /\ max_mm <$> source_segments s' = max_mm <$> source_segments s0
    /\ min_mm <$> target_segments s' = min_mm <$> target_segments s0
    /\ max_mm <$> target_segments s' = max_mm <$> target_segments s0
    /\ length (source_segments s') = length (source_segments s0)
    /\ length (target_segments s') = length (target_segments s0)
    /\ max_width s' = max_width s0
    /\ max_precision s' = max_precision s0
    /\ num_segment_tracking_lengths s' = num_segment_tracking_lengths s0
    /\ p_logger_ s' = p_logger_ s0
    /\ logger_type_ s' = logger_type_ s0.
Proof.
  eexists. eexists.
  split; [vm_compute; reflexivity|].
  split; [vm_compute; reflexivity|].
  apply (@updates_keep_layout unit)
    with (calls := [(Double.of_decimal 15 (-1), true);
                    (Double.of_decimal 250 0, false)]).
  vm_compute. reflexivity.
Defined.

(** X3 at a fresh statistics object, the source bucket from 1 mm to 5 mm
    and four calls, two of which are source segments in that range. *)
Lemma updates_bucket_counts_witness :
  exists (s0 s' : @source_target_segment_statistics unit)
         (stat : segment_statistic),
    @source_target_segment_statistics_new unit example_utilities
      segment_statistic_lengths segment_statistic_lengths_count None
    = Some s0
    /\ source_segments s0 <> [] /\ target_segments s0 <> []
    /\ updates s0 [(Double.of_decimal 3 (-3), true);
                   (Double.of_decimal 15 (-1), true);
                   (Double.of_decimal 250 0, false);
                   (Double.of_decimal 17 (-1), true)] = Some s'
    /\ segments true s0 !! 7%nat = Some stat
    /\ exists stat' : segment_statistic,
         segments true s' !! 7%nat = Some stat'
         /\ min_mm stat' = min_mm stat /\ max_mm stat' = max_mm stat
         /\ count stat' = count stat
              + Z.of_nat (length (calls_picking true (segments true s0) 7
                                    [(Double.of_decimal 3 (-3), true);
                                     (Double.of_decimal 15 (-1), true);
                                     (Double.of_decimal 250 0, false);
                                     (Double.of_decimal 17 (-1), true)])).
Proof.
  eexists. eexists. eexists.
  split; [vm_compute; reflexivity|].
  split; [vm_compute; discriminate|].
  split; [vm_compute; discriminate|].
  split; [vm_compute; reflexivity|].
  split; [vm_compute; reflexivity|].
  apply (@updates_bucket_counts unit).
  - vm_compute. discriminate.
  - vm_compute. discriminate.
  - vm_compute. reflexivity.
  - vm_compute. reflexivity.
Defined.

(** X4 at a fresh statistics object and two calls in either order. *)
Lemma updates_order_irrelevant_witness :
  exists s0 s : @source_target_segment_statistics unit,
    @source_target_segment_statistics_new unit example_utilities
      segment_statistic_lengths segment_statistic_lengths_count None
    = Some s0
    /\ updates s0 [(Double.of_decimal 15 (-1), true);
                   (Double.of_decimal 250 0, false)] = Some s
    /\ Permutation [(Double.of_decimal 15 (-1), true);
                    (Double.of_decimal 250 0, false)]
                   [(Double.of_decimal 250 0, false);
                    (Double.of_decimal 15 (-1), true)]
    /\ exists s',
         updates s0 [(Double.of_decimal 250 0, false);
                     (Double.of_decimal 15 (-1), true)] = Some s'
         /\ source_segments s' = source_segments s
         /\ target_segments s' = target_segments s
         /\ total_count_source s' = total_count_source s
         /\ total_count_target s' = total_count_target s.
Proof.
  eexists. eexists.
  split; [vm_compute; reflexivity|].
  split; [vm_compute; reflexivity|].
  split; [apply perm_swap|].
  eapply (@updates_order_irrelevant unit example_utilities
            segment_statistic_lengths segment_statistic_lengths_count None)
    with (calls := [(Double.of_decimal 15 (-1), true);
                    (Double.of_decimal 250 0, false)]).
  - vm_compute. reflexivity.
  - vm_compute. reflexivity.
  - apply perm_swap.
Defined.

(** X5 at a fresh statistics object, a NaN source segment and a later
    source segment of 1.5 mm. *)
Lemma nan_poisons_total_length_witness :
  exists s0 s1 s2 : @source_target_segment_statistics unit,
    @source_target_segment_statistics_new unit example_utilities
      segment_statistic_lengths segment_statistic_lengths_count None
    = Some s0
    /\ segments true s0 <> []
    /\ update s0 S754_nan true = Some s1
    /\ (total_length true s1 = S754_nan
        /\ exists stat : segment_statistic,
             last (segments true s0) = Some stat
             /\ segments true s1
                = <[pred (length (segments true s0)) := bumped stat]>
                    (segments true s0))
    /\ updates s1 [(Double.of_decimal 15 (-1), true)] = Some s2
    /\ total_length true s2 = S754_nan.
Proof.
  pose proof (fun s => proj1 (@nan_poisons_total_length unit s true))
    as Hfirst.
  pose proof (fun s => proj2 (@nan_poisons_total_length unit s true))
    as Hlater.
  eexists. eexists. eexists.
  split; [vm_compute; reflexivity|].
  split; [vm_compute; discriminate|].
  split; [vm_compute; reflexivity|].
  split.
  - apply Hfirst.
    + vm_compute. discriminate.
    + vm_compute. reflexivity.
  - match goal with
    | |- updates ?s1 ?calls = _ /\ _ =>
        split; [vm_compute; reflexivity|apply (Hlater s1 calls)]
    end.
    + vm_compute. reflexivity.
    + vm_compute. reflexivity.
Defined.

(** X6 at the thresholds of the program, after a source segment of
    0.003 mm, and a source segment of 1.5 mm. *)
Lemma ascending_thresholds_bucket_witness :
  exists s0 s : @source_target_segment_statistics unit,
    @source_target_segment_statistics_new unit example_utilities
      segment_statistic_lengths segment_statistic_lengths_count None
    = Some s0
    /\ increasing Double.zero
         (take (Z.to_nat segment_statistic_lengths_count)
            segment_statistic_lengths) = true
    /\ last (take (Z.to_nat segment_statistic_lengths_count)
               segment_statistic_lengths) = Some final_threshold
    /\ updates s0 [(Double.of_decimal 3 (-3), true)] = Some s
    /\ Double.gtb (Double.of_decimal 15 (-1)) Double.zero = true
    /\ total_count true s < Int.INT_MAX
    /\ exists s' (i : nat) (stat : segment_statistic),
         update s (Double.of_decimal 15 (-1)) true = Some s'
         /\ segments true s !! i = Some stat
         /\ segments true s' = <[i := bumped stat]> (segments true s)
         /\ (Double.ltb (Double.of_decimal 15 (-1)) final_threshold = true ->
             in_range stat (Double.of_decimal 15 (-1)) = true
             /\ forall (k : nat) (other : segment_statistic),
                  segments true s !! k = Some other ->
                  in_range other (Double.of_decimal 15 (-1)) = true -> k = i)
         /\ (Double.geb (Double.of_decimal 15 (-1)) final_threshold = true ->
             i = Z.to_nat segment_statistic_lengths_count).
Proof.
  eexists. eexists.
  split; [vm_compute; reflexivity|].
  split; [vm_compute; reflexivity|].
  split; [vm_compute; reflexivity|].
  split; [vm_compute; reflexivity|].
  split; [vm_compute; reflexivity|].
  split; [vm_compute; reflexivity|].
  eapply (@ascending_thresholds_bucket unit example_utilities
            segment_statistic_lengths segment_statistic_lengths_count None)
    with (calls := [(Double.of_decimal 3 (-3), true)]).
  - vm_compute. reflexivity.
  - vm_compute. reflexivity.
  - vm_compute. reflexivity.
  - vm_compute. reflexivity.
  - vm_compute. reflexivity.
  - vm_compute. reflexivity.
Defined.

(** X7 at the thresholds of the program and a target segment of exactly
    [1.0f], the threshold at index 6: it is counted in bucket 7. *)
Lemma threshold_length_counted_above_witness :
  exists (s0 : @source_target_segment_statistics unit) (t : double),
    @source_target_segment_statistics_new unit example_utilities
      segment_statistic_lengths segment_statistic_lengths_count None
    = Some s0
    /\ take (Z.to_nat segment_statistic_lengths_count)
         segment_statistic_lengths !! 6%nat = Some t
    /\ Double.gtb t Double.zero = true
    /\ total_count false s0 < Int.INT_MAX
    /\ exists s' (stat : segment_statistic),
         update s0 t false = Some s'
         /\ segments false s0 !! 7%nat = Some stat
         /\ min_mm stat = t
         /\ segments false s' = <[7%nat := bumped stat]> (segments false s0).
Proof.
  eexists. eexists.
  split; [vm_compute; reflexivity|].
  split; [vm_compute; reflexivity|].
  split; [vm_compute; reflexivity|].
  split; [vm_compute; reflexivity|].
  eapply (@threshold_length_counted_above unit example_utilities
            segment_statistic_lengths segment_statistic_lengths_count None)
    with (calls := []).
  - vm_compute. reflexivity.
  - vm_compute. reflexivity.
  - vm_compute. reflexivity.
  - intros next Hnext. vm_compute in Hnext. injection Hnext as <-.
    vm_compute. reflexivity.
  - vm_compute. reflexivity.
  - vm_compute. reflexivity.
  - vm_compute. reflexivity.
Defined.

(** X8 at an empty array of thresholds. *)
Lemma no_thresholds_single_bucket_witness :
  0 <= 0
  /\ exists s0 : @source_target_segment_statistics unit,
       @source_target_segment_statistics_new unit example_utilities [] 0 None
       = Some s0
       /\ forall (calls : list (double * bool)) s,
            updates s0 calls = Some s ->
            source_segments s
            = [{| min_mm := Double.zero; max_mm := minus_one;
                  count := total_count_source s |}]
            /\ target_segments s
               = [{| min_mm := Double.zero; max_mm := minus_one;
                     count := total_count_target s |}].
Proof.
  split; [lia|].
  apply (@no_thresholds_single_bucket unit example_utilities [] 0 None). lia.
Defined.

(** X9 at a fresh statistics object after a source segment of 1.5 mm and a
    target segment of 250 mm, with the example instances of the functions
    of [utilities.h] and of the number formatting. *)
Lemma str_is_table_witness :
  exists s0 s : @source_target_segment_statistics unit,
    @source_target_segment_statistics_new unit example_utilities
      segment_statistic_lengths segment_statistic_lengths_count None
    = Some s0
    /\ updates s0 [(Double.of_decimal 15 (-1), true);
                   (Double.of_decimal 250 0, false)] = Some s
    /\ @str_layout unit example_utilities_text s = Some (9, 8, 47)
    /\ (length (source_segments s) <= length (target_segments s))%nat
    /\ @source_target_segment_statistics_str unit example_utilities_text
         example_num_put s
       = Some (String.concat newline
                 (@table_lines unit example_utilities_text example_num_put
                    s 9 8 47)).
Proof.
  eexists. eexists.
  split; [vm_compute; reflexivity|].
  split; [vm_compute; reflexivity|].
  split; [vm_compute; reflexivity|].
  split; [simpl; lia|].
  apply (@str_is_table unit example_utilities_text example_num_put).
  - vm_compute. reflexivity.
  - simpl. lia.
Defined.

(** X10 at a statistics object over the thresholds 0.5 and 1, after a
    source and a target segment of 0.7 mm. *)
Lemma str_lines_aligned_witness :
  exists s0 s : @source_target_segment_statistics unit,
    @source_target_segment_statistics_new unit example_utilities
      [Double.of_decimal 5 (-1); Double.of_decimal 1 0] 2 None
    = Some s0
    /\ updates s0 [(Double.of_decimal 7 (-1), true);
                   (Double.of_decimal 7 (-1), false)] = Some s
    /\ @str_layout unit example_utilities_text s = Some (9, 8, 47)
    /\ (length (source_segments s) <= length (target_segments s))%nat
    /\ exists lines : list string,
         @source_target_segment_statistics_str unit example_utilities_text
           example_num_put s
         = Some (String.concat newline lines)
         /\ length lines
            = (length (source_segments s)
               + (if @is_equal example_utilities_text
                       (total_length_source s) (total_length_target s)
                       (Double.of_decimal 1 (-3))
                  then 7 else 8))%nat
         /\ Forall (fun line => String.length line = Z.to_nat 47) lines.
Proof.
  eexists. eexists.
  split; [vm_compute; reflexivity|].
  split; [vm_compute; reflexivity|].
  split; [vm_compute; reflexivity|].
  split; [simpl; lia|].
  apply (@str_lines_aligned unit example_utilities_text example_num_put)
    with (mm_col_size := 9) (count_col_size := 8).
  - vm_compute. reflexivity.
  - simpl. lia.
  - split; [vm_compute; reflexivity|].
    split; [vm_compute; reflexivity|].
    split.
    + intros index source target Hsource Htarget.
      do 3 (destruct index as [|index];
            [vm_compute in Hsource, Htarget;
             injection Hsource as <-; injection Htarget as <-;
             repeat split; intros; apply Z.leb_le; vm_compute; reflexivity|]).
      vm_compute in Hsource. discriminate.
    + repeat split; apply Z.leb_le; vm_compute; reflexivity.
Defined.

(** X11 at an object with one source bucket and no target bucket. *)
Lemma str_short_target_undefined_witness :
  (length (@nil segment_statistic)
   < length [segment_statistic_new Double.zero minus_one])%nat
  /\ @source_target_segment_statistics_str unit example_utilities_text
       example_num_put
       {| source_segments := [segment_statistic_new Double.zero minus_one];
          target_segments := [];
          total_length_source := Double.zero;
          total_length_target := Double.zero;
          max_width := 3; max_precision := 3;
          total_count_source := 0; total_count_target := 0;
          num_segment_tracking_lengths := 0;
          p_logger_ := None; logger_type_ := 0 |}
     = None.
Proof.
  split; [simpl; lia|].
  apply (@str_short_target_undefined unit example_utilities_text
           example_num_put).
  simpl. lia.
Defined.

(** X12 at two objects with one threshold, 0.5: the second has other
    bounds in its target buckets, another upper bound in its last source
    bucket, another [num_segment_tracking_lengths] and a logger. *)
Lemma str_reads_only_witness :
  @source_target_segment_statistics_str unit example_utilities_text
    example_num_put
    {| source_segments :=
         [{| min_mm := Double.zero; max_mm := Double.of_decimal 5 (-1);
             count := 2 |};
          {| min_mm := Double.of_decimal 5 (-1); max_mm := minus_one;
             count := 1 |}];
       target_segments :=
         [{| min_mm := Double.zero; max_mm := Double.of_decimal 5 (-1);
             count := 1 |};
          {| min_mm := Double.of_decimal 5 (-1); max_mm := minus_one;
             count := 0 |}];
       total_length_source := Double.of_decimal 12 (-1);
       total_length_target := Double.of_decimal 3 (-1);
       max_width := 3; max_precision := 3;
       total_count_source := 3; total_count_target := 1;
       num_segment_tracking_lengths := 1;
       p_logger_ := None; logger_type_ := 0 |}
  = @source_target_segment_statistics_str unit example_utilities_text
      example_num_put
      {| source_segments :=
           [{| min_mm := Double.zero; max_mm := Double.of_decimal 5 (-1);
               count := 2 |};
            {| min_mm := Double.of_decimal 5 (-1);
               max_mm := Double.of_decimal 250 0; count := 1 |}];
         target_segments :=
           [{| min_mm := Double.of_decimal 1 0; max_mm := Double.zero;
               count := 1 |};
            {| min_mm := S754_nan; max_mm := Double.of_decimal 7 0;
               count := 0 |}];
         total_length_source := Double.of_decimal 12 (-1);
         total_length_target := Double.of_decimal 3 (-1);
         max_width := 3; max_precision := 3;
         total_count_source := 3; total_count_target := 1;
         num_segment_tracking_lengths := 12;
         p_logger_ := Some tt; logger_type_ := 4 |}.
Proof.
  apply (@str_reads_only unit example_utilities_text example_num_put);
    vm_compute; reflexivity.
Defined.

(** X13 at a fresh statistics object over the thresholds of the program. *)
Lemma str_column_sizes_witness :
  exists s0 : @source_target_segment_statistics unit,
    @source_target_segment_statistics_new unit example_utilities
      segment_statistic_lengths segment_statistic_lengths_count None
    = Some s0
    /\ @str_layout unit example_utilities_text s0 = Some (9, 8, 47)
    /\ 8 <= 9 /\ 8 <= 8
    /\ 47 = 9 + 4 + 9 + 8 + 8 + 9
    /\ 23 <= 47 - 22 <= Int.INT_MAX
    /\ IntArith.sub 47 22 = Some (47 - 22).
Proof.
  eexists.
  split; [vm_compute; reflexivity|].
  match goal with
  | |- str_layout ?s0 = _ /\ _ =>
      split;
        [vm_compute; reflexivity
        |apply (@str_column_sizes unit example_utilities_text s0)]
  end.
  vm_compute. reflexivity.
Defined.

(** X14 at a fresh statistics object over the thresholds of the program,
    after a source segment of 1.5 mm and a target segment of 250 mm. *)
Lemma str_of_constructed_witness :
  exists s0 s : @source_target_segment_statistics unit,
    @source_target_segment_statistics_new unit example_utilities
      segment_statistic_lengths segment_statistic_lengths_count None
    = Some s0
    /\ updates s0 [(Double.of_decimal 15 (-1), true);
                   (Double.of_decimal 250 0, false)] = Some s
    /\ @column_sizes example_utilities_text (max_width s) (max_precision s)
         (largest_count (source_segments s) (target_segments s) 0)
       = Some (9, 8, 47)
    /\ max_count_loop s (length (source_segments s)) 0 0 = Some 1
    /\ @str_layout unit example_utilities_text s = Some (9, 8, 47)
    /\ is_Some (@source_target_segment_statistics_str unit
                  example_utilities_text example_num_put s)
    /\ @source_target_segment_statistics_str unit example_utilities_text
         example_num_put s
       = Some (String.concat newline
                 (@table_lines unit example_utilities_text example_num_put
                    s 9 8 47))
    /\ length (@table_lines unit example_utilities_text example_num_put
                 s 9 8 47)
       = (2 + (Z.to_nat segment_statistic_lengths_count + 1)
          + (if @is_equal example_utilities_text
                  (total_length_source s) (total_length_target s)
                  (Double.of_decimal 1 (-3))
             then 5 else 6))%nat.
Proof.
  eexists. eexists.
  split; [vm_compute; reflexivity|].
  match goal with
  | |- updates ?s0 ?calls = _ /\ _ =>
      split; [vm_compute; reflexivity|];
      match goal with
      | |- column_sizes _ _ (largest_count (source_segments ?s) _ _) = _
           /\ _ =>
          destruct (@str_of_constructed unit example_utilities
                      example_utilities_text example_num_put
                      segment_statistic_lengths
                      segment_statistic_lengths_count None s0 s calls)
            as (Hloop & Hlayout & Hdefined & Htable);
            [vm_compute; reflexivity|vm_compute; reflexivity|]
      end
  end.
  split; [vm_compute; reflexivity|].
  split; [exact Hloop|].
  split; [exact Hlayout|].
  split; [apply Hdefined; vm_compute; eauto|].
  apply Htable. vm_compute. reflexivity.
Defined.

(** X15 at the freshly constructed progress snapshot. *)
Lemma detail_str_of_fresh_progress_witness :
  exists p : @arc_welder_progress unit,
    @arc_welder_progress_new unit example_utilities = Some p
    /\ @str_layout unit example_utilities_text (segment_statistics p)
       = Some (9, 8, 47)
    /\ @arc_welder_progress_detail_str unit example_utilities_text
         example_num_put p
       = Some (String.concat newline
                 ([EmptyString; "Extrusion/Retraction Counts"]
                  ++ @table_lines unit example_utilities_text example_num_put
                       (segment_statistics p) 9 8 47
                  ++ [EmptyString]))
    /\ length (@table_lines unit example_utilities_text example_num_put
                 (segment_statistics p) 9 8 47)
       = (2 + 13
          + (if @is_equal example_utilities_text Double.zero Double.zero
                  (Double.of_decimal 1 (-3))
             then 5 else 6))%nat.
Proof.
  eexists.
  split; [vm_compute; reflexivity|].
  split; [vm_compute; reflexivity|].
  apply (@detail_str_of_fresh_progress unit example_utilities
           example_utilities_text example_num_put).
  - vm_compute. reflexivity.
  - vm_compute. reflexivity.
Defined.

(** X16 at the thresholds of the program: 13 numbers are more than the
    array holds; 12 are read, the last being 100. *)
Lemma constructor_defined_settings_witness :
  (is_Some (@source_target_segment_statistics_new unit example_utilities
              segment_statistic_lengths 13 None)
   <-> (Z.to_nat 13 <= length segment_statistic_lengths)%nat)
  /\ exists s : @source_target_segment_statistics unit,
       @source_target_segment_statistics_new unit example_utilities
         segment_statistic_lengths segment_statistic_lengths_count None
       = Some s
       /\ max_precision s = 3
       /\ num_segment_tracking_lengths s = segment_statistic_lengths_count
       /\ p_logger_ s = None
       /\ logger_type_ s = 0
       /\ exists widest : double,
            last (Double.zero
                  :: take (Z.to_nat segment_statistic_lengths_count)
                       segment_statistic_lengths)
            = Some widest
            /\ max_width s = @get_num_digits example_utilities widest.
Proof.
  split.
  - apply (@constructor_defined_settings unit example_utilities
             segment_statistic_lengths 13 None).
  - eexists. split; [vm_compute; reflexivity|].
    apply (@constructor_defined_settings unit example_utilities
             segment_statistic_lengths segment_statistic_lengths_count None).
    vm_compute. reflexivity.
Defined.
